(** * The RAB cleaning pipeline: tax identifiers, field coercions and the
      agricultural-aircraft classifier

    A shallow embedding of [rab/brazil_tax_id.py] and
    [rab/cleaning_pipeline.py].

    Text.  The registry file is read with [encoding='Latin-1'], so every
    character of every cell is a code point below 256: a Python [str] is a
    [string] here, one [ascii] per code point, and text with other characters
    is outside the model.  On such text the regular expression class [\d] and
    [int()] accept exactly ['0'..'9'], and the whitespace of [\s] and
    [str.strip] is the set [is_space] below.

    Exceptions.  A Python function that may raise returns a [res]; the
    exception is a value, so "does not raise" is a theorem and not an
    assumption. *)

From Stdlib Require Import ZArith QArith Ascii String List Lia Permutation.
From stdpp Require Import base option list strings gmultiset.

Local Open Scope string_scope.
Local Open Scope list_scope.
Local Open Scope Z_scope.

(** ** Exceptions *)

Inductive exn := ValueError | TypeError | KeyError | AttributeError.

Inductive res (A : Type) : Type :=
  | Ok (a : A)
  | Raise (e : exn).
Arguments Ok {A} a.
Arguments Raise {A} e.

#[global] Instance res_ret : MRet res := @Ok.
#[global] Instance res_bind : MBind res := fun A B f m =>
  match m with
  | Ok a => f a
  | Raise e => Raise e
  end.

Definition is_ok {A} (m : res A) : bool :=
  match m with Ok _ => true | Raise _ => false end.

(** ** Values held by an object-typed column *)

Inductive cell :=
  | PyNone                (* None *)
  | NaN                   (* numpy.nan, what read_csv leaves for a missing field *)
  | NA                    (* pandas.NA *)
  | Str (s : string)
  | Bool (b : bool).

#[global] Instance cell_eq_dec : EqDecision cell.
Proof. solve_decision. Defined.

(** [str(x)] *)
Definition py_str (x : cell) : string :=
  match x with
  | PyNone => "None"
  | NaN => "nan"
  | NA => "<NA>"
  | Str s => s
  | Bool true => "True"
  | Bool false => "False"
  end.

(** [Series.isna] *)
Definition isna (x : cell) : bool :=
  match x with
  | PyNone | NaN | NA => true
  | _ => false
  end.

(** ** Characters and Python sequence operations *)

(** [list(x)] and [''.join(l)] *)
Definition chars (s : string) : list ascii := list_ascii_of_string s.
Definition join (l : list ascii) : string := string_of_list_ascii l.

Definition code (c : ascii) : Z := Z.of_N (N_of_ascii c).

Definition is_digit (c : ascii) : bool := (48 <=? code c) && (code c <=? 57).
Definition digit_value (c : ascii) : Z := code c - 48.

(** Python's whitespace below code point 256. *)
Definition is_space (c : ascii) : bool :=
  let n := code c in
  ((9 <=? n) && (n <=? 13)) || ((28 <=? n) && (n <=? 32))
  || (n =? 133) || (n =? 160).

(** A slice bound, as Python normalises it against the length. *)
Definition slice_index (len k : Z) : Z :=
  if k <? 0 then Z.max 0 (len + k) else Z.min len k.

(** [l[lo:hi]]; [None] is an omitted bound. *)
Definition slice {A} (lo hi : option Z) (l : list A) : list A :=
  let n := Z.of_nat (length l) in
  let a := from_option (slice_index n) 0 lo in
  let b := from_option (slice_index n) n hi in
  take (Z.to_nat (b - a)) (drop (Z.to_nat a) l).

(** [numpy.arange(lo, hi)] and [numpy.flip] *)
Definition arange (lo hi : Z) : list Z :=
  map (fun i => lo + Z.of_nat i) (seq 0 (Z.to_nat (hi - lo))).
Definition flip {A} (l : list A) : list A := rev l.

(** [numpy.array(l).astype("int")] on a list of one-character strings:
    a character that is not a decimal digit is a [ValueError]. *)
Definition astype_int (l : list ascii) : res (list Z) :=
  mapM (fun c => if is_digit c then Ok (digit_value c) else Raise ValueError) l.

Fixpoint wsum (w d : list Z) : Z :=
  match w, d with
  | a :: w', b :: d' => a * b + wsum w' d'
  | _, _ => 0
  end.

(** [numpy.dot] of two vectors: shapes that are not aligned are a
    [ValueError]. *)
Definition np_dot (w d : list Z) : res Z :=
  if (length w =? length d)%nat then Ok (wsum w d) else Raise ValueError.

(** ** brazil_tax_id.py *)

(** [re.sub("[^\d]+", "", x)] *)
Definition strip_non_digits (x : string) : string :=
  join (filter (fun c => is_digit c = true) (chars x)).

Definition check_digits_cnpj (x : string) (n : Z) : res Z :=
  let check_vec := [6; 5; 4; 3; 2; 9; 8; 7; 6; 5; 4; 3; 2] in
  digits ← astype_int (slice None (Some (-3 + n)) (chars x));
  d ← np_dot (slice (Some (2 - n)) None check_vec) digits;
  let result := d `mod` 11 in
  Ok (if result <? 2 then 0 else 11 - result).

(** [([f(x, n) for n in [1, 2]] == check_val).all()] *)
Definition all_equal (computed check_val : list Z) : bool :=
  forallb id (zip_with Z.eqb computed check_val).

Definition valid_cnpj (x : cell) : res bool :=
  match x with
  | PyNone => Ok false
  | _ =>
    let x := strip_non_digits (py_str x) in
    if bool_decide (x = "") || negb (String.length x =? 14)%nat then Ok false
    else
      check_val ← astype_int (slice (Some (-2)) None (chars x));
      computed ← mapM (check_digits_cnpj x) [1; 2];
      Ok (all_equal computed check_val)
  end.

Definition check_digits_cpf (x : string) (n : Z) : res Z :=
  let check_vec := flip (arange 2 (10 + n)) in
  digits ← astype_int (slice None (Some (8 + n)) (chars x));
  d ← np_dot check_vec digits;
  let result := d `mod` 11 in
  Ok (if result <? 2 then 0 else 11 - result).

Definition valid_cpf (x : cell) : res bool :=
  match x with
  | PyNone => Ok false
  | _ =>
    let x := strip_non_digits (py_str x) in
    if bool_decide (x = "") || negb (String.length x =? 11)%nat then Ok false
    else
      check_val ← astype_int (slice (Some (-2)) None (chars x));
      computed ← mapM (check_digits_cpf x) [1; 2];
      Ok (all_equal computed check_val)
  end.

(** [f"{x[:2]}.{x[2:5]}.{x[5:8]}/{x[8:12]}-{x[12:14]}"] *)
Definition format_cnpj (x : string) : string :=
  let x := chars (strip_non_digits x) in
  join (slice None (Some 2) x ++ chars "." ++ slice (Some 2) (Some 5) x
        ++ chars "." ++ slice (Some 5) (Some 8) x ++ chars "/"
        ++ slice (Some 8) (Some 12) x ++ chars "-" ++ slice (Some 12) (Some 14) x).

(** [f"{x[:3]}.{x[3:6]}.{x[6:9]}-{x[9:12]}"] *)
Definition format_cpf (x : string) : string :=
  let x := chars (strip_non_digits x) in
  join (slice None (Some 3) x ++ chars "." ++ slice (Some 3) (Some 6) x
        ++ chars "." ++ slice (Some 6) (Some 9) x ++ chars "-"
        ++ slice (Some 9) (Some 12) x).


(** ** Python's [str.strip] and [int] on text *)

Fixpoint lstrip_by (space : ascii -> bool) (l : list ascii) : list ascii :=
  match l with
  | c :: l' => if space c then lstrip_by space l' else l
  | [] => []
  end.

Definition strip_by (space : ascii -> bool) (l : list ascii) : list ascii :=
  rev (lstrip_by space (rev (lstrip_by space l))).

(** [s.strip()] *)
Definition strip (l : list ascii) : list ascii := strip_by is_space l.

(** The whitespace [int()] ignores around a number: the ASCII whitespace of C
    and the whitespace above code point 127; not the separators 28 to 31. *)
Definition is_int_space (c : ascii) : bool :=
  let n := code c in
  ((9 <=? n) && (n <=? 13)) || (n =? 32) || (n =? 133) || (n =? 160).

(** The digits of an integer literal: single underscores are allowed between
    digits only.  [sep] says that the previous character was not a digit. *)
Fixpoint int_body (sep : bool) (acc : Z) (l : list ascii) : option Z :=
  match l with
  | [] => if sep then None else Some acc
  | c :: l' =>
    if is_digit c then int_body false (10 * acc + digit_value c) l'
    else if Ascii.eqb c "_" && negb sep then int_body true acc l'
    else None
  end.

(** [int(s)] for a [str]: surrounding whitespace, one optional sign, then the
    digits; anything else is a [ValueError].  (The interpreter's configurable
    cap on the number of digits is not part of the model.) *)
Definition py_int (s : string) : res Z :=
  let l := strip_by is_int_space (chars s) in
  let '(sign, body) :=
    match l with
    | c :: b => if Ascii.eqb c "+" then (1, b)
                else if Ascii.eqb c "-" then (-1, b) else (1, l)
    | [] => (1, l)
    end in
  match int_body true 0 body with
  | Some v => Ok (sign * v)
  | None => Raise ValueError
  end.

(** ** Regular expressions of the classifier

    [Series.str.contains(pat, flags=re.IGNORECASE, na=False)] asks whether
    [re.search] finds a match anywhere in the cell.  Only the existence of a
    match matters, so the patterns are matched with derivatives.  The
    literals of the patterns are ASCII; below code point 256 an ASCII letter
    is matched, case ignored, by its own two cases only. *)

Inductive regex :=
  | Void
  | Eps
  | Lit (c : ascii)               (* one literal ASCII character, case ignored *)
  | Sep                           (* the class [-_\s] *)
  | Cat (r1 r2 : regex)
  | Alt (r1 r2 : regex)
  | Star (r : regex)
  | Opt (r : regex).              (* r? *)

Definition lower (c : ascii) : ascii :=
  let n := code c in
  if (65 <=? n) && (n <=? 90) then ascii_of_N (Z.to_N (n + 32)) else c.

Definition is_sep (c : ascii) : bool :=
  Ascii.eqb c "-" || Ascii.eqb c "_" || is_space c.

(** A literal piece of a pattern. *)
Fixpoint lit_chars (l : list ascii) : regex :=
  match l with
  | [] => Eps
  | [c] => Lit c
  | c :: l' => Cat (Lit c) (lit_chars l')
  end.
Definition lit (s : string) : regex := lit_chars (chars s).

Fixpoint nullable (r : regex) : bool :=
  match r with
  | Void | Lit _ | Sep => false
  | Eps | Star _ | Opt _ => true
  | Cat r1 r2 => nullable r1 && nullable r2
  | Alt r1 r2 => nullable r1 || nullable r2
  end.

Fixpoint deriv (x : ascii) (r : regex) : regex :=
  match r with
  | Void | Eps => Void
  | Lit c => if Ascii.eqb (lower c) (lower x) then Eps else Void
  | Sep => if is_sep x then Eps else Void
  | Cat r1 r2 =>
    if nullable r1 then Alt (Cat (deriv x r1) r2) (deriv x r2)
    else Cat (deriv x r1) r2
  | Alt r1 r2 => Alt (deriv x r1) (deriv x r2)
  | Star r1 => Cat (deriv x r1) (Star r1)
  | Opt r1 => deriv x r1
  end.

(** Does some prefix of [s] match [r]? *)
Fixpoint match_prefix (s : list ascii) (r : regex) : bool :=
  nullable r ||
  match s with
  | [] => false
  | x :: s' => match_prefix s' (deriv x r)
  end.

(** [re.search(r, s, re.IGNORECASE) is not None] *)
Fixpoint search (r : regex) (s : list ascii) : bool :=
  match_prefix s r ||
  match s with
  | [] => false
  | _ :: s' => search r s'
  end.

(** Reference semantics of a pattern, used to check the matcher. *)
Inductive matches : regex -> list ascii -> Prop :=
  | m_eps : matches Eps []
  | m_lit c x : lower c = lower x -> matches (Lit c) [x]
  | m_sep x : is_sep x = true -> matches Sep [x]
  | m_cat r1 r2 s1 s2 : matches r1 s1 -> matches r2 s2 -> matches (Cat r1 r2) (s1 ++ s2)
  | m_alt_l r1 r2 s : matches r1 s -> matches (Alt r1 r2) s
  | m_alt_r r1 r2 s : matches r2 s -> matches (Alt r1 r2) s
  | m_star_nil r : matches (Star r) []
  | m_star_cons r s1 s2 : matches r s1 -> matches (Star r) s2 -> matches (Star r) (s1 ++ s2)
  | m_opt_none r : matches (Opt r) []
  | m_opt_some r s : matches r s -> matches (Opt r) s.

(** ** Tables

    A [DataFrame] has [nrows] rows and labelled columns, in order.  A column is
    object-typed (strings and missing values) or boolean. *)

Inductive column :=
  | Obj (l : list cell)
  | Boolean (l : list bool).

Record DataFrame := mkDataFrame {
  nrows : nat;
  columns : list (string * column)
}.

Definition col_length (c : column) : nat :=
  match c with Obj l => length l | Boolean l => length l end.

(** Every column is as long as the index. *)
Definition well_formed (df : DataFrame) : Prop :=
  Forall (fun kc => col_length (snd kc) = nrows df) (columns df).

Fixpoint lookup_col (col : string) (cs : list (string * column)) : option column :=
  match cs with
  | [] => None
  | (k, c) :: cs' => if String.eqb k col then Some c else lookup_col col cs'
  end.

(** In place when the label exists, appended otherwise. *)
Fixpoint assign_col (col : string) (v : column) (cs : list (string * column))
  : list (string * column) :=
  match cs with
  | [] => [(col, v)]
  | (k, c) :: cs' =>
    if String.eqb k col then (k, v) :: cs' else (k, c) :: assign_col col v cs'
  end.

(** [df[col]] *)
Definition getitem (df : DataFrame) (col : string) : res column :=
  match lookup_col col (columns df) with
  | Some c => Ok c
  | None => Raise KeyError
  end.

(** [df[col] = series] *)
Definition setitem (df : DataFrame) (col : string) (v : column) : DataFrame :=
  mkDataFrame (nrows df) (assign_col col v (columns df)).

(** The cells of a column, as [Series.apply] hands them to a function. *)
Definition cells (c : column) : list cell :=
  match c with Obj l => l | Boolean l => map Bool l end.

(** [df.loc[mask, col] = v] for a scalar [v].  An object column takes the
    value in the selected rows; a boolean column stays boolean when [v] is a
    boolean and is otherwise turned into an object column if a row is
    selected; a label that does not exist yet becomes a new object column,
    missing in the rows not selected. *)
Definition loc_set (df : DataFrame) (mask : list bool) (col : string) (v : cell)
  : DataFrame :=
  let put := fun (m : bool) (x : cell) => if m then v else x in
  let new :=
    match lookup_col col (columns df) with
    | Some (Obj l) => Obj (zip_with put mask l)
    | Some (Boolean l) =>
      match v with
      | Bool b => Boolean (zip_with (fun (m x : bool) => if m then b else x) mask l)
      | _ => if existsb id mask then Obj (zip_with put mask (map Bool l))
             else Boolean l
      end
    | None => Obj (map (fun m => put m NaN) mask)
    end in
  setitem df col new.

(** ** Schema *)

Definition COLUMN_MAP_JSON : list (string * string) :=
  [ ("MARCA", "tail_number"); ("PROPRIETARIO", "owner_customer_name");
    ("OUTROSPROPRIETARIOS", "owner_other"); ("SGUF", "owner_state");
    ("CPFCNPJ", "owner_tax_id"); ("NMOPERADOR", "operator_customer_name");
    ("OUTROSOPERADORES", "operator_other"); ("UFOPERADOR", "operator_state");
    ("CPFCGC", "operator_tax_id"); ("NRCERTMATRICULA", "certifate_num");
    ("NRSERIE", "serial"); ("CDCATEGORIA", "opertion_type");
    ("CDTIPO", "pilot_license_type"); ("DSMODELO", "model");
    ("NMFABRICANTE", "mfg"); ("CDCLS", "icao_type_desc");
    ("NRPMD", "max_takeoff_wgt"); ("CDTIPOICAO", "icao_type_code");
    ("NRTRIPULACAOMIN", "min_crew_size"); ("NRPASSAGEIROSMAX", "max_passengers");
    ("NRASSENTOS", "seats"); ("NRANOFABRICACAO", "year_mfg");
    ("DTVALIDADEIAM", "exp_date_iam"); ("DTVALIDADECA", "exp_date_ca");
    ("DTCANC", "unk_dtcanc"); ("DSMOTIVOCANC", "unk_dsmotivocanc");
    ("CDINTERDICAO", "unk_cdinterdicao"); ("CDMARCANAC1", "unk_cdmarcanac1");
    ("CDMARCANAC2", "unk_cdmarcanac2"); ("CDMARCANAC3", "unk_cdmarcanac3");
    ("CDMARCAESTRANGEIRA", "foreign_tail_number"); ("DSGRAVAME", "unk_dsgravame") ].

Definition COLUMN_MAP_CSV : list (string * string) :=
  [ ("MARCA", "tail_number"); ("PROPRIETARIO", "owner_customer_name");
    ("OUTROS_PROPRIETARIOS", "owner_other"); ("UF_PROPRIETARIO", "owner_state");
    ("CPF_CNPJ_PROPRIETARIO", "owner_tax_id"); ("OPERADOR", "operator_customer_name");
    ("OUTROS_OPERADORES", "operator_other"); ("UF_OPERADOR", "operator_state");
    ("CPF_CGC_OPERADOR", "operator_tax_id"); ("MATRICULA", "certifate_num");
    ("NUM_SERIE", "serial"); ("CATEGORIA", "opertion_type");
    ("TIPO_CERT", "pilot_license_type"); ("MODELO", "model");
    ("NOME_FABRICANTE", "mfg"); ("CLASSE", "icao_type_desc");
    ("PMD", "max_takeoff_wgt"); ("TIPO_ICAO", "icao_type_code");
    ("TRIP_MIN", "min_crew_size"); ("PAX_MAX", "max_passengers");
    ("ASSENTOS", "seats"); ("ANO_FABRICACAO", "year_mfg");
    ("VAL_CAV", "exp_date_iam"); ("VAL_CA", "exp_date_ca");
    ("DATA_CANC", "unk_dtcanc"); ("MOTIVO", "unk_dsmotivocanc");
    ("CD_INTERDICAO", "unk_cdinterdicao"); ("MARCA_NAC_1", "unk_cdmarcanac1");
    ("MARCA_NAC_2", "unk_cdmarcanac2"); ("MARCA_NAC_3", "unk_cdmarcanac3");
    ("MARCA_EST", "foreign_tail_number"); ("DESCRICAO_DO_GRAVAME", "unk_dsgravame") ].

(** [dict.keys()], [dict.values()] and [dict.get] *)
Definition keys {A B} (d : list (A * B)) : list A := map fst d.
Definition values {A B} (d : list (A * B)) : list B := map snd d.
Fixpoint dict_get (d : list (string * string)) (k : string) : option string :=
  match d with
  | [] => None
  | (k', v) :: d' => if String.eqb k' k then Some v else dict_get d' k
  end.

(** [collections.Counter(l)]: the multiset of the elements of [l]. *)
Definition Counter (l : list string) : gmultiset string := list_to_set_disj l.

(** Only the labels of the table are read: [data.columns]. *)
Definition check_raw_data (data_columns : list string) : bool :=
  let expected_cols := Counter (keys COLUMN_MAP_CSV) in
  let response_cols := Counter data_columns in
  bool_decide (expected_cols = response_cols).

(** [df.rename(columns=COLUMN_MAP_CSV)] acts on the labels: a label that is a
    key of the map is replaced, any other label is kept. *)
Definition rename_label (m : list (string * string)) (c : string) : string :=
  default c (dict_get m c).
Definition rename_columns (df_columns : list string) : list string :=
  map (rename_label COLUMN_MAP_CSV) df_columns.


(** ** Field coercions *)

(** The function [format_dates] applies to every cell.  [int(x)] is tried
    inside the [try]; the second [int(y)] is outside of it. *)
Definition apply_func (x : cell) : res cell :=
  match x with
  | PyNone => Ok x
  | NaN => Ok x                     (* int(nan) is a ValueError: returned as is *)
  | NA => Raise TypeError           (* int(pandas.NA) *)
  | Bool _ => Raise TypeError       (* int(True) passes, True[0:2] does not *)
  | Str s =>
    match py_int s with
    | Raise ValueError => Ok x      (* except ValueError: return x *)
    | Raise e => Raise e
    | Ok _ =>
      let d := slice (Some 0) (Some 2) (chars s) in
      let m := slice (Some 2) (Some 4) (chars s) in
      let y := slice (Some 4) None (chars s) in
      y ← (if (length y =? 2)%nat then
             v ← py_int (join y);
             Ok (if v <? 20 then chars "20" ++ y else chars "19" ++ y)
           else Ok y);
      Ok (Str (join (y ++ chars "-" ++ m ++ chars "-" ++ d)))
    end
  end.

Fixpoint format_dates (df : DataFrame) (cols : list string) : res DataFrame :=
  match cols with
  | [] => Ok df
  | col :: cols' =>
    c ← getitem df col;
    new ← mapM apply_func (cells c);
    format_dates (setitem df col (Obj new)) cols'
  end.

(** [wgt_convert], on one column.  [.str.replace(r"[^0-9,.]", "")] (the
    pattern is a regular expression, the default of [str.replace] in the
    pandas the code was written for), [.str.replace(",", ".")] and
    [.str.strip()] leave a missing cell missing and give a missing cell for a
    cell that is not a string. *)
Definition keep_wgt_char (c : ascii) : bool :=
  is_digit c || Ascii.eqb c "," || Ascii.eqb c ".".

Definition comma_to_dot (c : ascii) : ascii :=
  if Ascii.eqb c "," then "."%char else c.

Definition wgt_clean (s : string) : string :=
  join (strip (map comma_to_dot (filter (fun c => keep_wgt_char c = true) (chars s)))).

(** The digits before and after the dot of a decimal numeral. *)
Fixpoint decimal_digits (seen_dot : bool) (mant : Z) (frac : nat) (any : bool)
    (l : list ascii) : option (Z * nat) :=
  match l with
  | [] => if any then Some (mant, frac) else None
  | c :: l' =>
    if is_digit c then
      decimal_digits seen_dot (10 * mant + digit_value c)
                     (if seen_dot then S frac else frac) true l'
    else if Ascii.eqb c "." && negb seen_dot then
      decimal_digits true mant frac any l'
    else None
  end.

(** [float(s)] on text made of digits and dots, the only text [wgt_clean]
    produces ([wgt_kept_alphabet]): digits with at most one dot and at least
    one digit; anything else is a [ValueError].  The value is the decimal
    fraction that Python rounds to the nearest double; the rounding is not
    modelled. *)
Definition float_of_decimal (s : string) : res Q :=
  match decimal_digits false 0 0 false (chars s) with
  | Some (mant, frac) => Ok (mant # Pos.of_nat (10 ^ frac))
  | None => Raise ValueError
  end.

(** One cell through [.fillna(-1).astype("float")]. *)
Definition wgt_cell (x : cell) : res Q :=
  match x with
  | Str s => float_of_decimal (wgt_clean s)
  | _ => Ok (-1 # 1)
  end.

Definition wgt_convert (col : list cell) : res (list Q) := mapM wgt_cell col.

(** [str_to_int], on one column: [pd.to_numeric(col).astype("Int64")].
    [to_numeric] is called with its default [errors="raise"].  Which non-empty
    strings pandas reads as a number is left open: [numeric_literal] is that
    reader, [None] where it gives up.  Values are exact rationals. *)
Section StrToInt.
Variable numeric_literal : string -> option Q.

(** [None] is NaN. *)
Definition to_numeric_cell (x : cell) : res (option Q) :=
  match x with
  | PyNone | NaN | NA => Ok None
  | Bool b => Ok (Some (if b then 1 # 1 else 0 # 1))
  | Str s =>
    if bool_decide (s = "") then Ok None
    else match numeric_literal s with
         | Some q => Ok (Some q)
         | None => Raise ValueError
         end
  end.

(** A float that is not a whole number cannot be cast safely. *)
Definition astype_Int64_cell (v : option Q) : res (option Z) :=
  match v with
  | None => Ok None
  | Some q =>
    if (Zpos (Qden (Qred q)) =? 1) then Ok (Some (Qnum (Qred q)))
    else Raise TypeError
  end.

Definition str_to_int (col : list cell) : res (list (option Z)) :=
  nums ← mapM to_numeric_cell col;
  mapM astype_Int64_cell nums.
End StrToInt.

(** Plain decimal numerals with an optional sign, which pandas reads as
    numbers. *)
Definition decimal_literal (s : string) : option Q :=
  let '(sign, body) :=
    match chars s with
    | c :: b => if Ascii.eqb c "-" then (-1, b)
                else if Ascii.eqb c "+" then (1, b) else (1, c :: b)
    | [] => (1, [])
    end in
  match decimal_digits false 0 0 false body with
  | Some (mant, frac) => Some ((sign * mant) # Pos.of_nat (10 ^ frac))
  | None => None
  end.


(** ** Tax identifier enrichment *)

(** [tax_id_print(x)] with [x[0]] the type and [x[1]] the identifier.
    Comparing [pandas.NA] with a string gives [pandas.NA], whose truth value
    is a [TypeError]. *)
Definition tax_id_print (ty id : cell) : res cell :=
  match ty with
  | NA => Raise TypeError
  | _ =>
    if bool_decide (ty = Str "INVALID") then Ok id
    else if bool_decide (ty = Str "CNPJ") then Ok (Str (format_cnpj (py_str id)))
    else if bool_decide (ty = Str "CPF") then Ok (Str (format_cpf (py_str id)))
    else Ok NA
  end.

(** [Series.fillna(v)] *)
Definition fillna (v : cell) (l : list cell) : list cell :=
  map (fun x => if isna x then v else x) l.

(** [lambda x: sum([int(i) for i in list(x)])] *)
Definition digit_sum (x : cell) : res Z :=
  match x with
  | Str s =>
    ds ← mapM (fun i => py_int (String i "")) (chars s);
    Ok (foldr Z.add 0 ds)
  | _ => Raise TypeError            (* list(x) of a value that is not iterable *)
  end.

Definition tax_id_entity (df : DataFrame) (entity : string) : res DataFrame :=
  let id_col := entity +:+ "_tax_id" in
  let type_col := id_col +:+ "_type" in
  let print_col := id_col +:+ "_print" in
  ids ← getitem df id_col;
  sums ← mapM digit_sum (fillna (Str "0") (cells ids));
  let mask_missing_tax_ids := map (fun v => v =? 0) sums in
  let df := loc_set df mask_missing_tax_ids id_col NA in
  let df := setitem df type_col (Obj (replicate (nrows df) (Str "INVALID"))) in
  ids ← getitem df id_col;
  let df := loc_set df (map isna (cells ids)) type_col (Str "EMPTY") in
  ids ← getitem df id_col;
  cnpj ← mapM valid_cnpj (cells ids);
  cpf ← mapM valid_cpf (cells ids);
  let df := loc_set df cnpj type_col (Str "CNPJ") in
  let df := loc_set df cpf type_col (Str "CPF") in
  tys ← getitem df type_col;
  ids ← getitem df id_col;
  prints ← mapM (fun x => tax_id_print (fst x) (snd x)) (zip (cells tys) (cells ids));
  Ok (setitem df print_col (Obj prints)).

Definition tax_id (df : DataFrame) : res DataFrame :=
  df ← tax_id_entity df "owner";
  tax_id_entity df "operator".

(** ** Classification of agricultural aircraft *)

(** [na=False]: a cell that is not a string does not match. *)
Definition str_contains (pat : regex) (x : cell) : bool :=
  match x with
  | Str s => search pat (chars s)
  | _ => false
  end.

(** [df[col].str.contains(regex_pat, flags=re.IGNORECASE, na=False)] *)
Definition search_df (df : DataFrame) (col : string) (regex_pat : regex)
  : res (list bool) :=
  c ← getitem df col;
  match c with
  | Obj l => Ok (map (str_contains regex_pat) l)
  | Boolean _ => Raise AttributeError    (* no .str accessor *)
  end.

(** [pd.concat([...], axis=1)]: the list of its columns; nothing to
    concatenate is a [ValueError]. *)
Definition bool_df (df : DataFrame) (query_list : list (string * regex))
  : res (list (list bool)) :=
  series ← mapM (fun q => search_df df (fst q) (snd q)) query_list;
  match series with
  | [] => Raise ValueError
  | _ => Ok series
  end.

(** [.any(axis=1)] and [.all(axis=1)] of a frame given by its columns. *)
Definition any_axis1 (cols : list (list bool)) : list bool :=
  match cols with
  | [] => []
  | c :: cs => foldl (zip_with orb) c cs
  end.
Definition all_axis1 (cols : list (list bool)) : list bool :=
  match cols with
  | [] => []
  | c :: cs => foldl (zip_with andb) c cs
  end.

Inductive combinator := any | all.

Record rule := mkRule {
  name : string;
  normalize : bool;
  query : list (string * regex);
  type : combinator
}.

(** [[-_\s]*] *)
Definition seps : regex := Star Sep.

Definition re_ag_cat : regex :=          (* "(AG){1}[-_\s]*(CAT){1}" *)
  Cat (lit "AG") (Cat seps (lit "CAT")).
Definition re_g164 : regex :=            (* "G{1}[-_\s]*(164){1}A?" *)
  Cat (lit "G") (Cat seps (Cat (lit "164") (Opt (lit "A")))).
Definition re_thrush : regex := lit "THRUSH".           (* "(THRUSH)" *)
Definition re_s2r : regex := lit "S2R-".                (* "(S2R-)" *)
Definition re_cessna : regex := lit "CESSNA".           (* "(CESSNA)" *)
Definition re_188 : regex := lit "188".                 (* "(188){1}" *)
Definition re_pa25 : regex :=            (* "(PA){1}[-_\s]*(25){1}" *)
  Cat (lit "PA") (Cat seps (lit "25")).
Definition re_emb2 : regex :=            (* "(EMB){1}[-_\s]*(2){1}" *)
  Cat (lit "EMB") (Cat seps (lit "2")).
Definition re_air_tractor : regex := lit "AIR TRACTOR". (* "AIR TRACTOR" *)
Definition re_at : regex :=              (* "(AT){1}[-_\s](40|50|60|80){1}" *)
  Cat (lit "AT")
      (Cat Sep (Alt (lit "40") (Alt (lit "50") (Alt (lit "60") (lit "80"))))).
Definition re_401 : regex := lit "401".                 (* "(401){1}" *)

Definition aircraft : list rule :=
  [ mkRule "AG-CAT" true [("mfg", re_ag_cat); ("model", re_g164)] any;
    mkRule "THRUSH AIRCRAFT" true [("mfg", re_thrush); ("model", re_s2r)] any;
    mkRule "CESSNA AIRCRAFT" true [("mfg", re_cessna); ("model", re_188)] all;
    mkRule "PIPER AIRCRAFT" false [("model", re_pa25)] any;
    mkRule "EMBRAER" true [("model", re_emb2)] any;
    mkRule "AIR TRACTOR" true [("mfg", re_air_tractor); ("model", re_at)] any ].

(** The mask a rule selects on the table as it stands. *)
Definition rule_selection (df : DataFrame) (mfg : rule) : res (list bool) :=
  cols ← bool_df df (query mfg);
  Ok (match type mfg with
      | any => any_axis1 cols
      | all => all_axis1 cols
      end).

(** The loop over the rules: the table and [ag_aircraft_selection] so far. *)
Fixpoint ag_loop (rules : list rule) (df : DataFrame)
    (ag_aircraft_selection : list (list bool))
  : res (DataFrame * list (list bool)) :=
  match rules with
  | [] => Ok (df, ag_aircraft_selection)
  | mfg :: rules' =>
    selection ← rule_selection df mfg;
    let df := if normalize mfg
              then loc_set df selection "mfg" (Str (name mfg)) else df in
    ag_loop rules' df (ag_aircraft_selection ++ [selection])
  end.

Definition ag_aircraft_with (rules : list rule) (df : DataFrame) : res DataFrame :=
  st ← ag_loop rules df [];
  let '(df, ag_aircraft_selection) := st in
  match ag_aircraft_selection with
  | [] => Raise ValueError               (* pd.concat of an empty list *)
  | _ =>
    let ag_aircraft_selection := any_axis1 ag_aircraft_selection in
    let df := setitem df "agaircraft" (Boolean (replicate (nrows df) false)) in
    Ok (loc_set df ag_aircraft_selection "agaircraft" (Bool true))
  end.

Definition ag_aircraft (df : DataFrame) : res DataFrame :=
  ag_aircraft_with aircraft df.

(** [df.mfg == v] *)
Definition series_eq (c : column) (v : string) : list bool :=
  map (fun x => bool_decide (x = Str v)) (cells c).

(** A column used as a boolean mask operand: an object column may hold
    booleans and missing values (read as False), but no text. *)
Definition as_mask (c : column) : res (list bool) :=
  match c with
  | Boolean l => Ok l
  | Obj l => mapM (fun x => match x with
                            | Bool b => Ok b
                            | Str _ => Raise TypeError
                            | _ => Ok false
                            end) l
  end.

Definition icao_engine (df : DataFrame) : res DataFrame :=
  cols ← bool_df df [("mfg", re_air_tractor); ("model", re_401)];
  let sel_401 := all_axis1 cols in
  mfg ← getitem df "mfg";
  let sel_turbine_ag :=
    zip_with orb (zip_with andb (series_eq mfg "AIR TRACTOR") (map negb sel_401))
                 (series_eq mfg "THRUSH AIRCRAFT") in
  let df := loc_set df sel_turbine_ag "icao_type_desc" (Str "L1T") in
  ag ← getitem df "agaircraft";
  ag ← as_mask ag;
  Ok (loc_set df (zip_with andb (map negb sel_turbine_ag) ag)
              "icao_type_desc" (Str "L1P")).


(** ** The checksum rules in the words of the specification

    A check digit is a weighted sum of the preceding digits modulo 11, mapped
    to 0 when the remainder is below 2 and to 11 minus the remainder
    otherwise.  These definitions are what the validators are compared with. *)

Definition check_of (weights digits : list Z) : Z :=
  let r := wsum weights digits `mod` 11 in
  if r <? 2 then 0 else 11 - r.

Definition digits_of (x : string) : list Z := map digit_value (chars x).

Definition cnpj_weights : list Z := [5; 4; 3; 2; 9; 8; 7; 6; 5; 4; 3; 2].

(** Both trailing digits of the 14 equal the check digits computed from the
    preceding 12, then 13, digits; the second vector is the first with the
    weight 6 in front. *)
Definition cnpj_checks_match (ds : list Z) : Prop :=
  ds !! 12%nat = Some (check_of cnpj_weights (take 12 ds)) /\
  ds !! 13%nat = Some (check_of (6 :: cnpj_weights) (take 13 ds)).

(** The same, with the second check digit taken over the 12 digits followed
    by the first computed check digit. *)
Definition cnpj_checks_chain (ds : list Z) : Prop :=
  let c1 := check_of cnpj_weights (take 12 ds) in
  ds !! 12%nat = Some c1 /\
  ds !! 13%nat = Some (check_of (6 :: cnpj_weights) (take 12 ds ++ [c1])).

(** [from, from - 1, ...], [len] weights. *)
Definition descending (from : Z) (len : nat) : list Z :=
  map (fun i => from - Z.of_nat i) (seq 0 len).

Definition cpf_checks_match (w1 w2 ds : list Z) : Prop :=
  ds !! 9%nat = Some (check_of w1 (take 9 ds)) /\
  ds !! 10%nat = Some (check_of w2 (take 10 ds)).

(** ** Vocabulary for the statements about weights *)

Definition is_dot (c : ascii) : bool := Ascii.eqb c ".".

Definition count (p : ascii -> bool) (l : list ascii) : nat :=
  length (filter (fun c => p c = true) l).

(** What follows the first dot. *)
Fixpoint after_dot (l : list ascii) : list ascii :=
  match l with
  | [] => []
  | c :: l' => if is_dot c then l' else after_dot l'
  end.

(** The digits of [l], read as one decimal integer after [acc]. *)
Definition digits_value (acc : Z) (l : list ascii) : Z :=
  fold_left (fun acc c => 10 * acc + digit_value c)
            (filter (fun c => is_digit c = true) l) acc.

(** A rational that is an integer. *)
Definition whole (q : Q) : Prop := exists z : Z, (inject_Z z == q)%Q.

(** ** The classifier on one row

    Every operation of [ag_aircraft] works row by row; these functions say
    what happens to one row, given by its [mfg] and [model] cells.  They are
    related to the loop over the table in [ag_loop_rows]. *)

Definition row : Type := cell * cell.

(** One predicate of a query on a row. *)
Definition row_matches (q : string * regex) (r : row) : bool :=
  str_contains (snd q) (if String.eqb (fst q) "mfg" then fst r else snd r).

Definition combine (t : combinator) : bool -> bool -> bool :=
  match t with any => orb | all => andb end.

(** The mask of a rule at a row. *)
Definition row_selection (mfg : rule) (r : row) : bool :=
  match query mfg with
  | [] => false
  | q :: qs => foldl (combine (type mfg)) (row_matches q r)
                     (map (fun q => row_matches q r) qs)
  end.

(** The row after a rule has been applied. *)
Definition row_step (mfg : rule) (r : row) : row :=
  (if normalize mfg && row_selection mfg r then Str (name mfg) else fst r, snd r).

Definition row_run (rules : list rule) (r : row) : row :=
  fold_left (fun r mfg => row_step mfg r) rules r.

(** The mask of each rule at a row, each taken when its rule is applied. *)
Fixpoint row_selections (rules : list rule) (r : row) : list bool :=
  match rules with
  | [] => []
  | mfg :: rules' => row_selection mfg r :: row_selections rules' (row_step mfg r)
  end.

Definition row_flag (rules : list rule) (r : row) : bool :=
  match row_selections rules r with
  | [] => false
  | b :: bs => foldl orb b bs
  end.

(** The queries of a rule name [mfg] and [model] only, and at least one. *)
Definition rule_ok (mfg : rule) : Prop :=
  query mfg <> [] /\
  Forall (fun q => fst q = "mfg" \/ fst q = "model") (query mfg).

(** The turbine selection of [icao_engine] in the words of the
    specification: the manufacturer is exactly AIR TRACTOR and the model is
    not the 401 variant, or the manufacturer is exactly THRUSH AIRCRAFT. *)
Definition turbine_row (mfg model : cell) : Prop :=
  (mfg = Str "AIR TRACTOR" /\ str_contains re_401 model = false)
  \/ mfg = Str "THRUSH AIRCRAFT".

(** The columns of selections the loop collects over a table given by its rows. *)
Fixpoint selection_columns (rules : list rule) (rows : list row) : list (list bool) :=
  match rules with
  | [] => []
  | mfg :: rules' =>
    map (row_selection mfg) rows :: selection_columns rules' (map (row_step mfg) rows)
  end.

(** ** Sample tables *)

Definition aircraft_table (rows : list (string * string)) : DataFrame :=
  mkDataFrame (length rows)
    [ ("mfg", Obj (map (fun r => Str (fst r)) rows));
      ("model", Obj (map (fun r => Str (snd r)) rows));
      ("icao_type_desc", Obj (map (fun _ => Str "L2J") rows)) ].

(** The four values of the type columns. *)
Definition tax_id_type_value (x : cell) : Prop :=
  x = Str "EMPTY" \/ x = Str "INVALID" \/ x = Str "CNPJ" \/ x = Str "CPF".
(** ** Vocabulary for further statements about identifiers *)

(** The character of a decimal digit. *)
Definition digit_char (d : Z) : ascii := ascii_of_N (Z.to_N (48 + d)).

Definition all_digits (l : list ascii) : Prop := Forall (fun c => is_digit c = true) l.

(** ** Vocabulary for further statements about dates *)

Definition is_hyphen (c : ascii) : bool := Ascii.eqb c "-".

(** The century [apply_func] puts before a two-digit year. *)
Definition century (yy : list ascii) : list ascii :=
  if digits_value 0 yy <? 20 then chars "20" else chars "19".

(** A column that [format_dates] leaves as it is. *)
Definition dates_settled (c : column) : Prop :=
  exists l, c = Obj l /\ mapM apply_func l = Ok l.

(** ** [aircraft_age], on the year column

    [year_mfg] is the nullable integer column that [str_to_int] leaves; the
    current year is a parameter.  [Series.notna] is a boolean array; the
    comparison of a null with a number is null, and [&] is Kleene's: false
    and null is false, true and null is null. *)
Definition notna_Int64 (v : option Z) : bool :=
  match v with Some _ => true | None => false end.
Definition lt_Int64 (k : Z) (v : option Z) : option bool :=
  match v with Some z => Some (z <? k) | None => None end.
Definition and_kleene (a : bool) (b : option bool) : option bool :=
  if a then b else Some false.

(** [(df["year_mfg"].notna()) & (df["year_mfg"] < 1910)] *)
Definition age_mask (year_mfg : list (option Z)) : list (option bool) :=
  zip_with and_kleene (map notna_Int64 year_mfg) (map (lt_Int64 1910) year_mfg).

(** The new [year_mfg] column and the [age] column.  The rows where the mask
    is true are set to null; a null in the mask would select nothing, and
    none occurs, as is proved below. *)
Definition aircraft_age (today_year : Z) (year_mfg : list (option Z))
  : list (option Z) * list (option Z) :=
  let year_mfg :=
    zip_with (fun (m : option bool) v => if bool_decide (m = Some true) then None else v)
             (age_mask year_mfg) year_mfg in
  (year_mfg,
   map (fun v => match v with Some y => Some (today_year - y) | None => None end) year_mfg).

(** What [aircraft_age] makes of one year. *)
Definition plausible_year (v : option Z) : option Z :=
  match v with
  | Some y => if y <? 1910 then None else Some y
  | None => None
  end.

(** ** The tax identifier enrichment on one row

    What [tax_id_entity] does to one identifier, in the words of its
    docstring.  The functions are related to the passes over the table in
    [tax_id_entity_rows]. *)

Definition all_zero (s : string) : bool :=
  forallb (fun c => Ascii.eqb c "0") (chars s).

(** An identifier the enrichment can read: a missing value or a text of
    digits. *)
Definition readable_id (x : cell) : Prop :=
  isna x = true \/ exists s, x = Str s /\ all_digits (chars s).

(** A missing identifier and a text of zeros only (the empty text too) are
    set to [pandas.NA].  (A boolean is not a readable identifier: adding up
    its digits is a [TypeError].) *)
Definition id_cleared (x : cell) : cell :=
  match x with
  | Str s => if all_zero s then NA else x
  | _ => NA
  end.

Definition accepts (valid : cell -> res bool) (x : cell) : bool :=
  match valid x with Ok b => b | Raise _ => false end.

(** The identifier, its type and its printable form. *)
Definition tax_id_row (x : cell) : cell * cell * cell :=
  let id := id_cleared x in
  if isna id then (id, Str "EMPTY", NA)
  else if accepts valid_cnpj id then (id, Str "CNPJ", Str (format_cnpj (py_str id)))
  else if accepts valid_cpf id then (id, Str "CPF", Str (format_cpf (py_str id)))
  else (id, Str "INVALID", id).

Definition row_id (x : cell) : cell := fst (fst (tax_id_row x)).
Definition row_type (x : cell) : cell := snd (fst (tax_id_row x)).
Definition row_print (x : cell) : cell := snd (tax_id_row x).

(** The table with the three columns of an entity set from its rows. *)
Definition tax_id_table (df : DataFrame) (entity : string) (ids : list cell) : DataFrame :=
  let id_col := entity +:+ "_tax_id" in
  let type_col := id_col +:+ "_type" in
  let print_col := id_col +:+ "_print" in
  setitem (setitem (setitem df id_col (Obj (map row_id ids)))
                   type_col (Obj (map row_type ids)))
          print_col (Obj (map row_print ids)).

(** ** [owned_and_operated], on the two identifier columns

    [x["owner_tax_id"] == x["operator_tax_id"]] on the cells of one row of a
    table that has rows.  A comparison with [pandas.NA] is [pandas.NA] for
    text, numbers and booleans; [None] does not take part in it and compares
    by identity; [nan] equals nothing. *)
Definition cell_eq (x y : cell) : cell :=
  match x, y with
  | NA, PyNone | PyNone, NA => Bool false
  | NA, _ | _, NA => NA
  | PyNone, PyNone => Bool true
  | Str s, Str t => Bool (String.eqb s t)
  | Bool a, Bool b => Bool (Bool.eqb a b)
  | _, _ => Bool false
  end.

(** The cells of the column [owned_operated]:
    [df.apply(lambda x: ..., axis=1).fillna(False)]. *)
Definition owned_and_operated (owner operator : list cell) : list cell :=
  fillna (Bool false) (zip_with cell_eq owner operator).

(** ** [icao_engine] on one row *)

(** The mask [sel_turbine_ag] at a row. *)
Definition turbine (mfg model : cell) : bool :=
  (bool_decide (mfg = Str "AIR TRACTOR")
   && negb (str_contains re_air_tractor mfg && str_contains re_401 model))
  || bool_decide (mfg = Str "THRUSH AIRCRAFT").

(** The [icao_type_desc] of a row after the two assignments. *)
Definition icao_row (mfg model : cell) (ag : bool) (icao : cell) : cell :=
  if turbine mfg model then Str "L1T" else if ag then Str "L1P" else icao.

(** ** The deduplication of rab.py: [df.drop_duplicates(subset=[col])]

    [Series.duplicated(keep="first")] marks a value that has occurred before;
    values are compared as the cells they are, a missing value being equal to
    itself.  The rows that are not marked are kept, in order, in every
    column. *)
Fixpoint duplicated_from (seen l : list cell) : list bool :=
  match l with
  | [] => []
  | x :: l' => bool_decide (x ∈ seen) :: duplicated_from (x :: seen) l'
  end.
Definition duplicated (l : list cell) : list bool := duplicated_from [] l.

(** [l[mask]] *)
Fixpoint keep_rows {A} (mask : list bool) (l : list A) : list A :=
  match mask, l with
  | m :: mask', x :: l' => if m then x :: keep_rows mask' l' else keep_rows mask' l'
  | _, _ => []
  end.

Definition column_rows (mask : list bool) (c : column) : column :=
  match c with
  | Obj l => Obj (keep_rows mask l)
  | Boolean l => Boolean (keep_rows mask l)
  end.

(** A label that is not a column is a [KeyError]. *)
Definition drop_duplicates (df : DataFrame) (col : string) : res DataFrame :=
  key ← getitem df col;
  let mask := map negb (duplicated (cells key)) in
  Ok (mkDataFrame (length (filter (fun m => m = true) mask))
                  (map (fun kc => (fst kc, column_rows mask (snd kc))) (columns df))).

(** ** utilities.py *)

Definition info_columns : list string :=
  ["customer_name"; "tax_id"; "tax_id_type"; "tax_id_print"; "other"].

(** [{f"{customer_type}_{col}": col for col in info_columns}] *)
Definition customer_column_map (customer_type : string) : list (string * string) :=
  map (fun col => (customer_type +:+ "_" +:+ col, col)) info_columns.

(** Methods of [pandas.DataFrame]. *)
Module pd.

(** [df.rename(columns=m)] *)
Definition rename (m : list (string * string)) (df : DataFrame) : DataFrame :=
  mkDataFrame (nrows df)
              (map (fun kc => (rename_label m (fst kc), snd kc)) (columns df)).

(** [df.drop(labels, axis=1)]: a label that is not a column is a
    [KeyError]. *)
Definition drop (labels : list string) (df : DataFrame) : res DataFrame :=
  if forallb (fun k => bool_decide (k ∈ map fst (columns df))) labels
  then Ok (mkDataFrame (nrows df) (filter (fun kc => fst kc ∉ labels) (columns df)))
  else Raise KeyError.

End pd.

Definition create_customer_df (df : DataFrame) (customer_type : string) : res DataFrame :=
  match (if String.eqb customer_type "owner" then Some "operator"
         else if String.eqb customer_type "operator" then Some "owner"
         else None) with
  | None => Ok df                   (* after the message is printed *)
  | Some drop_type =>
    let df := pd.rename (customer_column_map customer_type) df in
    df ← pd.drop (keys (customer_column_map drop_type)) df;
    Ok (setitem df "customer_type" (Obj (replicate (nrows df) (Str customer_type))))
  end.

(** The labels the stages of [Rab.cleaning_pipeline] read, in the order of the
    pipeline. *)
Definition pipeline_columns : list string :=
  [ "tail_number"; "exp_date_ca"; "exp_date_iam"; "year_mfg"; "min_crew_size";
    "max_passengers"; "seats"; "max_takeoff_wgt"; "owner_tax_id"; "operator_tax_id";
    "mfg"; "model" ].

(** The labels the stages add. *)
Definition derived_columns : list string :=
  [ "age"; "owner_tax_id_type"; "owner_tax_id_print"; "operator_tax_id_type";
    "operator_tax_id_print"; "owned_operated"; "agaircraft" ].

(** * Properties *)

(** ** Text *)

Lemma chars_join l : chars (join l) = l.
Proof. apply list_ascii_of_string_of_list_ascii. Qed.

Lemma join_chars s : join (chars s) = s.
Proof. apply string_of_list_ascii_of_string. Qed.

Lemma length_join l : String.length (join l) = length l.
Proof. induction l; simpl; congruence. Qed.

Lemma astype_int_digits l :
  Forall (fun c => is_digit c = true) l -> astype_int l = Ok (map digit_value l).
Proof.
  induction 1 as [|c l Hc _ IH]; [reflexivity|].
  unfold astype_int in *. simpl. rewrite Hc. simpl. rewrite IH. reflexivity.
Qed.

Lemma strip_non_digits_Forall s :
  Forall (fun c => is_digit c = true) (chars (strip_non_digits s)).
Proof.
  unfold strip_non_digits. rewrite chars_join.
  apply Forall_forall. intros c Hc. apply list_elem_of_In in Hc.
  apply list_elem_of_filter in Hc. tauto.
Qed.

(** ** The error monad over lists *)

Lemma mapM_Ok {A B} (f : A -> res B) (l : list A) (out : list B) :
  mapM f l = Ok out <-> Forall2 (fun x y => f x = Ok y) l out.
Proof.
  revert out. induction l as [|x l IH]; intros out; simpl.
  - split; [intros [= <-]; constructor | inversion 1; reflexivity].
  - split.
    + destruct (f x) as [y|e] eqn:Hx; simpl; [|discriminate].
      destruct (mapM f l) as [k|e] eqn:Hl; simpl; [|discriminate].
      intros [= <-]. constructor; [exact Hx | apply IH; reflexivity].
    + inversion 1 as [|? y ? k Hx Hl]; subst. apply IH in Hl.
      rewrite Hx. simpl. rewrite Hl. reflexivity.
Qed.

Lemma mapM_length {A B} (f : A -> res B) (l : list A) (out : list B) :
  mapM f l = Ok out -> length out = length l.
Proof. intros H. apply mapM_Ok, Forall2_length in H. congruence. Qed.

(** If some element fails, the whole map fails, with one of the exceptions
    that an element raises. *)
Lemma mapM_Raise {A B} (f : A -> res B) (l : list A) (x : A) :
  x ∈ l -> is_ok (f x) = false ->
  exists y e, y ∈ l /\ f y = Raise e /\ mapM f l = Raise e.
Proof.
  induction l as [|a l IH]; intros Hin Hx; [inversion Hin|].
  simpl. destruct (f a) as [b|e] eqn:Ha; simpl.
  - assert (Hin' : x ∈ l).
    { apply elem_of_cons in Hin as [->|H]; [|exact H].
      rewrite Ha in Hx. discriminate Hx. }
    destruct (IH Hin' Hx) as (y & e & Hy & Hfy & Hm).
    exists y, e. rewrite Hm. repeat split; [apply elem_of_cons; right; exact Hy|exact Hfy].
  - exists a, e. repeat split; [apply elem_of_cons; left; reflexivity|exact Ha].
Qed.

(** ** The validators *)

Example valid_cnpj_sample : valid_cnpj (Str "11444777000161") = Ok true.
Proof. vm_compute. reflexivity. Qed.

Example valid_cnpj_sample_punctuated :
  valid_cnpj (Str "11.444.777/0001-61") = Ok true.
Proof. vm_compute. reflexivity. Qed.

Example valid_cnpj_sample_last_digit_incremented :
  valid_cnpj (Str "11444777000162") = Ok false.
Proof. vm_compute. reflexivity. Qed.

Example valid_cpf_sample : valid_cpf (Str "529.982.247-25") = Ok true.
Proof. vm_compute. reflexivity. Qed.

Example format_cnpj_sample : format_cnpj "11444777000161" = "11.444.777/0001-61".
Proof. vm_compute. reflexivity. Qed.

Lemma all_equal_2 a b x y :
  all_equal [a; b] [x; y] = true <-> x = a /\ y = b.
Proof.
  unfold all_equal. simpl. unfold id.
  destruct (Z.eqb_spec a x), (Z.eqb_spec b y); simpl; intuition congruence.
Qed.

(** Splits [Forall] over a list given by its elements, turns the slices of
    such a list into the lists they are, and discharges the digit tests. *)
Ltac digits_by_cases Hd :=
  repeat match goal with
         | H : Forall _ (_ :: _) |- _ => inversion_clear H
         end;
  rewrite bool_decide_eq_false_2 by discriminate;
  rewrite length_join; simpl orb; cbv iota.

Ltac compute_slices :=
  repeat match goal with
         | |- context [@slice ?A ?a ?b ?l] =>
           let t := eval vm_compute in (@slice A a b l) in
           change (@slice A a b l) with t
         end.

Ltac discharge_digit_tests :=
  rewrite astype_int_digits
    by (repeat (apply List.Forall_cons; [assumption|]); apply List.Forall_nil);
  repeat match goal with H : is_digit _ = true |- _ => rewrite ?H; clear H end.

Lemma valid_cnpj_14 s :
  String.length (strip_non_digits s) = 14%nat ->
  let ds := digits_of (strip_non_digits s) in
  valid_cnpj (Str s) =
    Ok (all_equal [check_of cnpj_weights (take 12 ds);
                   check_of (6 :: cnpj_weights) (take 13 ds)] (drop 12 ds)).
Proof.
  intros Hlen. unfold valid_cnpj, digits_of. simpl py_str.
  pose proof (strip_non_digits_Forall s) as Hd.
  remember (strip_non_digits s) as x eqn:Hx. clear Hx s.
  rewrite <- (join_chars x) in *. rewrite chars_join in *.
  rewrite length_join in Hlen.
  remember (chars x) as l. clear Heql x.
  do 14 (destruct l as [|? l]; [discriminate Hlen|]).
  destruct l; [|discriminate Hlen]. clear Hlen.
  digits_by_cases Hd.
  unfold check_digits_cnpj. rewrite !chars_join.
  simpl (mapM _ [1; 2]).
  change (-3 + 1) with (-2). change (-3 + 2) with (-1).
  change (2 - 1) with 1. change (2 - 2) with 0.
  compute_slices. discharge_digit_tests.
  reflexivity.
Qed.

Lemma valid_cpf_11 s :
  String.length (strip_non_digits s) = 11%nat ->
  let ds := digits_of (strip_non_digits s) in
  valid_cpf (Str s) =
    Ok (all_equal [check_of (descending 10 9) (take 9 ds);
                   check_of (descending 11 10) (take 10 ds)] (drop 9 ds)).
Proof.
  intros Hlen. unfold valid_cpf, digits_of. simpl py_str.
  pose proof (strip_non_digits_Forall s) as Hd.
  remember (strip_non_digits s) as x eqn:Hx. clear Hx s.
  rewrite <- (join_chars x) in *. rewrite chars_join in *.
  rewrite length_join in Hlen.
  remember (chars x) as l. clear Heql x.
  do 11 (destruct l as [|? l]; [discriminate Hlen|]).
  destruct l; [|discriminate Hlen]. clear Hlen.
  digits_by_cases Hd.
  unfold check_digits_cpf. rewrite !chars_join.
  simpl (mapM _ [1; 2]).
  change (8 + 1) with 9. change (8 + 2) with 10.
  change (flip (arange 2 (10 + 1))) with (descending 10 9).
  change (flip (arange 2 (10 + 2))) with (descending 11 10).
  compute_slices. discharge_digit_tests.
  reflexivity.
Qed.

Lemma valid_cnpj_other_length (s : string) :
  String.length (strip_non_digits s) <> 14%nat -> valid_cnpj (Str s) = Ok false.
Proof.
  intros Hlen. unfold valid_cnpj. simpl py_str.
  apply Nat.eqb_neq in Hlen. rewrite Hlen, orb_true_r. reflexivity.
Qed.

Lemma valid_cpf_other_length (s : string) :
  String.length (strip_non_digits s) <> 11%nat -> valid_cpf (Str s) = Ok false.
Proof.
  intros Hlen. unfold valid_cpf. simpl py_str.
  apply Nat.eqb_neq in Hlen. rewrite Hlen, orb_true_r. reflexivity.
Qed.

(** When the first check digit matches, the 13th digit is the computed one:
    the two readings of the rule agree. *)
Lemma cnpj_checks_match_chain (ds : list Z) :
  length ds = 14%nat -> cnpj_checks_match ds <-> cnpj_checks_chain ds.
Proof.
  intros Hl.
  do 14 (destruct ds as [|? ds]; [discriminate Hl|]).
  destruct ds; [|discriminate Hl].
  unfold cnpj_checks_match, cnpj_checks_chain. cbv zeta.
  change (take 12 ?l) with [z; z0; z1; z2; z3; z4; z5; z6; z7; z8; z9; z10].
  change (take 13 ?l) with ([z; z0; z1; z2; z3; z4; z5; z6; z7; z8; z9; z10] ++ [z11]).
  simpl lookup. split; intros [H1 H2]; split; try assumption.
  - injection H1 as H1. rewrite <- H1. assumption.
  - injection H1 as H1. rewrite <- H1 in H2. assumption.
Qed.

(** C1.  [valid_cnpj] answers False for a missing value and for every text
    whose digits are not exactly 14; for a text with 14 digits it returns a
    boolean, which is True exactly when the two trailing digits equal the check
    digits computed with the weights 5,4,3,2,9,8,7,6,5,4,3,2, and the same
    weights with a 6 in front, from the preceding 12 and 13 digits --
    equivalently, from the 12 digits followed by the first computed check
    digit. *)
Theorem valid_cnpj_spec :
  (forall x, isna x = true -> valid_cnpj x = Ok false) /\
  (forall s, String.length (strip_non_digits s) <> 14%nat ->
             valid_cnpj (Str s) = Ok false) /\
  (forall s, String.length (strip_non_digits s) = 14%nat ->
             exists b, valid_cnpj (Str s) = Ok b /\
                       (b = true <-> cnpj_checks_match (digits_of (strip_non_digits s))) /\
                       (b = true <-> cnpj_checks_chain (digits_of (strip_non_digits s)))).
Proof.
  split; [|split].
  - intros [] H; try discriminate H; reflexivity.
  - exact valid_cnpj_other_length.
  - intros s Hlen.
    assert (Hl : length (digits_of (strip_non_digits s)) = 14%nat).
    { unfold digits_of. rewrite length_map, <- Hlen, <- length_join, join_chars.
      reflexivity. }
    assert (Hb : all_equal
                   [check_of cnpj_weights (take 12 (digits_of (strip_non_digits s)));
                    check_of (6 :: cnpj_weights) (take 13 (digits_of (strip_non_digits s)))]
                   (drop 12 (digits_of (strip_non_digits s))) = true
                 <-> cnpj_checks_match (digits_of (strip_non_digits s))).
    { unfold cnpj_checks_match.
      remember (digits_of (strip_non_digits s)) as ds. clear Heqds.
      do 14 (destruct ds as [|? ds]; [discriminate Hl|]).
      destruct ds; [|discriminate Hl].
      change (drop 12 ?l) with [z11; z12]. rewrite all_equal_2.
      simpl lookup. split; intros [H1 H2]; split; congruence. }
    eexists. split; [apply valid_cnpj_14, Hlen|]. cbv zeta.
    split; [exact Hb|]. rewrite Hb. apply cnpj_checks_match_chain, Hl.
Qed.

Lemma valid_cnpj_spec_witness :
  valid_cnpj NaN = Ok false /\
  valid_cnpj (Str "11.444.777/0001") = Ok false /\
  exists b, valid_cnpj (Str "11.444.777/0001-61") = Ok b /\
            (b = true <->
             cnpj_checks_match (digits_of (strip_non_digits "11.444.777/0001-61"))) /\
            (b = true <->
             cnpj_checks_chain (digits_of (strip_non_digits "11.444.777/0001-61"))).
Proof.
  destruct valid_cnpj_spec as (Hna & Hlen & Hchk).
  split; [apply Hna; reflexivity|].
  split; [apply Hlen; vm_compute; discriminate|].
  apply Hchk. vm_compute. reflexivity.
Defined.

(** C2 (as amended).  [valid_cpf] answers False for a missing value, for the
    empty text and for every text whose digits are not exactly 11; for a text
    with 11 digits it returns a boolean, which is True exactly when the two
    trailing digits equal the check digits computed with the weights
    10,9,...,2 over the first 9 digits and 11,10,...,2 over the first 10. *)
Theorem valid_cpf_spec :
  (forall x, isna x = true -> valid_cpf x = Ok false) /\
  valid_cpf (Str "") = Ok false /\
  (forall s, String.length (strip_non_digits s) <> 11%nat ->
             valid_cpf (Str s) = Ok false) /\
  (forall s, String.length (strip_non_digits s) = 11%nat ->
             exists b, valid_cpf (Str s) = Ok b /\
                       (b = true <->
                        cpf_checks_match (descending 10 9) (descending 11 10)
                                         (digits_of (strip_non_digits s)))) /\
  descending 10 9 = [10; 9; 8; 7; 6; 5; 4; 3; 2] /\
  descending 11 10 = [11; 10; 9; 8; 7; 6; 5; 4; 3; 2].
Proof.
  split; [|split; [|split; [|split; [|split]]]]; try reflexivity.
  - intros [] H; try discriminate H; reflexivity.
  - exact valid_cpf_other_length.
  - intros s Hlen. eexists. split; [apply valid_cpf_11, Hlen|].
    cbv zeta. unfold cpf_checks_match.
    assert (Hl : length (digits_of (strip_non_digits s)) = 11%nat).
    { unfold digits_of. rewrite length_map, <- Hlen, <- length_join, join_chars.
      reflexivity. }
    remember (digits_of (strip_non_digits s)) as ds. clear Heqds.
    do 11 (destruct ds as [|? ds]; [discriminate Hl|]).
    destruct ds; [|discriminate Hl].
    change (drop 9 ?l) with [z8; z9]. rewrite all_equal_2.
    simpl lookup. split; intros [H1 H2]; split; congruence.
Qed.

Lemma valid_cpf_spec_witness :
  valid_cpf NaN = Ok false /\
  valid_cpf (Str "529.982.247") = Ok false /\
  exists b, valid_cpf (Str "529.982.247-25") = Ok b /\
            (b = true <->
             cpf_checks_match (descending 10 9) (descending 11 10)
                              (digits_of (strip_non_digits "529.982.247-25"))).
Proof.
  destruct valid_cpf_spec as (Hna & _ & Hlen & Hchk & _).
  split; [apply Hna; reflexivity|].
  split; [apply Hlen; vm_compute; discriminate|].
  apply Hchk. vm_compute. reflexivity.
Defined.

(** C2 (as stated) fails.  The weights of [check_digits_cpf] start from 10 and
    11, not from 11 and 12: a descending run that ends at 2 and has 9 (then 10)
    weights cannot start higher.  With weights starting from 11 and 12 -- cut
    after 9 and 10 weights, or running down to 2 -- the identifier
    529.982.247-25, which [valid_cpf] accepts, would not validate. *)
Lemma valid_cpf_weights_from_11_and_12_fail :
  flip (arange 2 (10 + 1)) = [10; 9; 8; 7; 6; 5; 4; 3; 2] /\
  flip (arange 2 (10 + 2)) = [11; 10; 9; 8; 7; 6; 5; 4; 3; 2] /\
  valid_cpf (Str "52998224725") = Ok true /\
  ~ cpf_checks_match (descending 11 9) (descending 12 10)
                     (digits_of (strip_non_digits "52998224725")) /\
  ~ cpf_checks_match (descending 11 10) (descending 12 11)
                     (digits_of (strip_non_digits "52998224725")).
Proof.
  repeat split; try (vm_compute; reflexivity);
    intros [H _]; vm_compute in H; discriminate H.
Qed.

(** ** Schema *)

Lemma elements_Counter (l : list string) : elements (Counter l) ≡ₚ l.
Proof.
  unfold Counter. induction l as [|x l IH].
  - rewrite list_to_set_disj_nil, gmultiset_elements_empty. reflexivity.
  - rewrite list_to_set_disj_cons, gmultiset_elements_disj_union,
      gmultiset_elements_singleton, IH. reflexivity.
Qed.

Lemma Counter_eq_iff (l1 l2 : list string) : Counter l1 = Counter l2 <-> l1 ≡ₚ l2.
Proof.
  split.
  - intros H. rewrite <- (elements_Counter l1), <- (elements_Counter l2), H.
    reflexivity.
  - intros H. unfold Counter. rewrite H. reflexivity.
Qed.

Lemma dict_get_absent d k : k ∉ keys d -> dict_get d k = None.
Proof.
  induction d as [|[k' v] d IH]; [reflexivity|]. simpl. intros H.
  apply not_elem_of_cons in H as [Hne Hk].
  destruct (String.eqb_spec k' k); [congruence|]. apply IH, Hk.
Qed.

(** The expected labels pass in any order, and a repeated label does not. *)
Example check_raw_data_order_and_duplicates :
  check_raw_data (rev (keys COLUMN_MAP_CSV)) = true /\
  check_raw_data ("MARCA" :: keys COLUMN_MAP_CSV) = false /\
  check_raw_data (tail (keys COLUMN_MAP_CSV)) = false.
Proof. repeat split; vm_compute; reflexivity. Qed.

(** C5 (as amended).  [check_raw_data] is True exactly when the labels of the
    table are, as a multiset, the keys of [COLUMN_MAP_CSV]: in any order, each
    exactly once.  [rename_columns] maps those labels to the canonical names,
    which are also the names [COLUMN_MAP_JSON] lists, and keeps a label that
    is not a key of [COLUMN_MAP_CSV]. *)
Theorem check_raw_data_spec :
  (forall cols, check_raw_data cols = true <-> cols ≡ₚ keys COLUMN_MAP_CSV) /\
  rename_columns (keys COLUMN_MAP_CSV) = values COLUMN_MAP_CSV /\
  values COLUMN_MAP_CSV = values COLUMN_MAP_JSON /\
  (forall c, c ∉ keys COLUMN_MAP_CSV -> rename_columns [c] = [c]).
Proof.
  split; [|split; [|split]].
  - intros cols. unfold check_raw_data. rewrite bool_decide_eq_true, Counter_eq_iff.
    split; intros H; symmetry; exact H.
  - vm_compute. reflexivity.
  - reflexivity.
  - intros c Hc. unfold rename_columns, rename_label, map.
    rewrite (dict_get_absent _ _ Hc). reflexivity.
Qed.

Lemma check_raw_data_spec_witness : rename_columns ["SGUF"] = ["SGUF"].
Proof.
  apply (proj2 (proj2 (proj2 check_raw_data_spec)) "SGUF").
  vm_compute. intros H. repeat (apply elem_of_cons in H as [H|H]; [discriminate H|]).
  apply elem_of_nil in H. exact H.
Defined.

(** C5 (as stated) fails: neither function consults [COLUMN_MAP_JSON].  A
    table with the JSON labels is rejected, and renaming it changes only the
    two labels that the vocabularies share. *)
Lemma check_raw_data_rejects_json_labels :
  check_raw_data (keys COLUMN_MAP_JSON) = false /\
  rename_columns (keys COLUMN_MAP_JSON) <> values COLUMN_MAP_JSON /\
  rename_columns (keys COLUMN_MAP_JSON)
  = "tail_number" :: "owner_customer_name" :: drop 2 (keys COLUMN_MAP_JSON).
Proof.
  split; [vm_compute; reflexivity|]. split; [vm_compute; discriminate|].
  vm_compute. reflexivity.
Qed.

(** ** Dates *)

Example format_dates_samples :
  apply_func (Str "010203") = Ok (Str "2003-02-01") /\
  apply_func (Str "010299") = Ok (Str "1999-02-01") /\
  apply_func (Str "01022003") = Ok (Str "2003-02-01") /\
  apply_func (Str "ABC") = Ok (Str "ABC") /\
  apply_func (Str "994513") = Ok (Str "2013-45-99") /\
  apply_func NaN = Ok NaN.
Proof. repeat split; vm_compute; reflexivity. Qed.

Lemma py_int_raises (s : string) (e : exn) : py_int s = Raise e -> e = ValueError.
Proof.
  unfold py_int. destruct (strip_by is_int_space (chars s)) as [|c b].
  - destruct (int_body true 0 []); [discriminate|]. intros [= <-]. reflexivity.
  - destruct (Ascii.eqb c "+"); [|destruct (Ascii.eqb c "-")];
      destruct (int_body true 0 _); try discriminate; intros [= <-]; reflexivity.
Qed.

(** What [apply_func] does with a text cell, case by case. *)
Lemma apply_func_cases (s : string) :
  let d := slice (Some 0) (Some 2) (chars s) in
  let m := slice (Some 2) (Some 4) (chars s) in
  let y := slice (Some 4) None (chars s) in
  let out := fun y' => Ok (Str (join (y' ++ chars "-" ++ m ++ chars "-" ++ d))) in
  (is_ok (py_int s) = false -> apply_func (Str s) = Ok (Str s)) /\
  (is_ok (py_int s) = true -> length y <> 2%nat -> apply_func (Str s) = out y) /\
  (is_ok (py_int s) = true -> length y = 2%nat ->
   forall v, py_int (join y) = Ok v ->
             apply_func (Str s) = out ((if v <? 20 then chars "20" else chars "19") ++ y)) /\
  (is_ok (py_int s) = true -> length y = 2%nat ->
   forall e, py_int (join y) = Raise e -> apply_func (Str s) = Raise e).
Proof.
  cbv zeta. unfold apply_func.
  destruct (py_int s) as [v0|e0] eqn:Hs; simpl is_ok.
  - split; [discriminate|]. split; [|split].
    + intros _ Hy. apply Nat.eqb_neq in Hy. rewrite Hy. reflexivity.
    + intros _ Hy v Hv. apply Nat.eqb_eq in Hy. rewrite Hy, Hv. simpl.
      destruct (v <? 20); reflexivity.
    + intros _ Hy e He. apply Nat.eqb_eq in Hy. rewrite Hy, He. reflexivity.
  - rewrite (py_int_raises s e0 Hs). split; [reflexivity|]. repeat split; discriminate.
Qed.

(** C8: the year is parsed a second time outside the [try].  "1234  " passes
    [int(x)], which ignores the trailing blanks; its year part is the two
    blanks, and [int] of them is a [ValueError] that nothing catches. *)
Theorem format_dates_blank_year_raises :
  py_int "1234  " = Ok 1234 /\
  slice (Some 4) None (chars "1234  ") = chars "  " /\
  apply_func (Str "1234  ") = Raise ValueError /\
  apply_func (Str "1234_5") = Raise ValueError /\
  format_dates (mkDataFrame 1 [("exp_date_ca", Obj [Str "1234  "])]) ["exp_date_ca"]
  = Raise ValueError.
Proof. repeat split; vm_compute; reflexivity. Qed.

(** ** Weights *)

Lemma lstrip_no_space l :
  Forall (fun c => is_space c = false) l -> lstrip_by is_space l = l.
Proof. destruct 1 as [|c l Hc _]; simpl; [|rewrite Hc]; reflexivity. Qed.

Lemma strip_no_space l : Forall (fun c => is_space c = false) l -> strip l = l.
Proof.
  intros H. unfold strip, strip_by. rewrite (lstrip_no_space l H).
  rewrite lstrip_no_space by (apply Forall_rev; exact H).
  apply rev_involutive.
Qed.

Lemma digit_or_dot_not_space c :
  is_digit c = true \/ is_dot c = true -> is_space c = false.
Proof.
  intros [H|H].
  - unfold is_digit, is_space in *. lia.
  - apply Ascii.eqb_eq in H. subst c. reflexivity.
Qed.

Lemma wgt_kept_alphabet s :
  Forall (fun c => is_digit c = true \/ is_dot c = true)
         (map comma_to_dot (filter (fun c => keep_wgt_char c = true) (chars s))).
Proof.
  apply List.Forall_map. apply List.Forall_forall. intros c Hc.
  apply list_elem_of_In in Hc. apply list_elem_of_filter in Hc as [Hc _].
  unfold keep_wgt_char, comma_to_dot, is_dot in *. simpl.
  destruct (Ascii.eqb_spec c ","); [right; reflexivity|].
  destruct (is_digit c); [left; reflexivity|]. simpl in Hc. right. exact Hc.
Qed.

Lemma wgt_clean_chars s :
  chars (wgt_clean s)
  = map comma_to_dot (filter (fun c => keep_wgt_char c = true) (chars s)).
Proof.
  unfold wgt_clean. rewrite chars_join. apply strip_no_space.
  eapply List.Forall_impl; [|apply wgt_kept_alphabet].
  intros c Hc. apply digit_or_dot_not_space, Hc.
Qed.

Lemma decimal_digits_ok l : forall seen mant frac any,
  Forall (fun c => is_digit c = true \/ is_dot c = true) l ->
  is_Some (decimal_digits seen mant frac any l) <->
  ((if any then 0 else 1) <= count is_digit l
   /\ count is_dot l <= (if seen then 0 else 1))%nat.
Proof.
  induction l as [|c l IH]; intros seen mant frac any Hl.
  - simpl. unfold count. simpl. destruct any; split.
    + intros _. split; lia.
    + intros _. eexists; reflexivity.
    + intros [x Hx]. discriminate Hx.
    + intros [H _]. lia.
  - inversion_clear Hl as [|? ? Hc Hl'].
    assert (Hexcl : is_digit c = true -> is_dot c = false).
    { intros Hd. destruct (is_dot c) eqn:E; [|reflexivity].
      apply Ascii.eqb_eq in E. subst c. discriminate Hd. }
    unfold count in *. simpl decimal_digits. rewrite !filter_cons.
    fold (is_dot c).
    destruct (is_digit c) eqn:Hd.
    + rewrite (Hexcl eq_refl). rewrite IH by exact Hl'.
      rewrite decide_True by reflexivity. rewrite decide_False by discriminate.
      simpl length. destruct any; split; intros [H1 H2]; split; lia.
    + destruct Hc as [Hc|Hc]; [discriminate Hc|]. rewrite Hc.
      rewrite decide_False by discriminate. rewrite decide_True by reflexivity.
      simpl length. destruct seen; simpl.
      * split; [intros [x Hx]; discriminate Hx | intros [_ H]; lia].
      * rewrite IH by exact Hl'. split; intros [H1 H2]; split; lia.
Qed.
Lemma decimal_digits_value l : forall seen mant frac any m f,
  decimal_digits seen mant frac any l = Some (m, f) ->
  m = digits_value mant l /\
  f = (frac + count is_digit (if seen then l else after_dot l))%nat.
Proof.
  induction l as [|c l IH]; intros seen mant frac any m f H; simpl in H.
  - destruct any; [|discriminate H]. injection H as <- <-.
    unfold digits_value, count. destruct seen; simpl; split; (reflexivity || lia).
  - unfold digits_value, count in *. rewrite filter_cons.
    destruct (is_digit c) eqn:Hd.
    + assert (Hnd : is_dot c = false).
      { destruct (is_dot c) eqn:E; [|reflexivity].
        apply Ascii.eqb_eq in E. subst c. discriminate Hd. }
      apply IH in H as [-> ->].
      rewrite decide_True by reflexivity. simpl fold_left. split; [reflexivity|].
      destruct seen; simpl after_dot; rewrite ?Hnd, ?filter_cons, ?Hd.
      * rewrite decide_True by reflexivity. simpl. lia.
      * reflexivity.
    + rewrite decide_False by discriminate.
      fold (is_dot c) in H. destruct (is_dot c) eqn:E; simpl in H;
        [|discriminate H].
      destruct seen; simpl in H; [discriminate H|].
      apply IH in H as [-> ->]. simpl after_dot. rewrite E. split; reflexivity.
Qed.

Example wgt_samples :
  wgt_cell (Str "1234,5 kg") = Ok (12345 # 10) /\
  wgt_cell (Str "1234.5") = Ok (12345 # 10) /\
  wgt_cell (Str " 5700 KG") = Ok (5700 # 1) /\
  wgt_cell NaN = Ok (-1 # 1) /\
  (12345 # 10 == 1234.5)%Q.
Proof. repeat split; vm_compute; reflexivity. Qed.

(** C3 (as amended).  A missing cell becomes the sentinel -1.  A text cell
    keeps its digits, commas and dots, the commas are turned into dots, and
    trimming removes nothing more; the result is a float exactly when what is
    kept has at least one digit and at most one dot, and a [ValueError]
    otherwise; the float is the kept digits with as many decimals as there are
    digits after the dot. *)
Theorem wgt_convert_spec (x : cell) :
  (isna x = true -> wgt_cell x = Ok (-1 # 1)) /\
  (forall s, x = Str s ->
     let kept := map comma_to_dot
                     (filter (fun c => keep_wgt_char c = true) (chars s)) in
     chars (wgt_clean s) = kept /\
     (is_ok (wgt_cell x) = true <->
      (1 <= count is_digit kept /\ count is_dot kept <= 1)%nat) /\
     (is_ok (wgt_cell x) = false -> wgt_cell x = Raise ValueError) /\
     (forall q, wgt_cell x = Ok q ->
        q = digits_value 0 kept # Pos.of_nat (10 ^ count is_digit (after_dot kept)))).
Proof.
  split.
  - destruct x; try discriminate; reflexivity.
  - intros s ->. cbv zeta. split; [apply wgt_clean_chars|].
    unfold wgt_cell, float_of_decimal. rewrite wgt_clean_chars.
    pose proof (decimal_digits_ok _ false 0 0%nat false (wgt_kept_alphabet s)) as Hok.
    pose proof (decimal_digits_value
                  (map comma_to_dot (filter (fun c => keep_wgt_char c = true) (chars s)))
                  false 0 0%nat false) as Hval.
    destruct (decimal_digits false 0 0 false _) as [[m f]|].
    + split; [|split].
      * split; [intros _; apply Hok; eexists; reflexivity | reflexivity].
      * discriminate.
      * intros q [= <-]. destruct (Hval m f eq_refl) as [-> ->]. reflexivity.
    + split; [|split].
      * split; [discriminate|]. intros H. apply Hok in H as [? H]. discriminate H.
      * reflexivity.
      * discriminate.
Qed.

Lemma wgt_convert_spec_witness :
  wgt_cell NaN = Ok (-1 # 1) /\
  wgt_cell (Str "1.2.3") = Raise ValueError /\
  forall q, wgt_cell (Str "1234,5 kg") = Ok q -> q = 12345 # 10.
Proof.
  split; [apply (proj1 (wgt_convert_spec NaN)); reflexivity|]. split.
  - apply (proj2 (wgt_convert_spec (Str "1.2.3")) "1.2.3" eq_refl). reflexivity.
  - intros q Hq.
    exact (proj2 (proj2 (proj2 (proj2 (wgt_convert_spec (Str "1234,5 kg"))
                                      "1234,5 kg" eq_refl))) q Hq).
Defined.

(** C3 (as stated) fails: "1,234.5 kg" is cleaned to "1.234.5", which is no
    float, and the empty text is not a missing value; both raise. *)
Lemma wgt_convert_thousands_and_empty_raise :
  wgt_clean "1,234.5 kg" = "1.234.5" /\
  wgt_cell (Str "1,234.5 kg") = Raise ValueError /\
  wgt_cell (Str "") = Raise ValueError /\
  wgt_convert [Str "1,234.5 kg"] = Raise ValueError /\
  wgt_convert [Str ""] = Raise ValueError.
Proof. repeat split; vm_compute; reflexivity. Qed.

(** ** Integers *)

Lemma astype_Int64_whole (q : Q) (z : Z) :
  astype_Int64_cell (Some q) = Ok (Some z) -> (inject_Z z == q)%Q.
Proof.
  unfold astype_Int64_cell. destruct (Z.eqb_spec (Z.pos (Qden (Qred q))) 1) as [H|H];
    [|discriminate].
  intros [= <-]. rewrite <- (Qred_correct q) at 2.
  destruct (Qred q) as [n d]. simpl in *. injection H as ->. reflexivity.
Qed.

Lemma astype_Int64_fraction (q : Q) :
  ~ whole q -> astype_Int64_cell (Some q) = Raise TypeError.
Proof.
  intros Hq. unfold astype_Int64_cell.
  destruct (Z.eqb_spec (Z.pos (Qden (Qred q))) 1) as [H|H]; [|reflexivity].
  exfalso. apply Hq. exists (Qnum (Qred q)).
  rewrite <- (Qred_correct q) at 2.
  destruct (Qred q) as [n d]. simpl in *. injection H as ->. reflexivity.
Qed.

Example str_to_int_samples :
  str_to_int decimal_literal [Str "1987"; Str ""; NaN; Str "-3.0"]
  = Ok [Some 1987; None; None; Some (-3)] /\
  str_to_int decimal_literal [Str "2"; Str "1.5"] = Raise TypeError /\
  str_to_int decimal_literal [Str "1.5"; Str "two"] = Raise ValueError.
Proof. repeat split; vm_compute; reflexivity. Qed.

Lemma to_numeric_cell_raises reader x e :
  to_numeric_cell reader x = Raise e ->
  e = ValueError /\ exists s, x = Str s /\ s <> "" /\ reader s = None.
Proof.
  destruct x as [| | |s|b]; simpl; try discriminate.
  case_bool_decide as Hs; [discriminate|].
  destruct (reader s) eqn:Hr; [discriminate|].
  intros [= <-]. split; [reflexivity|]. exists s. repeat split; assumption.
Qed.

(** C4 (as amended).  [numeric_literal] stands for the texts pandas reads as
    a number.  When [str_to_int] returns, every missing or empty cell has
    become null and every other text cell was a number whose value is whole,
    returned exactly.  A text cell that is not empty and not a number makes the
    stage fail with a [ValueError]; a number that is not whole makes it fail. *)
Theorem str_to_int_spec (numeric_literal : string -> option Q) (col : list cell) :
  (forall out, str_to_int numeric_literal col = Ok out ->
     Forall2 (fun x o =>
                match x with
                | Str s =>
                  if bool_decide (s = "") then o = None
                  else exists q z, numeric_literal s = Some q /\ o = Some z
                                   /\ (inject_Z z == q)%Q
                | Bool b => o = Some (if b then 1 else 0)
                | _ => o = None
                end) col out) /\
  (forall s, Str s ∈ col -> s <> "" -> numeric_literal s = None ->
     str_to_int numeric_literal col = Raise ValueError) /\
  (forall s q, Str s ∈ col -> s <> "" -> numeric_literal s = Some q -> ~ whole q ->
     exists e, str_to_int numeric_literal col = Raise e).
Proof.
  unfold str_to_int. split; [|split].
  - intros out H.
    destruct (mapM (to_numeric_cell numeric_literal) col) as [nums|e] eqn:Hn;
      [|discriminate H].
    simpl in H. apply mapM_Ok in Hn. apply mapM_Ok in H.
    revert out H. induction Hn as [|x v col nums Hx _ IH]; intros out H.
    + inversion H. constructor.
    + inversion H as [|? o ? out' Ho Hout]; subst. constructor; [|apply IH, Hout].
      destruct x as [| | |s|b]; simpl in Hx.
      * injection Hx as <-. injection Ho as <-. reflexivity.
      * injection Hx as <-. injection Ho as <-. reflexivity.
      * injection Hx as <-. injection Ho as <-. reflexivity.
      * case_bool_decide as Hs.
        -- injection Hx as <-. injection Ho as <-. reflexivity.
        -- destruct (numeric_literal s) as [q|] eqn:Hq; [|discriminate Hx].
           injection Hx as <-.
           destruct o as [z|].
           ++ exists q, z. split; [reflexivity|]. split; [reflexivity|].
              apply astype_Int64_whole, Ho.
           ++ unfold astype_Int64_cell in Ho.
              destruct (Z.pos (Qden (Qred q)) =? 1); discriminate Ho.
      * injection Hx as <-. destruct b; vm_compute in Ho; injection Ho as <-;
          reflexivity.
  - intros s Hin Hs Hr.
    destruct (mapM_Raise (to_numeric_cell numeric_literal) col (Str s) Hin)
      as (y & e & _ & Hy & ->).
    { simpl. rewrite bool_decide_eq_false_2 by exact Hs. rewrite Hr. reflexivity. }
    apply to_numeric_cell_raises in Hy as [-> _]. reflexivity.
  - intros s q Hin Hs Hr Hq.
    destruct (mapM (to_numeric_cell numeric_literal) col) as [nums|e] eqn:Hn;
      [|exists e; reflexivity].
    simpl. apply mapM_Ok in Hn.
    assert (Hq' : Some q ∈ nums).
    { apply list_elem_of_lookup in Hin as [i Hi].
      destruct (Forall2_lookup_l _ _ _ _ _ Hn Hi) as (v & Hv & Hx).
      simpl in Hx. rewrite bool_decide_eq_false_2 in Hx by exact Hs.
      rewrite Hr in Hx. injection Hx as <-.
      apply list_elem_of_lookup. exists i. exact Hv. }
    destruct (mapM_Raise astype_Int64_cell nums (Some q) Hq')
      as (y & e & _ & _ & ->).
    { rewrite astype_Int64_fraction by exact Hq. reflexivity. }
    exists e. reflexivity.
Qed.

Lemma whole_one_half_not : ~ whole (15 # 10).
Proof.
  intros [z Hz]. unfold Qeq in Hz. simpl in Hz. lia.
Qed.

Lemma str_to_int_spec_witness :
  Forall2 (fun x o => match x with
                      | Str s =>
                        if bool_decide (s = "") then o = None
                        else exists q z, decimal_literal s = Some q /\ o = Some z
                                         /\ (inject_Z z == q)%Q
                      | Bool b => o = Some (if b then 1 else 0)
                      | _ => o = None
                      end)
          [Str "1987"; Str ""; NaN] [Some 1987; None; None] /\
  str_to_int decimal_literal [Str "7"; Str "x"] = Raise ValueError /\
  exists e, str_to_int decimal_literal [Str "1.5"] = Raise e.
Proof.
  split; [|split].
  - apply (proj1 (str_to_int_spec decimal_literal [Str "1987"; Str ""; NaN])).
    vm_compute. reflexivity.
  - apply (proj1 (proj2 (str_to_int_spec decimal_literal [Str "7"; Str "x"])) "x").
    + apply elem_of_cons. right. apply elem_of_cons. left. reflexivity.
    + discriminate.
    + reflexivity.
  - apply (proj2 (proj2 (str_to_int_spec decimal_literal [Str "1.5"])) "1.5" (15 # 10)).
    + apply elem_of_cons. left. reflexivity.
    + discriminate.
    + reflexivity.
    + exact whole_one_half_not.
Defined.

(** C4 (as stated) fails: a text cell that is not a number does not become
    null, the conversion raises. *)
Lemma str_to_int_text_cell_raises :
  decimal_literal "abc" = None /\
  str_to_int decimal_literal [Str "12"; Str "abc"] = Raise ValueError.
Proof. split; vm_compute; reflexivity. Qed.

(** ** The matcher agrees with the reference semantics of the patterns *)

Lemma nullable_spec (r : regex) : nullable r = true <-> matches r [].
Proof.
  induction r as [| |c| |r1 IH1 r2 IH2|r1 IH1 r2 IH2|r IH|r IH]; simpl.
  - split; [discriminate|inversion 1].
  - split; [constructor|reflexivity].
  - split; [discriminate|inversion 1].
  - split; [discriminate|inversion 1].
  - rewrite andb_true_iff, IH1, IH2. split.
    + intros [H1 H2]. exact (m_cat _ _ [] [] H1 H2).
    + inversion 1 as [| | |? ? s1 s2 H1 H2 Hr Hs| | | | | |]; subst.
      apply app_eq_nil in Hs as [-> ->]. split; assumption.
  - rewrite orb_true_iff, IH1, IH2. split.
    + intros [H|H]; [apply m_alt_l|apply m_alt_r]; exact H.
    + inversion 1; subst; [left|right]; assumption.
  - split; [constructor|reflexivity].
  - split; [constructor|reflexivity].
Qed.

Lemma matches_star_cons (r : regex) (x : ascii) (s : list ascii) :
  matches (Star r) (x :: s) ->
  exists s1 s2, s = s1 ++ s2 /\ matches r (x :: s1) /\ matches (Star r) s2.
Proof.
  intros H. remember (Star r) as r' eqn:Hr. remember (x :: s) as s' eqn:Hs.
  revert s Hs. induction H as [| | | | | | |r0 s1 s2 H1 _ H2 IH2| |]; intros t Ht;
    try discriminate Hr; try discriminate Ht.
  injection Hr as ->. destruct s1 as [|y s1].
  - simpl in Ht. apply (IH2 eq_refl t Ht).
  - simpl in Ht. injection Ht as -> <-. exists s1, s2. repeat split; assumption.
Qed.

Lemma deriv_spec (r : regex) : forall x s, matches (deriv x r) s <-> matches r (x :: s).
Proof.
  induction r as [| |c| |r1 IH1 r2 IH2|r1 IH1 r2 IH2|r IH|r IH]; intros x s; simpl.
  - split; inversion 1.
  - split; inversion 1.
  - destruct (Ascii.eqb_spec (lower c) (lower x)) as [E|E]; split; inversion 1; subst.
    + constructor. exact E.
    + constructor.
    + contradiction.
  - destruct (is_sep x) eqn:E; split; inversion 1; subst.
    + constructor. exact E.
    + constructor.
    + congruence.
  - assert (Hcat : matches (Cat (deriv x r1) r2) s ->  matches (Cat r1 r2) (x :: s)).
    { inversion 1 as [| | |? ? s1 s2 H1 H2 Hr Hs| | | | | |]; subst.
      apply IH1 in H1. exact (m_cat _ _ (x :: s1) s2 H1 H2). }
    destruct (nullable r1) eqn:Hn; split.
    + inversion 1; subst; [apply Hcat; assumption|].
      apply nullable_spec in Hn. apply (m_cat _ _ [] (x :: s) Hn). apply IH2. assumption.
    + inversion 1 as [| | |? ? s1 s2 H1 H2 Hr Hs| | | | | |]; subst.
      destruct s1 as [|y s1]; simpl in Hs.
      * subst s2. apply m_alt_r, IH2, H2.
      * injection Hs as -> <-. apply m_alt_l. apply m_cat; [apply IH1, H1|exact H2].
    + exact Hcat.
    + inversion 1 as [| | |? ? s1 s2 H1 H2 Hr Hs| | | | | |]; subst.
      destruct s1 as [|y s1]; simpl in Hs.
      * apply nullable_spec in H1. congruence.
      * injection Hs as -> <-. apply m_cat; [apply IH1, H1|exact H2].
  - split.
    + inversion 1; subst; [apply m_alt_l, IH1|apply m_alt_r, IH2]; assumption.
    + inversion 1; subst; [apply m_alt_l, IH1|apply m_alt_r, IH2]; assumption.
  - split.
    + inversion 1 as [| | |? ? s1 s2 H1 H2 Hr Hs| | | | | |]; subst.
      apply IH in H1. exact (m_star_cons _ (x :: s1) s2 H1 H2).
    + intros H. apply matches_star_cons in H as (s1 & s2 & -> & H1 & H2).
      apply m_cat; [apply IH, H1|exact H2].
  - split.
    + intros H. apply m_opt_some, IH, H.
    + inversion 1; subst. apply IH. assumption.
Qed.

Lemma match_prefix_spec (s : list ascii) :
  forall r, match_prefix s r = true <-> exists p q, s = p ++ q /\ matches r p.
Proof.
  induction s as [|x s IH]; intros r; simpl.
  - rewrite orb_false_r, nullable_spec. split.
    + intros H. exists [], []. split; [reflexivity|exact H].
    + intros (p & q & Hs & H). symmetry in Hs. apply app_eq_nil in Hs as [-> _]. exact H.
  - rewrite orb_true_iff, nullable_spec, IH. split.
    + intros [H|(p & q & -> & H)].
      * exists [], (x :: s). split; [reflexivity|exact H].
      * exists (x :: p), q. split; [reflexivity|]. apply deriv_spec, H.
    + intros (p & q & Hs & H). destruct p as [|y p]; [left; exact H|].
      simpl in Hs. injection Hs as <- ->. right. exists p, q.
      split; [reflexivity|]. apply deriv_spec, H.
Qed.

(** [search] is True exactly when some substring of the text matches. *)
Theorem search_spec (r : regex) (s : list ascii) :
  search r s = true <-> exists a p b, s = a ++ p ++ b /\ matches r p.
Proof.
  induction s as [|x s IH]; cbn [search].
  - rewrite orb_false_r, match_prefix_spec. split.
    + intros (p & q & Hs & H). exists [], p, q. split; [exact Hs|exact H].
    + intros (a & p & b & Hs & H). symmetry in Hs.
      apply app_eq_nil in Hs as [-> Hs]. apply app_eq_nil in Hs as [-> ->].
      exists [], []. split; [reflexivity|exact H].
  - rewrite orb_true_iff, match_prefix_spec, IH. split.
    + intros [(p & q & Hs & H)|(a & p & b & -> & H)].
      * exists [], p, q. split; [exact Hs|exact H].
      * exists (x :: a), p, b. split; [reflexivity|exact H].
    + intros (a & p & b & Hs & H). destruct a as [|y a].
      * left. exists p, b. split; [exact Hs|exact H].
      * simpl in Hs. injection Hs as <- ->. right. exists a, p, b.
        split; [reflexivity|exact H].
Qed.

Example search_samples :
  map (fun s => search re_at (chars s)) ["AT-502B"; "at 802a"; "AT502"; "AT--502"]
  = [true; true; false; false] /\
  map (fun s => search re_ag_cat (chars s)) ["SCHWEIZER AG-CAT"; "Ag  Cat"; "AGCAT"; "AG/CAT"]
  = [true; true; true; false] /\
  map (fun s => search re_g164 (chars s)) ["G-164A"; "g164"; "G 164 B"; "G-165"]
  = [true; true; true; false] /\
  map (fun s => search re_emb2 (chars s)) ["EMB-201A"; "EMB 202"; "EMB-110"; "EMB-720"]
  = [true; true; false; false].
Proof. repeat split; vm_compute; reflexivity. Qed.

(** ** Tables *)

Lemma lookup_assign_eq c v cs : lookup_col c (assign_col c v cs) = Some v.
Proof.
  induction cs as [|[k x] cs IH]; simpl.
  - rewrite String.eqb_refl. reflexivity.
  - destruct (String.eqb_spec k c) as [->|Hne]; simpl.
    + rewrite String.eqb_refl. reflexivity.
    + destruct (String.eqb_spec k c); [congruence|]. exact IH.
Qed.

Lemma lookup_assign_ne c c' v cs :
  c <> c' -> lookup_col c' (assign_col c v cs) = lookup_col c' cs.
Proof.
  intros Hne. induction cs as [|[k x] cs IH]; simpl.
  - destruct (String.eqb_spec c c'); [congruence|reflexivity].
  - destruct (String.eqb_spec k c) as [->|Hk]; simpl.
    + destruct (String.eqb_spec c c'); [congruence|reflexivity].
    + rewrite IH. reflexivity.
Qed.

Lemma assign_assign c v w cs :
  assign_col c v (assign_col c w cs) = assign_col c v cs.
Proof.
  induction cs as [|[k x] cs IH]; simpl.
  - rewrite String.eqb_refl. reflexivity.
  - destruct (String.eqb_spec k c) as [->|Hk]; simpl.
    + rewrite String.eqb_refl. reflexivity.
    + destruct (String.eqb_spec k c); [congruence|]. rewrite IH. reflexivity.
Qed.

Lemma assign_same c v cs : lookup_col c cs = Some v -> assign_col c v cs = cs.
Proof.
  induction cs as [|[k x] cs IH]; simpl; [discriminate|].
  destruct (String.eqb_spec k c) as [->|Hk].
  - intros [= ->]. reflexivity.
  - intros H. rewrite (IH H). reflexivity.
Qed.

Lemma lookup_col_In c v cs : lookup_col c cs = Some v -> In (c, v) cs.
Proof.
  induction cs as [|[k x] cs IH]; simpl; [discriminate|].
  destruct (String.eqb_spec k c) as [->|Hk].
  - intros [= ->]. left. reflexivity.
  - intros H. right. exact (IH H).
Qed.

Lemma well_formed_lookup df c v :
  well_formed df -> lookup_col c (columns df) = Some v -> col_length v = nrows df.
Proof.
  intros Hwf H. apply lookup_col_In in H.
  unfold well_formed in Hwf. rewrite List.Forall_forall in Hwf.
  exact (Hwf _ H).
Qed.

Lemma Forall_assign (P : string * column -> Prop) c v cs :
  P (c, v) -> Forall P cs -> Forall P (assign_col c v cs).
Proof.
  intros Hv Hcs. induction Hcs as [|[k x] cs Hx Hcs IH]; simpl.
  - constructor; [exact Hv|constructor].
  - destruct (String.eqb_spec k c) as [->|Hk]; constructor; assumption.
Qed.

Lemma well_formed_setitem df c v :
  well_formed df -> col_length v = nrows df -> well_formed (setitem df c v).
Proof.
  intros Hwf Hv. unfold well_formed, setitem in *. simpl.
  apply Forall_assign; [exact Hv|exact Hwf].
Qed.

Lemma getitem_Ok df c v : getitem df c = Ok v <-> lookup_col c (columns df) = Some v.
Proof.
  unfold getitem. destruct (lookup_col c (columns df)); split; congruence.
Qed.

(** ** The classifier, row by row *)

Section Rows.
Variable df : DataFrame.
Variable rows : list row.
Hypothesis Hmfg : lookup_col "mfg" (columns df) = Some (Obj (map fst rows)).
Hypothesis Hmodel : lookup_col "model" (columns df) = Some (Obj (map snd rows)).

Lemma search_df_rows (q : string * regex) :
  fst q = "mfg" \/ fst q = "model" ->
  search_df df (fst q) (snd q) = Ok (map (row_matches q) rows).
Proof.
  unfold search_df, getitem, row_matches.
  intros [-> | ->]; [rewrite Hmfg | rewrite Hmodel]; simpl;
    rewrite map_map; reflexivity.
Qed.

Lemma bool_df_rows (query_list : list (string * regex)) :
  query_list <> [] ->
  Forall (fun q => fst q = "mfg" \/ fst q = "model") query_list ->
  bool_df df query_list = Ok (map (fun q => map (row_matches q) rows) query_list).
Proof.
  intros Hne Hq. unfold bool_df.
  assert (H : mapM (fun q => search_df df (fst q) (snd q)) query_list
              = Ok (map (fun q => map (row_matches q) rows) query_list)).
  { apply mapM_Ok. clear Hne. induction Hq as [|q l Hq _ IH]; simpl; constructor.
    - apply search_df_rows, Hq.
    - exact IH. }
  rewrite H. simpl. destruct query_list; [congruence|reflexivity].
Qed.

Lemma foldl_zip_with_rows (op : bool -> bool -> bool) (fs : list (row -> bool)) :
  forall f0 : row -> bool,
  foldl (zip_with op) (map f0 rows) (map (fun f => map f rows) fs)
  = map (fun r => foldl op (f0 r) (map (fun f => f r) fs)) rows.
Proof.
  induction fs as [|f fs IH]; intros f0; simpl; [reflexivity|].
  rewrite <- (IH (fun r => op (f0 r) (f r))). f_equal.
  clear. induction rows as [|r l IH]; simpl; [reflexivity|]. rewrite IH. reflexivity.
Qed.

Lemma rule_selection_rows (mfg : rule) :
  rule_ok mfg -> rule_selection df mfg = Ok (map (row_selection mfg) rows).
Proof.
  intros [Hne Hq]. unfold rule_selection. rewrite (bool_df_rows _ Hne Hq). simpl.
  f_equal. unfold row_selection.
  destruct (query mfg) as [|q qs]; [congruence|]. simpl map.
  assert (H : forall op,
    foldl (zip_with op) (map (row_matches q) rows)
          (map (fun q => map (row_matches q) rows) qs)
    = map (fun r => foldl op (row_matches q r) (map (fun q => row_matches q r) qs)) rows).
  { intros op.
    rewrite <- (map_map (fun q r => row_matches q r) (fun f => map f rows)).
    rewrite foldl_zip_with_rows. apply map_ext. intros r.
    rewrite map_map. reflexivity. }
  destruct (type mfg); simpl; apply H.
Qed.

Lemma loc_set_mfg_rows (sel : row -> bool) (v : cell) :
  loc_set df (map sel rows) "mfg" v
  = setitem df "mfg" (Obj (map (fun r => if sel r then v else fst r) rows)).
Proof.
  unfold loc_set. rewrite Hmfg. do 2 f_equal.
  clear. induction rows as [|r l IH]; simpl; [reflexivity|]. rewrite IH. reflexivity.
Qed.
End Rows.

Lemma row_step_snd mfg r : snd (row_step mfg r) = snd r.
Proof. reflexivity. Qed.

Lemma row_run_snd rules : forall r, snd (row_run rules r) = snd r.
Proof.
  induction rules as [|mfg rules IH]; intros r; simpl; [reflexivity|].
  rewrite IH. reflexivity.
Qed.

(** The loop over the table does to every row what [row_run] does. *)
Lemma ag_loop_rows (rules : list rule) :
  forall (df : DataFrame) (rows : list row) (sels : list (list bool)),
  lookup_col "mfg" (columns df) = Some (Obj (map fst rows)) ->
  lookup_col "model" (columns df) = Some (Obj (map snd rows)) ->
  Forall rule_ok rules ->
  ag_loop rules df sels
  = Ok (setitem df "mfg" (Obj (map (fun r => fst (row_run rules r)) rows)),
        sels ++ selection_columns rules rows).
Proof.
  induction rules as [|mfg rules IH]; intros df rows sels Hmfg Hmodel Hok.
  - cbn [ag_loop selection_columns]. rewrite app_nil_r. unfold setitem.
    rewrite (assign_same "mfg" (Obj (map (fun r => fst (row_run [] r)) rows)) _ Hmfg).
    destruct df; reflexivity.
  - inversion_clear Hok as [|? ? Hr Hrs].
    simpl ag_loop. rewrite (rule_selection_rows df rows Hmfg Hmodel mfg Hr). simpl.
    set (df1 := if normalize mfg then _ else _).
    assert (Hdf1 : df1 = setitem df "mfg" (Obj (map fst (map (row_step mfg) rows)))).
    { subst df1. rewrite map_map. unfold row_step. simpl.
      destruct (normalize mfg); simpl.
      - apply (loc_set_mfg_rows df rows Hmfg).
      - unfold setitem.
        rewrite (assign_same "mfg" (Obj (map (fun x : row => fst x) rows)) _ Hmfg).
        destruct df; reflexivity. }
    rewrite (IH df1 (map (row_step mfg) rows)).
    + rewrite Hdf1. unfold setitem. simpl. rewrite assign_assign.
      rewrite map_map, <- app_assoc. reflexivity.
    + rewrite Hdf1. simpl. apply lookup_assign_eq.
    + rewrite Hdf1. simpl. rewrite lookup_assign_ne by discriminate.
      rewrite Hmodel, map_map. reflexivity.
    + exact Hrs.
Qed.

(** Case analysis on the predicates of a row: a predicate on a cell that is a
    variable is split, a predicate on a display name is computed. *)
Ltac row_norm :=
  cbv beta iota zeta delta
    [row_run row_flag aircraft fold_left row_selections row_step row_selection
     row_matches query type normalize name foldl map combine fst snd
     String.eqb Ascii.eqb Bool.eqb andb orb].

Ltac classify_step :=
  match goal with
  | H : str_contains ?p ?g = _ |- context [str_contains ?p ?g] => rewrite H
  | |- context [str_contains ?p (Str ?s)] =>
    let b := eval vm_compute in (str_contains p (Str s)) in
    change (str_contains p (Str s)) with b
  | |- context [str_contains ?p ?g] =>
    is_var g; destruct (str_contains p g) eqn:?
  end.

Ltac classify := row_norm; repeat (classify_step; row_norm).

(** On one row, a second run changes neither the manufacturer nor the flag. *)
Lemma row_idempotent (r : row) :
  row_run aircraft (row_run aircraft r) = row_run aircraft r /\
  row_flag aircraft (row_run aircraft r) = row_flag aircraft r.
Proof.
  destruct r as [g l].
  classify; split; reflexivity.
Qed.

Lemma zip_with_orb_rows (f : row -> bool) (xs : list (bool * row)) :
  zip_with orb (map fst xs) (map f (map snd xs))
  = map (fun x => fst x || f (snd x)) xs.
Proof.
  induction xs as [|x xs IH]; simpl; [reflexivity|]. rewrite IH. reflexivity.
Qed.

Lemma selection_columns_any (rules : list rule) :
  forall xs : list (bool * row),
  foldl (zip_with orb) (map fst xs) (selection_columns rules (map snd xs))
  = map (fun x => foldl orb (fst x) (row_selections rules (snd x))) xs.
Proof.
  induction rules as [|mfg rules IH]; intros xs; [reflexivity|].
  cbn [selection_columns foldl row_selections].
  rewrite zip_with_orb_rows.
  pose (step := fun x : bool * row =>
                  (fst x || row_selection mfg (snd x), row_step mfg (snd x))).
  change (map (fun x => fst x || row_selection mfg (snd x)) xs)
    with (map (fun x => fst (step x)) xs).
  rewrite <- (map_map step fst).
  replace (map (row_step mfg) (map snd xs)) with (map snd (map step xs))
    by (rewrite !map_map; reflexivity).
  rewrite IH, map_map. reflexivity.
Qed.

Lemma any_axis1_selection_columns (rules : list rule) (rows : list row) :
  rules <> [] ->
  any_axis1 (selection_columns rules rows) = map (row_flag rules) rows.
Proof.
  destruct rules as [|mfg rules]; [congruence|intros _].
  cbn [selection_columns any_axis1].
  pose (start := fun r : row => (row_selection mfg r, row_step mfg r)).
  change (map (row_selection mfg) rows) with (map (fun r => fst (start r)) rows).
  rewrite <- (map_map start fst).
  replace (map (row_step mfg) rows) with (map snd (map start rows))
    by (rewrite map_map; reflexivity).
  rewrite selection_columns_any, map_map. reflexivity.
Qed.

Lemma zip_with_flag (mask : list bool) (n : nat) :
  length mask = n ->
  zip_with (fun m x : bool => if m then true else x) mask (replicate n false) = mask.
Proof.
  intros <-. induction mask as [|[] mask IH]; simpl; [reflexivity| |];
    rewrite IH; reflexivity.
Qed.

(** [ag_aircraft] on a table whose [mfg] and [model] columns are given by
    its rows. *)
Lemma ag_aircraft_rows (rules : list rule) (df : DataFrame) (rows : list row) :
  lookup_col "mfg" (columns df) = Some (Obj (map fst rows)) ->
  lookup_col "model" (columns df) = Some (Obj (map snd rows)) ->
  nrows df = length rows ->
  rules <> [] -> Forall rule_ok rules ->
  ag_aircraft_with rules df
  = Ok (setitem (setitem df "mfg" (Obj (map (fun r => fst (row_run rules r)) rows)))
                "agaircraft" (Boolean (map (row_flag rules) rows))).
Proof.
  intros Hmfg Hmodel Hn Hne Hok. unfold ag_aircraft_with.
  rewrite (ag_loop_rows rules df rows [] Hmfg Hmodel Hok). simpl.
  destruct (selection_columns rules rows) as [|c cs] eqn:Hc.
  { destruct rules; [congruence|discriminate Hc]. }
  rewrite <- Hc, any_axis1_selection_columns by exact Hne.
  unfold loc_set. cbn [columns setitem nrows].
  rewrite lookup_assign_eq, zip_with_flag by (rewrite length_map; congruence).
  unfold setitem. cbn [columns nrows]. rewrite assign_assign. reflexivity.
Qed.

Lemma search_df_Ok df c p m :
  search_df df c p = Ok m -> exists l, lookup_col c (columns df) = Some (Obj l).
Proof.
  unfold search_df, getitem. destruct (lookup_col c (columns df)) as [[l|l]|]; simpl;
    try discriminate. intros _. exists l. reflexivity.
Qed.

Lemma bool_df_Ok df qs cols c p :
  bool_df df qs = Ok cols -> In (c, p) qs ->
  exists l, lookup_col c (columns df) = Some (Obj l).
Proof.
  unfold bool_df. intros H Hin.
  destruct (mapM (fun q => search_df df (fst q) (snd q)) qs) as [series|] eqn:Hm;
    [|discriminate H].
  apply mapM_Ok in Hm. apply list_elem_of_In, list_elem_of_lookup in Hin as [i Hi].
  destruct (Forall2_lookup_l _ _ _ _ _ Hm Hi) as (m & _ & Hs).
  exact (search_df_Ok _ _ _ _ Hs).
Qed.

(** A table that [ag_aircraft] accepts has object columns [mfg] and [model]. *)
Lemma ag_aircraft_Ok_columns df df' :
  ag_aircraft df = Ok df' ->
  exists G L, lookup_col "mfg" (columns df) = Some (Obj G)
              /\ lookup_col "model" (columns df) = Some (Obj L).
Proof.
  unfold ag_aircraft, ag_aircraft_with, aircraft. cbn [ag_loop]. intros H.
  destruct (rule_selection df _) as [sel|] eqn:Hsel; [|discriminate H]. clear H.
  unfold rule_selection in Hsel. cbn [query] in Hsel.
  destruct (bool_df df _) as [cols|] eqn:Hcols; [|discriminate Hsel].
  destruct (bool_df_Ok _ _ _ "mfg" re_ag_cat Hcols) as [G HG]; [left; reflexivity|].
  destruct (bool_df_Ok _ _ _ "model" re_g164 Hcols) as [L HL];
    [right; left; reflexivity|].
  exists G, L. split; assumption.
Qed.

Lemma map_fst_zip {A B} (l : list A) (k : list B) :
  length l = length k -> map fst (zip l k) = l.
Proof.
  revert k. induction l as [|x l IH]; intros [|y k]; simpl; try discriminate;
    [reflexivity|]. intros [= H]. rewrite IH by exact H. reflexivity.
Qed.

Lemma map_snd_zip {A B} (l : list A) (k : list B) :
  length l = length k -> map snd (zip l k) = k.
Proof.
  revert k. induction l as [|x l IH]; intros [|y k]; simpl; try discriminate;
    [reflexivity|]. intros [= H]. rewrite IH by exact H. reflexivity.
Qed.

Lemma aircraft_ok : Forall rule_ok aircraft.
Proof.
  unfold aircraft, rule_ok.
  repeat (apply List.Forall_cons;
          [split; [discriminate|];
           repeat (apply List.Forall_cons; [simpl; tauto|]); apply List.Forall_nil|]).
  apply List.Forall_nil.
Qed.

(** The rows of a well-formed table that [ag_aircraft] accepts. *)
Lemma ag_aircraft_table df df' :
  well_formed df -> ag_aircraft df = Ok df' ->
  exists rows,
    lookup_col "mfg" (columns df) = Some (Obj (map fst rows)) /\
    lookup_col "model" (columns df) = Some (Obj (map snd rows)) /\
    nrows df = length rows /\
    df' = setitem (setitem df "mfg" (Obj (map (fun r => fst (row_run aircraft r)) rows)))
                  "agaircraft" (Boolean (map (row_flag aircraft) rows)).
Proof.
  intros Hwf H. destruct (ag_aircraft_Ok_columns _ _ H) as (G & L & HG & HL).
  pose proof (well_formed_lookup _ _ _ Hwf HG) as HnG.
  pose proof (well_formed_lookup _ _ _ Hwf HL) as HnL. simpl in HnG, HnL.
  exists (zip G L).
  assert (Hlen : length G = length L) by congruence.
  rewrite map_fst_zip, map_snd_zip by exact Hlen.
  assert (Hn : nrows df = length (zip G L)).
  { rewrite <- HnG, <- (map_fst_zip G L Hlen) at 1. apply length_map. }
  repeat split; try assumption.
  unfold ag_aircraft in H.
  rewrite (ag_aircraft_rows aircraft df (zip G L)) in H.
  - injection H as <-. reflexivity.
  - rewrite map_fst_zip by exact Hlen. exact HG.
  - rewrite map_snd_zip by exact Hlen. exact HL.
  - exact Hn.
  - discriminate.
  - exact aircraft_ok.
Qed.

(** C6.  Applying [ag_aircraft] to its own result returns that result: no
    [mfg] value and no [agaircraft] flag changes, and nothing else does. *)
Theorem ag_aircraft_idempotent (df df' : DataFrame) :
  well_formed df -> ag_aircraft df = Ok df' -> ag_aircraft df' = Ok df'.
Proof.
  intros Hwf H.
  destruct (ag_aircraft_table _ _ Hwf H) as (rows & Hmfg & Hmodel & Hn & ->).
  set (rows' := map (row_run aircraft) rows).
  assert (Hmfg' : map (fun r => fst (row_run aircraft r)) rows = map fst rows')
    by (unfold rows'; rewrite map_map; reflexivity).
  assert (Hmodel' : map snd rows = map snd rows').
  { unfold rows'. rewrite map_map. apply map_ext. intros r.
    rewrite row_run_snd. reflexivity. }
  unfold ag_aircraft.
  rewrite (ag_aircraft_rows aircraft _ rows').
  - f_equal. unfold setitem. cbn [columns nrows]. f_equal.
    rewrite (assign_same "mfg").
    + rewrite assign_assign. f_equal. f_equal. unfold rows'. rewrite map_map.
      apply map_ext. intros r. apply (row_idempotent r).
    + rewrite lookup_assign_ne by discriminate. rewrite lookup_assign_eq.
      f_equal. f_equal. unfold rows'. rewrite map_map. apply map_ext. intros r.
      destruct (row_idempotent r) as [-> _]. reflexivity.
  - cbn [setitem columns]. rewrite lookup_assign_ne by discriminate.
    rewrite lookup_assign_eq, Hmfg'. reflexivity.
  - cbn [setitem columns]. rewrite !lookup_assign_ne by discriminate.
    rewrite Hmodel, Hmodel'. reflexivity.
  - cbn [setitem nrows]. unfold rows'. rewrite length_map. exact Hn.
  - discriminate.
  - exact aircraft_ok.
Qed.

Lemma ag_aircraft_idempotent_witness :
  ag_aircraft (mkDataFrame 2
                 [ ("mfg", Obj [Str "THRUSH AIRCRAFT"; Str "CESSNA AIRCRAFT"]);
                   ("model", Obj [Str "S2R-T34"; Str "A188B"]);
                   ("agaircraft", Boolean [true; true]) ])
  = Ok (mkDataFrame 2
          [ ("mfg", Obj [Str "THRUSH AIRCRAFT"; Str "CESSNA AIRCRAFT"]);
            ("model", Obj [Str "S2R-T34"; Str "A188B"]);
            ("agaircraft", Boolean [true; true]) ]).
Proof.
  apply (ag_aircraft_idempotent
           (mkDataFrame 2 [ ("mfg", Obj [Str "AYRES THRUSH"; Str "cessna"]);
                            ("model", Obj [Str "S2R-T34"; Str "A188B"]) ])).
  - repeat constructor.
  - vm_compute. reflexivity.
Defined.

(** [ag_aircraft] returns on every well-formed table whose [mfg] and [model]
    columns are object columns. *)
Lemma ag_aircraft_returns (df : DataFrame) (G L : list cell) :
  well_formed df ->
  lookup_col "mfg" (columns df) = Some (Obj G) ->
  lookup_col "model" (columns df) = Some (Obj L) ->
  exists df', ag_aircraft df = Ok df' /\ well_formed df'.
Proof.
  intros Hwf HG HL.
  pose proof (well_formed_lookup _ _ _ Hwf HG) as HnG.
  pose proof (well_formed_lookup _ _ _ Hwf HL) as HnL. simpl in HnG, HnL.
  assert (Hlen : length G = length L) by congruence.
  assert (Hn : nrows df = length (zip G L)).
  { rewrite <- HnG, <- (map_fst_zip G L Hlen) at 1. apply length_map. }
  eexists. split.
  - unfold ag_aircraft. apply (ag_aircraft_rows aircraft df (zip G L)).
    + rewrite map_fst_zip by exact Hlen. exact HG.
    + rewrite map_snd_zip by exact Hlen. exact HL.
    + exact Hn.
    + discriminate.
    + exact aircraft_ok.
  - apply well_formed_setitem; [apply well_formed_setitem; [exact Hwf|]|];
      simpl; rewrite length_map; symmetry; exact Hn.
Qed.

(** ** Which rule names the manufacturer *)

Lemma row_run_app (a b : list rule) (r : row) :
  row_run (a ++ b) r = row_run b (row_run a r).
Proof. apply fold_left_app. Qed.

(** Rules that do not select a row, or do not normalise, leave it alone. *)
Lemma row_run_unselected (rules : list rule) :
  forall r : row,
  (forall j mfg, rules !! j = Some mfg -> normalize mfg = true ->
                 row_selection mfg (row_run (take j rules) r) = false) ->
  row_run rules r = r.
Proof.
  induction rules as [|m rules IH]; intros r H; [reflexivity|].
  assert (Hstep : row_step m r = r).
  { unfold row_step. destruct (normalize m) eqn:Hn; simpl.
    - pose proof (H 0%nat m eq_refl Hn) as H0.
      change (row_selection m r = false) in H0. rewrite H0. destruct r; reflexivity.
    - destruct r; reflexivity. }
  change (row_run (m :: rules) r) with (row_run rules (row_step m r)).
  rewrite Hstep. apply IH. intros j mfg Hj Hn.
  specialize (H (S j) mfg Hj Hn).
  change (row_run (take (S j) (m :: rules)) r)
    with (row_run (take j rules) (row_step m r)) in H.
  rewrite Hstep in H. exact H.
Qed.

Lemma row_run_last (rules : list rule) (r : row) (k : nat) (mfg : rule) :
  rules !! k = Some mfg -> normalize mfg = true ->
  row_selection mfg (row_run (take k rules) r) = true ->
  (forall k' mfg', (k < k')%nat -> rules !! k' = Some mfg' -> normalize mfg' = true ->
                   row_selection mfg' (row_run (take k' rules) r) = false) ->
  fst (row_run rules r) = Str (name mfg).
Proof.
  intros Hk Hn Hsel Hlater.
  rewrite <- (take_drop_middle rules k mfg Hk).
  rewrite row_run_app.
  change (row_run (mfg :: drop (S k) rules) ?x)
    with (row_run (drop (S k) rules) (row_step mfg x)).
  rewrite row_run_unselected.
  - unfold row_step. rewrite Hn, Hsel. reflexivity.
  - intros j mfg' Hj Hn'. rewrite lookup_drop in Hj.
    specialize (Hlater (S k + j)%nat mfg' ltac:(lia) Hj Hn').
    rewrite <- (take_drop_middle rules k mfg Hk) in Hlater at 1.
    assert (Hlen : length (take k rules) = k).
    { apply length_take_le. apply lookup_lt_Some in Hk. lia. }
    rewrite take_app_ge in Hlater by lia.
    rewrite Hlen in Hlater.
    replace (S k + j - k)%nat with (S j) in Hlater by lia.
    rewrite row_run_app in Hlater. exact Hlater.
Qed.

Lemma selection_columns_lookup (rules : list rule) :
  forall (rows : list row) (k : nat) (mfg : rule),
  rules !! k = Some mfg ->
  selection_columns rules rows !! k
  = Some (map (fun r => row_selection mfg (row_run (take k rules) r)) rows).
Proof.
  induction rules as [|m rules IH]; intros rows k mfg Hk; [discriminate Hk|].
  destruct k as [|k]; simpl in Hk.
  - injection Hk as ->. reflexivity.
  - cbn [selection_columns]. change ((?x :: ?l) !! S k) with (l !! k).
    rewrite (IH _ _ _ Hk), map_map. reflexivity.
Qed.

Lemma lookup_map {A B} (f : A -> B) (l : list A) (i : nat) :
  map f l !! i = f <$> l !! i.
Proof. apply (list_lookup_fmap f l i). Qed.

Lemma ag_loop_Ok_columns df sels st :
  ag_loop aircraft df sels = Ok st ->
  exists G L, lookup_col "mfg" (columns df) = Some (Obj G)
              /\ lookup_col "model" (columns df) = Some (Obj L).
Proof.
  unfold aircraft. cbn [ag_loop]. intros H.
  destruct (rule_selection df _) as [sel|] eqn:Hsel; [|discriminate H]. clear H.
  unfold rule_selection in Hsel. cbn [query] in Hsel.
  destruct (bool_df df _) as [cols|] eqn:Hcols; [|discriminate Hsel].
  destruct (bool_df_Ok _ _ _ "mfg" re_ag_cat Hcols) as [G HG]; [left; reflexivity|].
  destruct (bool_df_Ok _ _ _ "model" re_g164 Hcols) as [L HL];
    [right; left; reflexivity|].
  exists G, L. split; assumption.
Qed.

(** C7 (as amended).  A rule matches a row when its mask, computed at the
    moment the rule is applied, selects the row: these masks are what the
    loop collects in [ag_aircraft_selection].  If a normalising rule matches
    a row and no later normalising rule does, the row ends with that rule's
    display name as [mfg]. *)
Theorem ag_aircraft_last_applied_rule_names_mfg
    (df df2 : DataFrame) (sels : list (list bool)) (i k : nat) (mfg : rule)
    (sel : list bool) :
  well_formed df ->
  ag_loop aircraft df [] = Ok (df2, sels) ->
  aircraft !! k = Some mfg -> normalize mfg = true ->
  sels !! k = Some sel -> sel !! i = Some true ->
  (forall k' mfg' sel', (k < k')%nat -> aircraft !! k' = Some mfg' ->
                        normalize mfg' = true -> sels !! k' = Some sel' ->
                        sel' !! i = Some false) ->
  exists df' G, ag_aircraft df = Ok df'
                /\ lookup_col "mfg" (columns df') = Some (Obj G)
                /\ G !! i = Some (Str (name mfg)).
Proof.
  intros Hwf Hloop Hk Hn Hsel Hi Hlater.
  destruct (ag_loop_Ok_columns _ _ _ Hloop) as (G & L & HG & HL).
  pose proof (well_formed_lookup _ _ _ Hwf HG) as HnG.
  pose proof (well_formed_lookup _ _ _ Hwf HL) as HnL. simpl in HnG, HnL.
  assert (Hlen : length G = length L) by congruence.
  set (rows := zip G L).
  assert (Hmfg : lookup_col "mfg" (columns df) = Some (Obj (map fst rows)))
    by (unfold rows; rewrite map_fst_zip by exact Hlen; exact HG).
  assert (Hmodel : lookup_col "model" (columns df) = Some (Obj (map snd rows)))
    by (unfold rows; rewrite map_snd_zip by exact Hlen; exact HL).
  assert (Hrows : nrows df = length rows).
  { rewrite <- HnG. unfold rows. rewrite <- (map_fst_zip G L Hlen) at 1.
    apply length_map. }
  rewrite (ag_loop_rows aircraft df rows [] Hmfg Hmodel aircraft_ok) in Hloop.
  remember (selection_columns aircraft rows) as SC eqn:HSC.
  injection Hloop as _ <-. cbn [app] in Hsel, Hlater. subst SC.
  rewrite (selection_columns_lookup _ rows _ _ Hk) in Hsel. injection Hsel as <-.
  rewrite lookup_map in Hi.
  apply fmap_Some in Hi as (r & Hr & Hi). symmetry in Hi.
  eexists. eexists. split; [|split].
  - unfold ag_aircraft.
    apply (ag_aircraft_rows aircraft df rows Hmfg Hmodel Hrows);
      [discriminate|exact aircraft_ok].
  - cbn [setitem columns]. rewrite lookup_assign_ne by discriminate.
    apply lookup_assign_eq.
  - rewrite lookup_map, Hr. cbn [fmap option_fmap option_map]. f_equal.
    apply (row_run_last aircraft r k mfg Hk Hn Hi).
    intros k' mfg' Hlt Hk' Hn'.
    specialize (Hlater k' mfg' _ Hlt Hk' Hn' (selection_columns_lookup _ rows _ _ Hk')).
    rewrite lookup_map, Hr in Hlater. cbn [fmap option_fmap option_map] in Hlater.
    congruence.
Qed.

Lemma ag_aircraft_last_applied_rule_names_mfg_witness :
  exists df' G,
    ag_aircraft (aircraft_table [("thrush", "EMB-201")]) = Ok df'
    /\ lookup_col "mfg" (columns df') = Some (Obj G)
    /\ G !! 0%nat = Some (Str "EMBRAER").
Proof.
  refine (ag_aircraft_last_applied_rule_names_mfg
            (aircraft_table [("thrush", "EMB-201")])
            (mkDataFrame 1 [("mfg", Obj [Str "EMBRAER"]); ("model", Obj [Str "EMB-201"]);
                            ("icao_type_desc", Obj [Str "L2J"])])
            [[false]; [true]; [false]; [false]; [true]; [false]]
            0 4
            (mkRule "EMBRAER" true [("model", re_emb2)] any)
            [true] _ _ _ _ _ _ _).
  - repeat constructor.
  - vm_compute. reflexivity.
  - reflexivity.
  - reflexivity.
  - reflexivity.
  - reflexivity.
  - intros k' mfg' sel' Hlt Hk' _ Hs'.
    do 5 (destruct k' as [|k']; [lia|]).
    destruct k' as [|k']; [|discriminate Hk'].
    injection Hs' as <-. reflexivity.
Defined.

(** C7 (as stated) fails when "matched" is read on the row as it enters the
    stage.  The row (AIR TRACTOR, S2R-T34) satisfies the predicates of the
    THRUSH AIRCRAFT rule, through its model, and of the AIR TRACTOR rule,
    through its manufacturer, and of no other rule; both rules normalise and
    AIR TRACTOR is declared last.  The row ends as THRUSH AIRCRAFT: once the
    earlier rule has overwritten [mfg], the later rule no longer selects the
    row. *)
Lemma ag_aircraft_row_matching_two_rules_keeps_earlier_name :
  let df := mkDataFrame 1 [("mfg", Obj [Str "AIR TRACTOR"]);
                           ("model", Obj [Str "S2R-T34"])] in
  map (rule_selection df) aircraft
  = [Ok [false]; Ok [true]; Ok [false]; Ok [false]; Ok [false]; Ok [true]] /\
  map normalize aircraft = [true; true; true; false; true; true] /\
  map name aircraft = ["AG-CAT"; "THRUSH AIRCRAFT"; "CESSNA AIRCRAFT";
                       "PIPER AIRCRAFT"; "EMBRAER"; "AIR TRACTOR"] /\
  ag_aircraft df
  = Ok (mkDataFrame 1 [("mfg", Obj [Str "THRUSH AIRCRAFT"]);
                       ("model", Obj [Str "S2R-T34"]);
                       ("agaircraft", Boolean [true])]).
Proof. repeat split; vm_compute; reflexivity. Qed.

(** ** What the two passes leave alone *)

Lemma loc_set_frame df mask c v c' :
  c <> c' ->
  lookup_col c' (columns (loc_set df mask c v)) = lookup_col c' (columns df).
Proof. intros H. unfold loc_set, setitem. simpl. apply lookup_assign_ne, H. Qed.

Lemma loc_set_nrows df mask c v : nrows (loc_set df mask c v) = nrows df.
Proof. reflexivity. Qed.

Lemma ag_loop_frame (rules : list rule) :
  forall df sels df' sels',
  ag_loop rules df sels = Ok (df', sels') ->
  nrows df' = nrows df /\
  forall c, c <> "mfg" -> lookup_col c (columns df') = lookup_col c (columns df).
Proof.
  induction rules as [|mfg rules IH]; intros df sels df' sels' H.
  - injection H as <- _. split; reflexivity.
  - cbn [ag_loop] in H.
    destruct (rule_selection df mfg) as [selection|]; [|discriminate H].
    simpl in H. apply IH in H as [Hn H]. split.
    + rewrite Hn. destruct (normalize mfg); reflexivity.
    + intros c Hc. rewrite (H c Hc).
      destruct (normalize mfg); [apply loc_set_frame; congruence|reflexivity].
Qed.

Lemma ag_aircraft_frame (df df' : DataFrame) (c : string) :
  ag_aircraft df = Ok df' -> c <> "mfg" -> c <> "agaircraft" ->
  lookup_col c (columns df') = lookup_col c (columns df).
Proof.
  unfold ag_aircraft, ag_aircraft_with. intros H Hc1 Hc2.
  destruct (ag_loop aircraft df []) as [[df2 sels]|] eqn:Hloop; [|discriminate H].
  simpl in H. destruct sels; [discriminate H|]. injection H as <-.
  rewrite loc_set_frame by congruence. cbn [setitem columns].
  rewrite lookup_assign_ne by congruence.
  apply (ag_loop_frame _ _ _ _ _ Hloop), Hc1.
Qed.

Lemma icao_engine_frame (df df' : DataFrame) (c : string) :
  icao_engine df = Ok df' -> c <> "icao_type_desc" ->
  lookup_col c (columns df') = lookup_col c (columns df).
Proof.
  unfold icao_engine. intros H Hc.
  destruct (bool_df df _) as [cols|]; [|discriminate H]. simpl in H.
  destruct (getitem df "mfg") as [mfg|]; [|discriminate H]. simpl in H.
  destruct (getitem _ "agaircraft") as [ag|]; [|discriminate H]. simpl in H.
  destruct (as_mask ag) as [m|]; [|discriminate H]. simpl in H.
  injection H as <-. rewrite !loc_set_frame by congruence. reflexivity.
Qed.

Lemma lookup_zip_with_both {A B C} (f : A -> B -> C) (a : list A) (b : list B)
    (i : nat) (x : A) (y : B) :
  a !! i = Some x -> b !! i = Some y -> zip_with f a b !! i = Some (f x y).
Proof. intros Ha Hb. rewrite lookup_zip_with, Ha, Hb. reflexivity. Qed.

Lemma lookup_map_Some {A B} (f : A -> B) (l : list A) (i : nat) (x : A) :
  l !! i = Some x -> map f l !! i = Some (f x).
Proof. intros H. rewrite lookup_map, H. reflexivity. Qed.

Lemma icao_engine_keeps_row (df df' : DataFrame) (G L I : list cell) (A : list bool)
    (i : nat) (g l : cell) :
  icao_engine df = Ok df' ->
  lookup_col "mfg" (columns df) = Some (Obj G) -> G !! i = Some g ->
  lookup_col "model" (columns df) = Some (Obj L) -> L !! i = Some l ->
  lookup_col "agaircraft" (columns df) = Some (Boolean A) -> A !! i = Some false ->
  lookup_col "icao_type_desc" (columns df) = Some (Obj I) ->
  ~ turbine_row g l ->
  exists I', lookup_col "icao_type_desc" (columns df') = Some (Obj I')
             /\ I' !! i = I !! i.
Proof.
  intros H HG Hg HL Hl HA Ha HI Hnt. unfold icao_engine in H.
  unfold bool_df, search_df, getitem in H. cbn [mapM fst snd] in H.
  rewrite HG, HL in H. simpl in H.
  unfold loc_set in H at 2. rewrite HI in H.
  cbn [setitem columns] in H. rewrite lookup_assign_ne in H by discriminate.
  rewrite HA in H. simpl in H.
  unfold loc_set in H. cbn [setitem columns] in H. rewrite lookup_assign_eq in H.
  injection H as <-. cbn [setitem columns]. rewrite lookup_assign_eq.
  eexists. split; [reflexivity|].
  set (turbine := zip_with orb _ _).
  assert (Ht : turbine !! i = Some false).
  { subst turbine. unfold series_eq. cbn [cells].
    erewrite lookup_zip_with_both;
      [|erewrite lookup_zip_with_both;
         [reflexivity
         |apply lookup_map_Some, Hg
         |apply lookup_map_Some; erewrite lookup_zip_with_both;
            [reflexivity|apply lookup_map_Some, Hg|apply lookup_map_Some, Hl]]
       |apply lookup_map_Some, Hg].
    f_equal. apply not_true_is_false. intros Ht. apply Hnt. unfold turbine_row.
    apply orb_true_iff in Ht as [Ht|Ht].
    - left. apply andb_true_iff in Ht as [Ht1 Ht2].
      apply bool_decide_eq_true in Ht1 as ->. split; [reflexivity|].
      apply negb_true_iff in Ht2. rewrite andb_false_iff in Ht2.
      destruct Ht2 as [Ht2|Ht2]; [discriminate Ht2|exact Ht2].
    - right. apply bool_decide_eq_true in Ht. exact Ht. }
  pose proof (lookup_zip_with_both andb _ _ i _ _
                (lookup_map_Some negb _ _ _ Ht) Ha) as Hp.
  rewrite lookup_zip_with, Hp. simpl.
  rewrite lookup_zip_with, Ht. simpl.
  destruct (I !! i); reflexivity.
Qed.

(** C10.  [ag_aircraft] changes no column other than [mfg] and [agaircraft];
    [icao_engine] changes no column other than [icao_type_desc]; and
    [icao_engine] keeps the [icao_type_desc] of a row that is not flagged
    [agaircraft] and is not a turbine row (manufacturer exactly AIR TRACTOR
    with a model other than the 401 variant, or exactly THRUSH AIRCRAFT). *)
Theorem classification_passes_frame :
  (forall df df' c,
     ag_aircraft df = Ok df' -> c <> "mfg" -> c <> "agaircraft" ->
     nrows df' = nrows df /\
     lookup_col c (columns df') = lookup_col c (columns df)) /\
  (forall df df' c,
     icao_engine df = Ok df' -> c <> "icao_type_desc" ->
     nrows df' = nrows df /\
     lookup_col c (columns df') = lookup_col c (columns df)) /\
  (forall df df' G L I A i g l,
     icao_engine df = Ok df' ->
     lookup_col "mfg" (columns df) = Some (Obj G) -> G !! i = Some g ->
     lookup_col "model" (columns df) = Some (Obj L) -> L !! i = Some l ->
     lookup_col "agaircraft" (columns df) = Some (Boolean A) -> A !! i = Some false ->
     lookup_col "icao_type_desc" (columns df) = Some (Obj I) ->
     ~ turbine_row g l ->
     exists I', lookup_col "icao_type_desc" (columns df') = Some (Obj I')
                /\ I' !! i = I !! i).
Proof.
  split; [|split].
  - intros df df' c H Hc1 Hc2. split; [|exact (ag_aircraft_frame df df' c H Hc1 Hc2)].
    unfold ag_aircraft, ag_aircraft_with in H.
    destruct (ag_loop aircraft df []) as [[df2 sels]|] eqn:Hloop; [|discriminate H].
    simpl in H. destruct sels; [discriminate H|]. injection H as <-.
    apply (ag_loop_frame _ _ _ _ _ Hloop).
  - intros df df' c H Hc. split; [|exact (icao_engine_frame df df' c H Hc)].
    unfold icao_engine in H.
    destruct (bool_df df _) as [cols|]; [|discriminate H]. simpl in H.
    destruct (getitem df "mfg") as [mfg|]; [|discriminate H]. simpl in H.
    destruct (getitem _ "agaircraft") as [ag|]; [|discriminate H]. simpl in H.
    destruct (as_mask ag) as [m|]; [|discriminate H]. simpl in H.
    injection H as <-. reflexivity.
  - intros df df' G L I A i g l. apply icao_engine_keeps_row.
Qed.

Example classification_sample :
  (df ← ag_aircraft (aircraft_table [("NEIVA", "EMB-201A"); ("thrush", "S2R");
                                      ("AIR TRACTOR INC.", "AT-401");
                                      ("AIR TRACTOR INC.", "AT-502B");
                                      ("EMBRAER", "ERJ 190")]);
   icao_engine df)
  = Ok (mkDataFrame 5
          [ ("mfg", Obj [Str "EMBRAER"; Str "THRUSH AIRCRAFT"; Str "AIR TRACTOR";
                         Str "AIR TRACTOR"; Str "EMBRAER"]);
            ("model", Obj [Str "EMB-201A"; Str "S2R"; Str "AT-401"; Str "AT-502B";
                           Str "ERJ 190"]);
            ("icao_type_desc", Obj [Str "L1P"; Str "L1T"; Str "L1P"; Str "L1T";
                                    Str "L2J"]);
            ("agaircraft", Boolean [true; true; true; true; false]) ]).
Proof. vm_compute. reflexivity. Qed.

Lemma classification_passes_frame_witness :
  (exists df',
     ag_aircraft (aircraft_table [("EMBRAER", "ERJ 190")]) = Ok df' /\
     lookup_col "icao_type_desc" (columns df')
     = lookup_col "icao_type_desc" (columns (aircraft_table [("EMBRAER", "ERJ 190")]))) /\
  (exists df1 df2,
     ag_aircraft (aircraft_table [("EMBRAER", "ERJ 190")]) = Ok df1 /\
     icao_engine df1 = Ok df2 /\
     lookup_col "mfg" (columns df2) = lookup_col "mfg" (columns df1) /\
     exists I', lookup_col "icao_type_desc" (columns df2) = Some (Obj I')
                /\ I' !! 0%nat = Some (Str "L2J")).
Proof.
  destruct classification_passes_frame as (Hag & Hicao & Hrow).
  assert (H1 : ag_aircraft (aircraft_table [("EMBRAER", "ERJ 190")])
               = Ok (mkDataFrame 1 [("mfg", Obj [Str "EMBRAER"]);
                                    ("model", Obj [Str "ERJ 190"]);
                                    ("icao_type_desc", Obj [Str "L2J"]);
                                    ("agaircraft", Boolean [false])]))
    by (vm_compute; reflexivity).
  assert (H2 : icao_engine (mkDataFrame 1 [("mfg", Obj [Str "EMBRAER"]);
                                    ("model", Obj [Str "ERJ 190"]);
                                    ("icao_type_desc", Obj [Str "L2J"]);
                                    ("agaircraft", Boolean [false])])
               = Ok (mkDataFrame 1 [("mfg", Obj [Str "EMBRAER"]);
                                    ("model", Obj [Str "ERJ 190"]);
                                    ("icao_type_desc", Obj [Str "L2J"]);
                                    ("agaircraft", Boolean [false])]))
    by (vm_compute; reflexivity).
  split.
  - eexists. split; [exact H1|].
    apply (Hag _ _ "icao_type_desc" H1); discriminate.
  - eexists. eexists. split; [exact H1|]. split; [exact H2|]. split.
    + apply (Hicao _ _ "mfg" H2); discriminate.
    + apply (Hrow _ _ [Str "EMBRAER"] [Str "ERJ 190"] [Str "L2J"] [false] 0%nat
                  (Str "EMBRAER") (Str "ERJ 190") H2); try reflexivity.
      intros [[H _]|H]; discriminate H.
Defined.

(** ** Tax identifier enrichment *)

(** The validators are total: for every value they return a boolean. *)
Lemma valid_cnpj_total (x : cell) : exists b, valid_cnpj x = Ok b.
Proof.
  destruct x as [| | |s|[]];
    [exists false; reflexivity .. | | exists false; reflexivity | exists false; reflexivity].
  destruct (Nat.eq_dec (String.length (strip_non_digits s)) 14%nat) as [H|H].
  - eexists. apply valid_cnpj_14, H.
  - exists false. apply valid_cnpj_other_length, H.
Qed.

Lemma valid_cpf_total (x : cell) : exists b, valid_cpf x = Ok b.
Proof.
  destruct x as [| | |s|[]];
    [exists false; reflexivity .. | | exists false; reflexivity | exists false; reflexivity].
  destruct (Nat.eq_dec (String.length (strip_non_digits s)) 11%nat) as [H|H].
  - eexists. apply valid_cpf_11, H.
  - exists false. apply valid_cpf_other_length, H.
Qed.

Example tax_id_sample :
  tax_id (mkDataFrame 3
            [ ("owner_tax_id", Obj [Str "11444777000161"; Str "00000000000"; NaN]);
              ("operator_tax_id", Obj [Str "52998224725"; Str "123"; Str ""]) ])
  = Ok (mkDataFrame 3
          [ ("owner_tax_id", Obj [Str "11444777000161"; NA; NA]);
            ("operator_tax_id", Obj [Str "52998224725"; Str "123"; NA]);
            ("owner_tax_id_type", Obj [Str "CNPJ"; Str "EMPTY"; Str "EMPTY"]);
            ("owner_tax_id_print", Obj [Str "11.444.777/0001-61"; NA; NA]);
            ("operator_tax_id_type", Obj [Str "CPF"; Str "INVALID"; Str "EMPTY"]);
            ("operator_tax_id_print", Obj [Str "529.982.247-25"; Str "123"; NA]) ]).
Proof. vm_compute. reflexivity. Qed.

(** C9: the enrichment stage raises on an identifier that is not made of
    digits only.  The validators strip the punctuation and accept
    11.444.777/0001-61, but before they are called the stage adds up
    [int(i)] over every character of the cell, and [int(".")] is a
    [ValueError]. *)
Theorem tax_id_punctuated_identifier_raises :
  valid_cnpj (Str "11.444.777/0001-61") = Ok true /\
  digit_sum (Str "11.444.777/0001-61") = Raise ValueError /\
  tax_id (mkDataFrame 1 [ ("owner_tax_id", Obj [Str "11.444.777/0001-61"]);
                          ("operator_tax_id", Obj [Str "52998224725"]) ])
  = Raise ValueError.
Proof. repeat split; vm_compute; reflexivity. Qed.

Lemma Forall_zip_with_put {A} (P : A -> Prop) (v : A) (mask : list bool) (l : list A) :
  P v -> Forall P l -> Forall P (zip_with (fun (m : bool) x => if m then v else x) mask l).
Proof.
  intros Hv Hl. revert mask. induction Hl as [|x l Hx Hl IH]; intros [|m mask]; simpl;
    try constructor.
  - destruct m; assumption.
  - apply IH.
Qed.

Lemma length_zip_with_same {A B C} (f : A -> B -> C) (a : list A) (b : list B) :
  length a = length b -> length (zip_with f a b) = length b.
Proof.
  revert b. induction a as [|x a IH]; intros [|y b]; simpl; try discriminate;
    [reflexivity|]. intros [= H]. rewrite IH by exact H. reflexivity.
Qed.

Lemma Forall_replicate_const {A} (P : A -> Prop) (n : nat) (v : A) :
  P v -> Forall P (replicate n v).
Proof. intros Hv. induction n; simpl; constructor; assumption. Qed.

(** When the enrichment of one entity returns, its type column holds one of
    the four values in every row, and the columns of other names are kept. *)
Lemma tax_id_entity_types (df df' : DataFrame) (entity : string) (ids : list cell) :
  let id_col := entity +:+ "_tax_id" in
  let type_col := id_col +:+ "_type" in
  let print_col := id_col +:+ "_print" in
  id_col <> type_col -> type_col <> print_col ->
  lookup_col id_col (columns df) = Some (Obj ids) -> length ids = nrows df ->
  tax_id_entity df entity = Ok df' ->
  nrows df' = nrows df /\
  (exists tys, lookup_col type_col (columns df') = Some (Obj tys)
               /\ length tys = nrows df /\ Forall tax_id_type_value tys) /\
  (forall c, c <> id_col -> c <> type_col -> c <> print_col ->
             lookup_col c (columns df') = lookup_col c (columns df)).
Proof.
  unfold tax_id_entity. cbv zeta.
  set (id_col := entity +:+ "_tax_id").
  set (type_col := id_col +:+ "_type").
  set (print_col := id_col +:+ "_print").
  intros Hit Htp Hids Hlen H.
  rewrite (proj2 (getitem_Ok df id_col _) Hids) in H. cbn [mbind res_bind cells] in H.
  destruct (mapM digit_sum _) as [sums|] eqn:Hsums; [|discriminate H].
  cbn [mbind res_bind] in H.
  pose proof (mapM_length _ _ _ Hsums) as Hls.
  unfold fillna in Hls. rewrite length_map in Hls.
  set (mask := map (fun v => v =? 0) sums) in H.
  assert (Hmask : length mask = length ids)
    by (subst mask; rewrite length_map; exact Hls).
  set (ids' := zip_with (fun (m : bool) (x : cell) => if m then NA else x) mask ids).
  assert (Hloc : loc_set df mask id_col NA = setitem df id_col (Obj ids'))
    by (unfold loc_set; rewrite Hids; reflexivity).
  rewrite Hloc in H.
  assert (Hids' : length ids' = nrows df)
    by (subst ids'; rewrite length_zip_with_same by exact Hmask; exact Hlen).
  set (df1 := setitem (setitem df id_col (Obj ids')) type_col _) in H.
  assert (H1id : lookup_col id_col (columns df1) = Some (Obj ids')).
  { subst df1. cbn [setitem columns]. rewrite lookup_assign_ne by congruence.
    apply lookup_assign_eq. }
  rewrite (proj2 (getitem_Ok df1 id_col _) H1id) in H. cbn [mbind res_bind cells] in H.
  set (df2 := loc_set df1 _ type_col (Str "EMPTY")) in H.
  assert (H2id : lookup_col id_col (columns df2) = Some (Obj ids')).
  { subst df2. rewrite loc_set_frame by congruence. exact H1id. }
  rewrite (proj2 (getitem_Ok df2 id_col _) H2id) in H. cbn [mbind res_bind cells] in H.
  destruct (mapM valid_cnpj ids') as [cnpj|] eqn:Hcnpj; [|discriminate H].
  cbn [mbind res_bind] in H.
  destruct (mapM valid_cpf ids') as [cpf|] eqn:Hcpf; [|discriminate H].
  cbn [mbind res_bind] in H.
  apply mapM_length in Hcnpj, Hcpf.
  set (df4 := loc_set (loc_set df2 cnpj type_col (Str "CNPJ")) cpf type_col (Str "CPF"))
    in H.
  assert (H4 : exists tys, lookup_col type_col (columns df4) = Some (Obj tys)
                           /\ length tys = nrows df /\ Forall tax_id_type_value tys).
  { subst df4 df2 df1. unfold loc_set. cbn [setitem columns nrows].
    rewrite !lookup_assign_eq. eexists. split; [reflexivity|]. split.
    - rewrite length_zip_with_same; rewrite length_zip_with_same;
        rewrite length_zip_with_same; rewrite ?length_replicate, ?length_map;
        congruence.
    - repeat apply Forall_zip_with_put; unfold tax_id_type_value; auto.
      apply Forall_replicate_const. auto. }
  destruct H4 as (tys & H4t & H4l & H4f).
  assert (H4id : lookup_col id_col (columns df4) = Some (Obj ids')).
  { subst df4. rewrite !loc_set_frame by congruence. exact H2id. }
  rewrite (proj2 (getitem_Ok df4 type_col _) H4t) in H. cbn [mbind res_bind cells] in H.
  rewrite (proj2 (getitem_Ok df4 id_col _) H4id) in H. cbn [mbind res_bind cells] in H.
  destruct (mapM _ (zip tys ids')) as [prints|]; [|discriminate H].
  cbn [mbind res_bind] in H. injection H as <-.
  split; [reflexivity|]. split.
  - exists tys. cbn [setitem columns]. rewrite lookup_assign_ne by congruence.
    repeat split; assumption.
  - intros c Hc1 Hc2 Hc3. cbn [setitem columns].
    rewrite lookup_assign_ne by congruence.
    subst df4 df2 df1. rewrite !loc_set_frame by congruence.
    cbn [setitem columns]. rewrite !lookup_assign_ne by congruence. reflexivity.
Qed.

(** When [tax_id] returns, both type columns hold one of the four values in
    every row. *)
Lemma tax_id_types (df df' : DataFrame) (owner operator : list cell) :
  well_formed df ->
  lookup_col "owner_tax_id" (columns df) = Some (Obj owner) ->
  lookup_col "operator_tax_id" (columns df) = Some (Obj operator) ->
  tax_id df = Ok df' ->
  exists tys1 tys2,
    lookup_col "owner_tax_id_type" (columns df') = Some (Obj tys1) /\
    lookup_col "operator_tax_id_type" (columns df') = Some (Obj tys2) /\
    length tys1 = nrows df' /\ length tys2 = nrows df' /\
    Forall tax_id_type_value tys1 /\ Forall tax_id_type_value tys2.
Proof.
  intros Hwf Ho Hp H. unfold tax_id in H.
  destruct (tax_id_entity df "owner") as [df1|] eqn:H1; [|discriminate H].
  cbn [mbind res_bind] in H.
  pose proof (well_formed_lookup _ _ _ Hwf Ho) as Hlo.
  pose proof (well_formed_lookup _ _ _ Hwf Hp) as Hlp. simpl in Hlo, Hlp.
  destruct (tax_id_entity_types df df1 "owner" owner) as (Hn1 & (tys1 & Ht1 & Hl1 & Hf1) & Hfr1);
    try assumption; try discriminate.
  assert (Hp1 : lookup_col "operator_tax_id" (columns df1) = Some (Obj operator)).
  { rewrite Hfr1 by discriminate. exact Hp. }
  destruct (tax_id_entity_types df1 df' "operator" operator)
    as (Hn2 & (tys2 & Ht2 & Hl2 & Hf2) & Hfr2);
    try assumption; try discriminate; [congruence|].
  exists tys1, tys2. repeat split; try assumption; try congruence.
  rewrite Hfr2 by discriminate. exact Ht1.
Qed.

(** * Further properties *)

(** ** Identifiers: stripping, check digits and formats *)

Lemma filter_all {A} (P : A -> Prop) `{forall x, Decision (P x)} (l : list A) :
  Forall P l -> filter P l = l.
Proof.
  induction 1 as [|x l Hx _ IH]; [reflexivity|].
  rewrite filter_cons, decide_True by exact Hx. rewrite IH. reflexivity.
Qed.

Lemma strip_non_digits_of_digits (l : list ascii) :
  all_digits l -> strip_non_digits (join l) = join l.
Proof.
  intros H. unfold strip_non_digits. rewrite chars_join.
  rewrite (filter_all _ l H). reflexivity.
Qed.

Lemma join_inj (l k : list ascii) : join l = join k -> l = k.
Proof. intros H. rewrite <- (chars_join l), <- (chars_join k), H. reflexivity. Qed.

(** X1.  [strip_non_digits] keeps digits only, never lengthens the text, is
    idempotent, and leaves a text unchanged exactly when it is made of
    digits. *)
Theorem strip_non_digits_properties (x : string) :
  all_digits (chars (strip_non_digits x)) /\
  (String.length (strip_non_digits x) <= String.length x)%nat /\
  strip_non_digits (strip_non_digits x) = strip_non_digits x /\
  (strip_non_digits x = x <-> all_digits (chars x)).
Proof.
  split; [apply strip_non_digits_Forall|]. split; [|split].
  - unfold strip_non_digits. rewrite length_join.
    rewrite <- (join_chars x) at 2. rewrite length_join. apply length_filter.
  - pose proof (strip_non_digits_Forall x) as H.
    rewrite <- (join_chars (strip_non_digits x)) at 1.
    rewrite strip_non_digits_of_digits by exact H. apply join_chars.
  - split.
    + intros H. rewrite <- H. apply strip_non_digits_Forall.
    + intros H. rewrite <- (join_chars x) at 1.
      rewrite strip_non_digits_of_digits by exact H. apply join_chars.
Qed.

Lemma strip_non_digits_properties_witness :
  strip_non_digits "11444777000161" = "11444777000161".
Proof.
  apply (proj2 (proj2 (proj2 (strip_non_digits_properties "11444777000161")))).
  repeat constructor.
Defined.

Lemma check_digit_range (d : Z) :
  let result := d `mod` 11 in
  0 <= (if result <? 2 then 0 else 11 - result) <= 9.
Proof.
  cbv zeta. pose proof (Z.mod_pos_bound d 11 ltac:(lia)).
  destruct (Z.ltb_spec (d `mod` 11) 2); lia.
Qed.

(** X2.  Whenever [check_digits_cnpj] or [check_digits_cpf] returns, for
    any text and any position argument, the result is a single decimal
    digit. *)
Theorem check_digits_are_digits (x : string) (n c : Z) :
  check_digits_cnpj x n = Ok c \/ check_digits_cpf x n = Ok c -> 0 <= c <= 9.
Proof.
  unfold check_digits_cnpj, check_digits_cpf. intros [H|H].
  - destruct (astype_int _) as [ds|]; [|discriminate H]. simpl in H.
    destruct (np_dot _ ds) as [d|]; [|discriminate H]. simpl in H.
    injection H as <-. apply check_digit_range.
  - destruct (astype_int _) as [ds|]; [|discriminate H]. simpl in H.
    destruct (np_dot _ ds) as [d|]; [|discriminate H]. simpl in H.
    injection H as <-. apply check_digit_range.
Qed.

Lemma check_digits_are_digits_witness : 0 <= 6 <= 9.
Proof.
  apply (check_digits_are_digits "11444777000161" 1 6). left.
  vm_compute. reflexivity.
Defined.

Lemma slice_nat {A} (a b : nat) (l : list A) :
  slice (Some (Z.of_nat a)) (Some (Z.of_nat b)) l = take (b - a) (drop a l).
Proof.
  unfold slice, slice_index. cbn [from_option].
  destruct (Z.ltb_spec (Z.of_nat a) 0); [lia|].
  destruct (Z.ltb_spec (Z.of_nat b) 0); [lia|].
  destruct (le_lt_dec (length l) a) as [Ha|Ha].
  - rewrite (drop_ge l a) by lia.
    rewrite drop_ge by lia. rewrite !take_nil. reflexivity.
  - replace (Z.to_nat (Z.min (Z.of_nat (length l)) (Z.of_nat a))) with a by lia.
    destruct (le_lt_dec b (length l)) as [Hb|Hb].
    + f_equal. lia.
    + rewrite (take_ge (drop a l) (b - a)) by (rewrite length_drop; lia).
      apply take_ge. rewrite length_drop. lia.
Qed.

Lemma slice_to_nat {A} (b : nat) (l : list A) :
  slice None (Some (Z.of_nat b)) l = take b l.
Proof.
  unfold slice, slice_index. cbn [from_option].
  destruct (Z.ltb_spec (Z.of_nat b) 0); [lia|].
  rewrite Z.sub_0_r. change (Z.to_nat 0) with 0%nat. rewrite drop_0.
  destruct (le_lt_dec b (length l)).
  - f_equal. lia.
  - rewrite (take_ge l b) by lia. apply take_ge. lia.
Qed.

(** The digits under the separators of the two formats. *)
Lemma cnpj_pieces (x : list ascii) :
  slice None (Some 2) x ++ slice (Some 2) (Some 5) x ++ slice (Some 5) (Some 8) x
  ++ slice (Some 8) (Some 12) x ++ slice (Some 12) (Some 14) x = take 14 x.
Proof.
  rewrite (slice_to_nat 2), (slice_nat 2 5), (slice_nat 5 8), (slice_nat 8 12),
    (slice_nat 12 14).
  rewrite !app_assoc. rewrite !take_take_drop. reflexivity.
Qed.

Lemma cpf_pieces (x : list ascii) :
  slice None (Some 3) x ++ slice (Some 3) (Some 6) x ++ slice (Some 6) (Some 9) x
  ++ slice (Some 9) (Some 12) x = take 12 x.
Proof.
  rewrite (slice_to_nat 3), (slice_nat 3 6), (slice_nat 6 9), (slice_nat 9 12).
  rewrite !app_assoc. rewrite !take_take_drop. reflexivity.
Qed.

Lemma slice_of_take {A} (a b k : nat) (l : list A) :
  (b <= k)%nat ->
  slice (Some (Z.of_nat a)) (Some (Z.of_nat b)) (take k l)
  = slice (Some (Z.of_nat a)) (Some (Z.of_nat b)) l.
Proof.
  intros Hb. rewrite !slice_nat.
  destruct (le_lt_dec b a) as [H|H].
  - replace (b - a)%nat with 0%nat by lia. reflexivity.
  - rewrite skipn_firstn_comm, take_take. f_equal. lia.
Qed.

Lemma slice_to_of_take {A} (b k : nat) (l : list A) :
  (b <= k)%nat -> slice None (Some (Z.of_nat b)) (take k l) = slice None (Some (Z.of_nat b)) l.
Proof. intros Hb. rewrite !slice_to_nat, take_take. f_equal. lia. Qed.

Lemma all_digits_take l n : all_digits l -> all_digits (take n l).
Proof. apply Forall_take. Qed.

Lemma all_digits_drop l n : all_digits l -> all_digits (drop n l).
Proof. apply Forall_drop. Qed.

(** The digits of a formatted identifier are its first 14, or 12, digits. *)
Lemma strip_format_cnpj (x : string) :
  strip_non_digits (format_cnpj x) = join (take 14 (chars (strip_non_digits x))).
Proof.
  pose proof (strip_non_digits_Forall x) as Hd.
  unfold format_cnpj. set (d := chars (strip_non_digits x)) in *.
  rewrite <- cnpj_pieces. unfold strip_non_digits at 1. rewrite chars_join. f_equal.
  rewrite (slice_to_nat 2), (slice_nat 2 5), (slice_nat 5 8), (slice_nat 8 12),
    (slice_nat 12 14).
  rewrite !list.filter_app.
  rewrite (filter_all _ (take _ d)) by (apply all_digits_take, Hd).
  repeat match goal with
         | |- context [filter ?P (take ?n (drop ?m d))] =>
           rewrite (filter_all P (take n (drop m d)))
             by (apply all_digits_take, all_digits_drop, Hd)
         end.
  reflexivity.
Qed.

Lemma strip_format_cpf (x : string) :
  strip_non_digits (format_cpf x) = join (take 12 (chars (strip_non_digits x))).
Proof.
  pose proof (strip_non_digits_Forall x) as Hd.
  unfold format_cpf. set (d := chars (strip_non_digits x)) in *.
  rewrite <- cpf_pieces. unfold strip_non_digits at 1. rewrite chars_join. f_equal.
  rewrite (slice_to_nat 3), (slice_nat 3 6), (slice_nat 6 9), (slice_nat 9 12).
  rewrite !list.filter_app.
  rewrite (filter_all _ (take _ d)) by (apply all_digits_take, Hd).
  repeat match goal with
         | |- context [filter ?P (take ?n (drop ?m d))] =>
           rewrite (filter_all P (take n (drop m d)))
             by (apply all_digits_take, all_digits_drop, Hd)
         end.
  reflexivity.
Qed.

(** X3.  For every text, formatting as a CNPJ or as a CPF is idempotent, and
    the result depends on the digits of the text only. *)
Theorem format_idempotent (x y : string) :
  format_cnpj (format_cnpj x) = format_cnpj x /\
  format_cpf (format_cpf x) = format_cpf x /\
  (strip_non_digits x = strip_non_digits y ->
   format_cnpj x = format_cnpj y /\ format_cpf x = format_cpf y).
Proof.
  split; [|split].
  - unfold format_cnpj at 1. rewrite strip_format_cnpj, chars_join.
    unfold format_cnpj.
    rewrite (slice_to_of_take 2 14), (slice_of_take 2 5 14), (slice_of_take 5 8 14),
      (slice_of_take 8 12 14), (slice_of_take 12 14 14) by lia. reflexivity.
  - unfold format_cpf at 1. rewrite strip_format_cpf, chars_join.
    unfold format_cpf.
    rewrite (slice_to_of_take 3 12), (slice_of_take 3 6 12), (slice_of_take 6 9 12),
      (slice_of_take 9 12 12) by lia. reflexivity.
  - intros H. unfold format_cnpj, format_cpf. rewrite H. split; reflexivity.
Qed.

Lemma format_idempotent_witness :
  format_cnpj "11444777000161" = format_cnpj "11.444.777/0001-61".
Proof.
  apply (proj2 (proj2 (format_idempotent "11444777000161" "11.444.777/0001-61"))).
  vm_compute. reflexivity.
Defined.

(** X4.  A text with at most 14 digits gets its digits back from
    [format_cnpj], and one with at most 12 digits from [format_cpf]: the
    separators are the only characters added.  With more digits, the digits
    beyond the 14th (12th) are dropped. *)
Theorem format_round_trip (x : string) :
  ((String.length (strip_non_digits x) <= 14)%nat ->
   strip_non_digits (format_cnpj x) = strip_non_digits x) /\
  ((String.length (strip_non_digits x) <= 12)%nat ->
   strip_non_digits (format_cpf x) = strip_non_digits x) /\
  String.length (strip_non_digits (format_cnpj x))
  = Nat.min 14 (String.length (strip_non_digits x)) /\
  String.length (strip_non_digits (format_cpf x))
  = Nat.min 12 (String.length (strip_non_digits x)).
Proof.
  rewrite strip_format_cnpj, strip_format_cpf.
  assert (Hx : strip_non_digits x = join (chars (strip_non_digits x)))
    by (symmetry; apply join_chars).
  set (d := chars (strip_non_digits x)) in *. rewrite Hx, !length_join.
  repeat split.
  - intros H. rewrite take_ge by exact H. reflexivity.
  - intros H. rewrite take_ge by exact H. reflexivity.
  - apply length_take.
  - apply length_take.
Qed.

Lemma format_round_trip_witness :
  strip_non_digits (format_cnpj "11444777000161") = strip_non_digits "11444777000161" /\
  strip_non_digits (format_cpf "529.982.247-25") = strip_non_digits "529.982.247-25".
Proof.
  split.
  - apply (proj1 (format_round_trip "11444777000161")). vm_compute. lia.
  - apply (proj1 (proj2 (format_round_trip "529.982.247-25"))). vm_compute. lia.
Defined.

Lemma valid_cnpj_true_length (s : string) :
  valid_cnpj (Str s) = Ok true -> String.length (strip_non_digits s) = 14%nat.
Proof.
  intros H. destruct (Nat.eq_dec (String.length (strip_non_digits s)) 14%nat) as [E|E];
    [exact E|]. rewrite (valid_cnpj_other_length s E) in H. discriminate H.
Qed.

Lemma valid_cpf_true_length (s : string) :
  valid_cpf (Str s) = Ok true -> String.length (strip_non_digits s) = 11%nat.
Proof.
  intros H. destruct (Nat.eq_dec (String.length (strip_non_digits s)) 11%nat) as [E|E];
    [exact E|]. rewrite (valid_cpf_other_length s E) in H. discriminate H.
Qed.

Lemma valid_depends_on_digits (s t : string) :
  strip_non_digits s = strip_non_digits t ->
  valid_cnpj (Str s) = valid_cnpj (Str t) /\ valid_cpf (Str s) = valid_cpf (Str t).
Proof. intros H. unfold valid_cnpj, valid_cpf. simpl py_str. rewrite H. split; reflexivity. Qed.

(** X5.  Validity is a matter of the digits alone: two texts with the same
    digits get the same answer from each validator, and an identifier that a
    validator accepts is still accepted after it has been formatted. *)
Theorem valid_preserved_by_format (s t : string) :
  (strip_non_digits s = strip_non_digits t ->
   valid_cnpj (Str s) = valid_cnpj (Str t) /\ valid_cpf (Str s) = valid_cpf (Str t)) /\
  (valid_cnpj (Str s) = Ok true -> valid_cnpj (Str (format_cnpj s)) = Ok true) /\
  (valid_cpf (Str s) = Ok true -> valid_cpf (Str (format_cpf s)) = Ok true).
Proof.
  split; [apply valid_depends_on_digits|]. split; intros H.
  - rewrite <- H. apply valid_depends_on_digits.
    rewrite strip_format_cnpj, take_ge, join_chars; [reflexivity|].
    apply valid_cnpj_true_length in H. rewrite <- length_join, join_chars. lia.
  - rewrite <- H. apply valid_depends_on_digits.
    rewrite strip_format_cpf, take_ge, join_chars; [reflexivity|].
    apply valid_cpf_true_length in H. rewrite <- length_join, join_chars. lia.
Qed.

Lemma valid_preserved_by_format_witness :
  valid_cnpj (Str (format_cnpj "11444777000161")) = Ok true /\
  valid_cpf (Str (format_cpf "52998224725")) = Ok true /\
  valid_cnpj (Str "11 444 777 0001 61") = valid_cnpj (Str "11444777000161").
Proof.
  split; [|split].
  - apply (proj1 (proj2 (valid_preserved_by_format "11444777000161" ""))).
    vm_compute. reflexivity.
  - apply (proj2 (proj2 (valid_preserved_by_format "52998224725" ""))).
    vm_compute. reflexivity.
  - apply (proj1 (valid_preserved_by_format "11 444 777 0001 61" "11444777000161")).
    vm_compute. reflexivity.
Defined.

(** X6.  No value is both a valid CNPJ and a valid CPF. *)
Theorem valid_cnpj_cpf_exclusive (x : cell) :
  ~ (valid_cnpj x = Ok true /\ valid_cpf x = Ok true).
Proof.
  intros [H1 H2]. destruct x as [| | |s|[]]; try discriminate H1.
  apply valid_cnpj_true_length in H1. apply valid_cpf_true_length in H2. congruence.
Qed.

Lemma digit_char_value (a : ascii) :
  is_digit a = true -> digit_char (digit_value a) = a.
Proof.
  destruct a as [b0 b1 b2 b3 b4 b5 b6 b7].
  destruct b0, b1, b2, b3, b4, b5, b6, b7; vm_compute; intros H;
    first [discriminate H | reflexivity].
Qed.

Lemma digit_value_char (d : Z) :
  0 <= d <= 9 -> is_digit (digit_char d) = true /\ digit_value (digit_char d) = d.
Proof.
  intros H.
  assert (d = 0 \/ d = 1 \/ d = 2 \/ d = 3 \/ d = 4 \/ d = 5 \/ d = 6 \/ d = 7
          \/ d = 8 \/ d = 9) as Hd by lia.
  repeat (destruct Hd as [->|Hd]; [split; reflexivity|]). subst d. split; reflexivity.
Qed.

Lemma digit_value_eq (a : ascii) (d : Z) :
  is_digit a = true -> 0 <= d <= 9 -> digit_value a = d <-> a = digit_char d.
Proof.
  intros Ha Hd. split.
  - intros <-. symmetry. apply digit_char_value, Ha.
  - intros ->. apply digit_value_char, Hd.
Qed.

Lemma check_of_range (w d : list Z) : 0 <= check_of w d <= 9.
Proof. unfold check_of. apply check_digit_range. Qed.

(** X7.  Every 12-digit stem has exactly one pair of trailing digits that
    makes a valid CNPJ: the digit [check_digits_cnpj] computes at position 1
    (whatever the two trailing digits are), followed by the digit it computes
    at position 2 once the first one is in place. *)
Theorem cnpj_check_digits_complete (stem : list ascii) :
  length stem = 12%nat -> all_digits stem ->
  exists c1 c2,
    0 <= c1 <= 9 /\ 0 <= c2 <= 9 /\
    forall a b, is_digit a = true -> is_digit b = true ->
      check_digits_cnpj (join (stem ++ [a; b])) 1 = Ok c1 /\
      check_digits_cnpj (join (stem ++ [digit_char c1; b])) 2 = Ok c2 /\
      (valid_cnpj (Str (join (stem ++ [a; b]))) = Ok true <->
       a = digit_char c1 /\ b = digit_char c2).
Proof.
  intros Hlen Hd.
  set (c1 := check_of cnpj_weights (map digit_value stem)).
  set (c2 := check_of (6 :: cnpj_weights) (map digit_value stem ++ [c1])).
  assert (Hc1 : 0 <= c1 <= 9) by apply check_of_range.
  assert (Hc2 : 0 <= c2 <= 9) by apply check_of_range.
  exists c1, c2. split; [exact Hc1|]. split; [exact Hc2|].
  intros a b Ha Hb.
  destruct (digit_value_char c1 Hc1) as [Hk1 Hv1].
  assert (Hab : forall a', is_digit a' = true -> all_digits (stem ++ [a'; b])).
  { intros a' Ha'. apply Forall_app. split; [exact Hd|]. repeat constructor; assumption. }
  assert (Hl : forall a', length (stem ++ [a'; b]) = 14%nat).
  { intros a'. rewrite length_app, Hlen. reflexivity. }
  split; [|split].
  - unfold check_digits_cnpj. rewrite chars_join.
    change (-3 + 1) with (-2). change (2 - 1) with 1.
    replace (slice None (Some (-2)) (stem ++ [a; b])) with stem.
    2:{ unfold slice. rewrite (Hl a). simpl from_option.
        change (Z.to_nat (slice_index (Z.of_nat 14) (-2) - 0)) with 12%nat.
        change (Z.to_nat 0) with 0%nat. rewrite drop_0, take_app_length'; [reflexivity|rewrite Hlen; reflexivity]. }
    rewrite astype_int_digits by exact Hd. simpl. unfold np_dot.
    compute_slices. rewrite length_map, Hlen. reflexivity.
  - unfold check_digits_cnpj. rewrite chars_join.
    change (-3 + 2) with (-1). change (2 - 2) with 0.
    replace (slice None (Some (-1)) (stem ++ [digit_char c1; b]))
      with (stem ++ [digit_char c1]).
    2:{ unfold slice. rewrite (Hl (digit_char c1)). simpl from_option.
        change (Z.to_nat (slice_index (Z.of_nat 14) (-1) - 0)) with 13%nat.
        change (Z.to_nat 0) with 0%nat. rewrite drop_0.
        change [digit_char c1; b] with ([digit_char c1] ++ [b]). rewrite app_assoc.
        rewrite take_app_length'; [reflexivity|]. rewrite length_app, Hlen. reflexivity. }
    rewrite astype_int_digits
      by (apply Forall_app; split; [exact Hd|repeat constructor; exact Hk1]).
    simpl. unfold np_dot. compute_slices.
    rewrite length_map, length_app, Hlen. simpl.
    rewrite map_app. simpl map. rewrite Hv1. reflexivity.
  - pose proof (strip_non_digits_of_digits _ (Hab a Ha)) as Hs.
    rewrite valid_cnpj_14 by (rewrite Hs, length_join; apply Hl).
    rewrite Hs. unfold digits_of. rewrite chars_join, map_app.
    rewrite take_app_length' by (rewrite length_map, Hlen; reflexivity).
    rewrite drop_app_length' by (rewrite length_map, Hlen; reflexivity).
    change (map digit_value [a; b]) with ([digit_value a] ++ [digit_value b]).
    rewrite app_assoc, take_app_length'
      by (rewrite length_app, length_map, Hlen; reflexivity).
    simpl app at 2. fold c1.
    split.
    + intros H. injection H as H. apply all_equal_2 in H. destruct H as [H1 H2].
      split; [apply digit_value_eq; assumption|].
      apply digit_value_eq; [assumption..|]. rewrite H2, H1. reflexivity.
    + intros [-> ->]. f_equal. apply all_equal_2.
      destruct (digit_value_char c2 Hc2) as [_ Hv2]. rewrite Hv1, Hv2. split; reflexivity.
Qed.

Lemma cnpj_check_digits_complete_witness :
  exists c1 c2,
    0 <= c1 <= 9 /\ 0 <= c2 <= 9 /\
    forall a b, is_digit a = true -> is_digit b = true ->
      check_digits_cnpj (join (chars "114447770001" ++ [a; b])) 1 = Ok c1 /\
      check_digits_cnpj (join (chars "114447770001" ++ [digit_char c1; b])) 2 = Ok c2 /\
      (valid_cnpj (Str (join (chars "114447770001" ++ [a; b]))) = Ok true <->
       a = digit_char c1 /\ b = digit_char c2).
Proof.
  apply (cnpj_check_digits_complete (chars "114447770001"));
    [reflexivity|repeat constructor].
Defined.

(** X8.  Every 9-digit stem has exactly one pair of trailing digits that makes
    a valid CPF: the digit [check_digits_cpf] computes at position 1, followed
    by the digit it computes at position 2 once the first one is in place. *)
Theorem cpf_check_digits_complete (stem : list ascii) :
  length stem = 9%nat -> all_digits stem ->
  exists c1 c2,
    0 <= c1 <= 9 /\ 0 <= c2 <= 9 /\
    forall a b, is_digit a = true -> is_digit b = true ->
      check_digits_cpf (join (stem ++ [a; b])) 1 = Ok c1 /\
      check_digits_cpf (join (stem ++ [digit_char c1; b])) 2 = Ok c2 /\
      (valid_cpf (Str (join (stem ++ [a; b]))) = Ok true <->
       a = digit_char c1 /\ b = digit_char c2).
Proof.
  intros Hlen Hd.
  set (c1 := check_of (descending 10 9) (map digit_value stem)).
  set (c2 := check_of (descending 11 10) (map digit_value stem ++ [c1])).
  assert (Hc1 : 0 <= c1 <= 9) by apply check_of_range.
  assert (Hc2 : 0 <= c2 <= 9) by apply check_of_range.
  exists c1, c2. split; [exact Hc1|]. split; [exact Hc2|].
  intros a b Ha Hb.
  destruct (digit_value_char c1 Hc1) as [Hk1 Hv1].
  assert (Hab : forall a', is_digit a' = true -> all_digits (stem ++ [a'; b])).
  { intros a' Ha'. apply Forall_app. split; [exact Hd|]. repeat constructor; assumption. }
  assert (Hl : forall a', length (stem ++ [a'; b]) = 11%nat).
  { intros a'. rewrite length_app, Hlen. reflexivity. }
  split; [|split].
  - unfold check_digits_cpf. rewrite chars_join.
    change (8 + 1) with 9. change (flip (arange 2 (10 + 1))) with (descending 10 9).
    replace (slice None (Some 9) (stem ++ [a; b])) with stem.
    2:{ unfold slice. rewrite (Hl a). simpl from_option.
        change (Z.to_nat (slice_index (Z.of_nat 11) 9 - 0)) with 9%nat.
        change (Z.to_nat 0) with 0%nat.
        rewrite drop_0, take_app_length'; [reflexivity|rewrite Hlen; reflexivity]. }
    rewrite astype_int_digits by exact Hd. simpl. unfold np_dot.
    rewrite length_map, Hlen. reflexivity.
  - unfold check_digits_cpf. rewrite chars_join.
    change (8 + 2) with 10. change (flip (arange 2 (10 + 2))) with (descending 11 10).
    replace (slice None (Some 10) (stem ++ [digit_char c1; b]))
      with (stem ++ [digit_char c1]).
    2:{ unfold slice. rewrite (Hl (digit_char c1)). simpl from_option.
        change (Z.to_nat (slice_index (Z.of_nat 11) 10 - 0)) with 10%nat.
        change (Z.to_nat 0) with 0%nat. rewrite drop_0.
        change [digit_char c1; b] with ([digit_char c1] ++ [b]). rewrite app_assoc.
        rewrite take_app_length'; [reflexivity|]. rewrite length_app, Hlen. reflexivity. }
    rewrite astype_int_digits
      by (apply Forall_app; split; [exact Hd|repeat constructor; exact Hk1]).
    simpl. unfold np_dot.
    rewrite length_map, length_app, Hlen. simpl.
    rewrite map_app. simpl map. rewrite Hv1. reflexivity.
  - pose proof (strip_non_digits_of_digits _ (Hab a Ha)) as Hs.
    rewrite valid_cpf_11 by (rewrite Hs, length_join; apply Hl).
    rewrite Hs. unfold digits_of. rewrite chars_join, map_app.
    rewrite take_app_length' by (rewrite length_map, Hlen; reflexivity).
    rewrite drop_app_length' by (rewrite length_map, Hlen; reflexivity).
    change (map digit_value [a; b]) with ([digit_value a] ++ [digit_value b]).
    rewrite app_assoc, take_app_length'
      by (rewrite length_app, length_map, Hlen; reflexivity).
    simpl app at 2. fold c1.
    split.
    + intros H. injection H as H. apply all_equal_2 in H. destruct H as [H1 H2].
      split; [apply digit_value_eq; assumption|].
      apply digit_value_eq; [assumption..|]. rewrite H2, H1. reflexivity.
    + intros [-> ->]. f_equal. apply all_equal_2.
      destruct (digit_value_char c2 Hc2) as [_ Hv2]. rewrite Hv1, Hv2. split; reflexivity.
Qed.

Lemma cpf_check_digits_complete_witness :
  exists c1 c2,
    0 <= c1 <= 9 /\ 0 <= c2 <= 9 /\
    forall a b, is_digit a = true -> is_digit b = true ->
      check_digits_cpf (join (chars "529982247" ++ [a; b])) 1 = Ok c1 /\
      check_digits_cpf (join (chars "529982247" ++ [digit_char c1; b])) 2 = Ok c2 /\
      (valid_cpf (Str (join (chars "529982247" ++ [a; b]))) = Ok true <->
       a = digit_char c1 /\ b = digit_char c2).
Proof.
  apply (cpf_check_digits_complete (chars "529982247"));
    [reflexivity|repeat constructor].
Defined.

(** ** Schema: renaming *)

Lemma dict_get_values d k v : dict_get d k = Some v -> In v (values d).
Proof.
  induction d as [|[k' v'] d IH]; [discriminate|]. simpl.
  destruct (String.eqb k' k); [intros [= ->]; left; reflexivity|].
  intros H. right. apply IH, H.
Qed.

(** No canonical name is a label of the raw table. *)
Lemma canonical_not_raw v :
  In v (values COLUMN_MAP_CSV) -> dict_get COLUMN_MAP_CSV v = None.
Proof.
  revert v. apply List.Forall_forall.
  repeat (apply List.Forall_cons; [reflexivity|]). apply List.Forall_nil.
Qed.

Lemma rename_label_idempotent c :
  rename_label COLUMN_MAP_CSV (rename_label COLUMN_MAP_CSV c)
  = rename_label COLUMN_MAP_CSV c.
Proof.
  unfold rename_label at 2 3. destruct (dict_get COLUMN_MAP_CSV c) as [v|] eqn:Hc; simpl.
  - unfold rename_label. rewrite (canonical_not_raw v (dict_get_values _ _ _ Hc)).
    reflexivity.
  - unfold rename_label. rewrite Hc. reflexivity.
Qed.

Lemma values_NoDup : NoDup (values COLUMN_MAP_CSV).
Proof. apply (bool_decide_unpack (NoDup (values COLUMN_MAP_CSV))). vm_compute. exact I. Qed.

(** X9.  [rename_columns] keeps the number and order of the labels and is
    idempotent.  On a table that [check_raw_data] accepts, the new labels are
    the canonical names, each exactly once; and the renamed table no longer
    passes [check_raw_data], so the check has to come first. *)
Theorem rename_columns_properties (cols : list string) :
  length (rename_columns cols) = length cols /\
  rename_columns (rename_columns cols) = rename_columns cols /\
  (check_raw_data cols = true ->
   rename_columns cols ≡ₚ values COLUMN_MAP_CSV /\
   NoDup (rename_columns cols) /\
   check_raw_data (rename_columns cols) = false).
Proof.
  split; [apply length_map|]. split.
  - unfold rename_columns. rewrite map_map. apply map_ext. intros c.
    apply rename_label_idempotent.
  - intros H. unfold check_raw_data in H.
    rewrite bool_decide_eq_true, Counter_eq_iff in H.
    assert (Hp : rename_columns cols ≡ₚ values COLUMN_MAP_CSV).
    { unfold rename_columns. rewrite <- H. reflexivity. }
    split; [exact Hp|]. split; [rewrite Hp; apply values_NoDup|].
    unfold check_raw_data. apply bool_decide_eq_false. rewrite Counter_eq_iff.
    rewrite Hp. intros Hk.
    assert (Hin : "MARCA" ∈ keys COLUMN_MAP_CSV) by (apply elem_of_cons; left; reflexivity).
    rewrite Hk in Hin. apply list_elem_of_In, canonical_not_raw in Hin.
    discriminate Hin.
Qed.

Lemma rename_columns_properties_witness :
  rename_columns (rev (keys COLUMN_MAP_CSV)) ≡ₚ values COLUMN_MAP_CSV /\
  NoDup (rename_columns (rev (keys COLUMN_MAP_CSV))) /\
  check_raw_data (rename_columns (rev (keys COLUMN_MAP_CSV))) = false.
Proof.
  apply (proj2 (proj2 (rename_columns_properties (rev (keys COLUMN_MAP_CSV))))).
  vm_compute. reflexivity.
Defined.

(** ** Dates: what [apply_func] returns *)

Lemma count_app p (l k : list ascii) : count p (l ++ k) = (count p l + count p k)%nat.
Proof. unfold count. rewrite list.filter_app, length_app. reflexivity. Qed.

Lemma count_cons p c (l : list ascii) :
  count p (c :: l) = ((if p c then 1 else 0) + count p l)%nat.
Proof.
  unfold count. rewrite filter_cons. destruct (p c) eqn:Hc.
  - rewrite decide_True by reflexivity. reflexivity.
  - rewrite decide_False by discriminate. reflexivity.
Qed.

Lemma count_rev p (l : list ascii) : count p (rev l) = count p l.
Proof.
  induction l as [|c l IH]; [reflexivity|].
  simpl rev. rewrite count_app, IH, !count_cons. unfold count at 2. simpl. lia.
Qed.

Lemma lstrip_by_count sp p (l : list ascii) :
  (forall c, sp c = true -> p c = false) ->
  count p (lstrip_by sp l) = count p l.
Proof.
  intros H. induction l as [|c l IH]; [reflexivity|]. simpl.
  destruct (sp c) eqn:Hc; [|reflexivity].
  rewrite IH, count_cons, (H c Hc). reflexivity.
Qed.

Lemma strip_by_count sp p (l : list ascii) :
  (forall c, sp c = true -> p c = false) ->
  count p (strip_by sp l) = count p l.
Proof.
  intros H. unfold strip_by.
  rewrite count_rev, lstrip_by_count, count_rev, lstrip_by_count by exact H.
  reflexivity.
Qed.

Lemma int_space_not_hyphen c : is_int_space c = true -> is_hyphen c = false.
Proof.
  intros H. unfold is_hyphen. destruct (Ascii.eqb_spec c "-") as [->|]; [|reflexivity].
  vm_compute in H. discriminate H.
Qed.

Lemma int_body_no_hyphen l : forall sep acc v,
  int_body sep acc l = Some v -> count is_hyphen l = 0%nat.
Proof.
  induction l as [|c l IH]; intros sep acc v H; [reflexivity|].
  simpl in H. rewrite count_cons.
  destruct (is_digit c) eqn:Hd.
  - apply IH in H. rewrite H.
    unfold is_hyphen. destruct (Ascii.eqb_spec c "-") as [->|]; [discriminate Hd|reflexivity].
  - destruct (Ascii.eqb_spec c "_") as [->|]; [|discriminate H].
    destruct sep; [discriminate H|]. simpl in H. apply IH in H. rewrite H. reflexivity.
Qed.

(** A text that [int] accepts has at most one hyphen, its sign. *)
Lemma py_int_hyphens s v : py_int s = Ok v -> (count is_hyphen (chars s) <= 1)%nat.
Proof.
  unfold py_int. intros H.
  rewrite <- (strip_by_count is_int_space is_hyphen (chars s) int_space_not_hyphen).
  destruct (strip_by is_int_space (chars s)) as [|c b]; [unfold count; simpl; lia|].
  rewrite count_cons.
  destruct (Ascii.eqb c "+") eqn:Hplus.
  - destruct (int_body true 0 b) eqn:Hb; [|discriminate H].
    rewrite (int_body_no_hyphen _ _ _ _ Hb). destruct (is_hyphen c); lia.
  - destruct (Ascii.eqb c "-") eqn:Hminus.
    + destruct (int_body true 0 b) eqn:Hb; [|discriminate H].
      rewrite (int_body_no_hyphen _ _ _ _ Hb). destruct (is_hyphen c); lia.
    + destruct (int_body true 0 (c :: b)) eqn:Hb; [|discriminate H].
      apply int_body_no_hyphen in Hb. rewrite count_cons in Hb.
      destruct (is_hyphen c); lia.
Qed.

Lemma py_int_two_hyphens (y m d : list ascii) :
  py_int (join (y ++ chars "-" ++ m ++ chars "-" ++ d)) = Raise ValueError.
Proof.
  destruct (py_int _) as [v|e] eqn:H.
  - apply py_int_hyphens in H. rewrite chars_join in H.
    rewrite !count_app in H. change (count is_hyphen (chars "-")) with 1%nat in H. lia.
  - f_equal. eapply py_int_raises, H.
Qed.

Lemma apply_func_dashed (y m d : list ascii) :
  let t := Str (join (y ++ chars "-" ++ m ++ chars "-" ++ d)) in
  apply_func t = Ok t.
Proof. cbv zeta. unfold apply_func. rewrite py_int_two_hyphens. reflexivity. Qed.

(** What comes out of [apply_func] is left alone by it. *)
Lemma apply_func_output (x y : cell) :
  apply_func x = Ok y -> apply_func y = Ok y.
Proof.
  destruct x as [| | |s|b]; try discriminate; try (intros [= <-]; reflexivity).
  intros H.
  destruct (is_ok (py_int s)) eqn:Hok.
  - destruct (Nat.eq_dec (length (slice (Some 4) None (chars s))) 2%nat) as [Hy|Hy].
    + destruct (py_int (join (slice (Some 4) None (chars s)))) as [v|e] eqn:Hv.
      * rewrite (proj1 (proj2 (proj2 (apply_func_cases s))) Hok Hy v Hv) in H.
        injection H as <-. apply apply_func_dashed.
      * rewrite (proj2 (proj2 (proj2 (apply_func_cases s))) Hok Hy e Hv) in H.
        discriminate H.
    + rewrite (proj1 (proj2 (apply_func_cases s)) Hok Hy) in H.
      injection H as <-. apply apply_func_dashed.
  - rewrite (proj1 (apply_func_cases s) Hok) in H. injection H as <-.
    apply (proj1 (apply_func_cases s) Hok).
Qed.

Lemma lstrip_by_none sp (l : list ascii) :
  Forall (fun c => sp c = false) l -> lstrip_by sp l = l.
Proof. destruct 1 as [|c l Hc _]; simpl; [|rewrite Hc]; reflexivity. Qed.

Lemma strip_by_none sp (l : list ascii) :
  Forall (fun c => sp c = false) l -> strip_by sp l = l.
Proof.
  intros H. unfold strip_by. rewrite (lstrip_by_none sp l H).
  rewrite lstrip_by_none by (apply Forall_rev; exact H).
  apply rev_involutive.
Qed.

Lemma digit_not_int_space c : is_digit c = true -> is_int_space c = false.
Proof. unfold is_digit, is_int_space. lia. Qed.

Lemma digit_not_sign c :
  is_digit c = true -> Ascii.eqb c "+" = false /\ Ascii.eqb c "-" = false.
Proof.
  intros H. split.
  - destruct (Ascii.eqb_spec c "+") as [->|]; [discriminate H|reflexivity].
  - destruct (Ascii.eqb_spec c "-") as [->|]; [discriminate H|reflexivity].
Qed.

Lemma int_body_digits l : forall sep acc,
  all_digits l -> l <> [] \/ sep = false ->
  int_body sep acc l = Some (digits_value acc l).
Proof.
  induction l as [|c l IH]; intros sep acc Hd Hne.
  - destruct Hne as [Hne| ->]; [congruence|reflexivity].
  - inversion_clear Hd as [|? ? Hc Hl]. simpl. rewrite Hc.
    rewrite (IH false _ Hl) by (right; reflexivity).
    unfold digits_value. rewrite filter_cons, decide_True by exact Hc. reflexivity.
Qed.

(** [int] reads a non-empty run of digits as its decimal value. *)
Lemma py_int_digits (l : list ascii) :
  all_digits l -> l <> [] -> py_int (join l) = Ok (digits_value 0 l).
Proof.
  intros Hd Hne. unfold py_int. rewrite chars_join.
  rewrite strip_by_none
    by (eapply List.Forall_impl; [|exact Hd]; intros c; apply digit_not_int_space).
  destruct l as [|c b]; [congruence|].
  pose proof (Forall_inv Hd) as Hc. cbv beta in Hc.
  destruct (digit_not_sign c Hc) as [-> ->].
  rewrite int_body_digits by (auto; left; discriminate).
  f_equal. lia.
Qed.

Lemma slice_from_nat {A} (a : nat) (l : list A) :
  slice (Some (Z.of_nat a)) None l = drop a l.
Proof.
  unfold slice, slice_index. cbn [from_option].
  destruct (Z.ltb_spec (Z.of_nat a) 0); [lia|].
  destruct (Nat.le_gt_cases a (length l)).
  - rewrite Z.min_r by lia. rewrite Nat2Z.id. apply take_ge.
    rewrite length_drop. lia.
  - rewrite Z.min_l by lia. rewrite Nat2Z.id, Z.sub_diag.
    rewrite drop_ge by lia. rewrite drop_ge by lia. reflexivity.
Qed.

(** X10.  A text of two digits for the day, two for the month and digits for
    the year is rewritten as year, month and day joined by hyphens; a year of
    exactly two digits gets the century 20 when it is below 20 and 19
    otherwise, a year of any other length is kept as it is. *)
Theorem apply_func_digit_dates (d m y : list ascii) :
  length d = 2%nat -> length m = 2%nat -> all_digits (d ++ m ++ y) ->
  apply_func (Str (join (d ++ m ++ y)))
  = Ok (Str (join ((if (length y =? 2)%nat then century y ++ y else y)
                   ++ chars "-" ++ m ++ chars "-" ++ d))).
Proof.
  intros Hd Hm Hall.
  assert (Hint : is_ok (py_int (join (d ++ m ++ y))) = true).
  { rewrite py_int_digits; [reflexivity|exact Hall|].
    destruct d; [discriminate Hd|discriminate]. }
  pose proof (apply_func_cases (join (d ++ m ++ y))) as Hc. cbv zeta in Hc.
  rewrite chars_join in Hc.
  assert (H0 : slice (Some 0) (Some 2) (d ++ m ++ y) = d).
  { rewrite (slice_nat 0 2). rewrite drop_0. simpl Nat.sub.
    apply take_app_length'. symmetry. exact Hd. }
  assert (H2 : slice (Some 2) (Some 4) (d ++ m ++ y) = m).
  { rewrite (slice_nat 2 4). rewrite drop_app_length' by (symmetry; exact Hd).
    apply take_app_length'. rewrite Hm. reflexivity. }
  assert (H4 : slice (Some 4) None (d ++ m ++ y) = y).
  { rewrite (slice_from_nat 4). rewrite app_assoc.
    apply drop_app_length'. rewrite length_app, Hd, Hm. reflexivity. }
  rewrite H0, H2, H4 in Hc. destruct Hc as (_ & Hne & Heq & _).
  destruct (Nat.eqb_spec (length y) 2) as [Hy|Hy].
  - assert (Hyd : all_digits y).
    { apply Forall_app in Hall as [_ Hall]. apply Forall_app in Hall as [_ Hall].
      exact Hall. }
    rewrite (Heq Hint Hy (digits_value 0 y)).
    + unfold century. rewrite <- app_assoc. reflexivity.
    + apply py_int_digits; [exact Hyd|]. destruct y; [discriminate Hy|discriminate].
  - apply (Hne Hint Hy).
Qed.

Lemma apply_func_digit_dates_witness :
  apply_func (Str "010203") = Ok (Str "2003-02-01") /\
  apply_func (Str "31121999") = Ok (Str "1999-12-31").
Proof.
  split.
  - apply (apply_func_digit_dates (chars "01") (chars "02") (chars "03"));
      [reflexivity|reflexivity|repeat constructor].
  - apply (apply_func_digit_dates (chars "31") (chars "12") (chars "1999"));
      [reflexivity|reflexivity|repeat constructor].
Defined.

(** X11.  Whatever [apply_func] returns it returns unchanged when applied
    again: a missing value is returned as it is, and a text is either
    returned as it is or rewritten with two hyphens, which [int] no longer
    accepts.  A text comes back as a text. *)
Theorem apply_func_idempotent (x y : cell) :
  apply_func x = Ok y ->
  apply_func y = Ok y /\
  (isna x = true -> y = x) /\
  (forall s, x = Str s ->
     exists t, y = Str t /\ (t = s \/ (2 <= count is_hyphen (chars t))%nat)).
Proof.
  intros H. split; [exact (apply_func_output x y H)|]. split.
  - destruct x; try discriminate; intros _; simpl in H; congruence.
  - intros s ->. pose proof (apply_func_cases s) as Hc. cbv zeta in Hc.
    destruct Hc as (Hbad & Hne & Heq & Hraise).
    assert (Hh : forall a b c,
      (2 <= count is_hyphen (chars (join (a ++ chars "-" ++ b ++ chars "-" ++ c))))%nat).
    { intros a b c. rewrite chars_join, !count_app.
      change (count is_hyphen (chars "-")) with 1%nat. lia. }
    destruct (is_ok (py_int s)) eqn:Hok.
    + destruct (Nat.eq_dec (length (slice (Some 4) None (chars s))) 2%nat) as [Hy|Hy].
      * destruct (py_int (join (slice (Some 4) None (chars s)))) as [v|e] eqn:Hv.
        -- rewrite (Heq eq_refl Hy v eq_refl) in H. injection H as <-.
           eexists. split; [reflexivity|]. right. apply Hh.
        -- rewrite (Hraise eq_refl Hy e eq_refl) in H. discriminate H.
      * rewrite (Hne eq_refl Hy) in H. injection H as <-.
        eexists. split; [reflexivity|]. right. apply Hh.
    + rewrite (Hbad eq_refl) in H. injection H as <-.
      exists s. split; [reflexivity|]. left. reflexivity.
Qed.

Lemma apply_func_idempotent_witness :
  apply_func (Str "2013-45-99") = Ok (Str "2013-45-99").
Proof.
  apply (apply_func_idempotent (Str "994513") (Str "2013-45-99")).
  vm_compute. reflexivity.
Defined.

(** ** Dates, on the table *)

Lemma assign_col_labels c v cs :
  is_Some (lookup_col c cs) -> map fst (assign_col c v cs) = map fst cs.
Proof.
  induction cs as [|[k x] cs IH]; simpl; [intros [? H]; discriminate H|].
  destruct (String.eqb_spec k c) as [->|Hk]; [reflexivity|].
  intros H. simpl. rewrite (IH H). reflexivity.
Qed.

Lemma setitem_same df c v :
  lookup_col c (columns df) = Some v -> setitem df c v = df.
Proof.
  intros H. unfold setitem. rewrite (assign_same _ _ _ H). destruct df; reflexivity.
Qed.

Lemma length_cells c : length (cells c) = col_length c.
Proof. destruct c; simpl; [reflexivity|apply length_map]. Qed.

Lemma mapM_apply_func_settled l new :
  mapM apply_func l = Ok new -> mapM apply_func new = Ok new.
Proof.
  intros H. apply mapM_Ok in H. apply mapM_Ok.
  induction H as [|x y l k Hx _ IH]; constructor; [|exact IH].
  exact (apply_func_output x y Hx).
Qed.

(** One step of the loop of [format_dates]. *)
Lemma format_dates_step df col cols df' :
  format_dates df (col :: cols) = Ok df' ->
  exists c new,
    lookup_col col (columns df) = Some c /\
    mapM apply_func (cells c) = Ok new /\
    format_dates (setitem df col (Obj new)) cols = Ok df'.
Proof.
  cbn [format_dates]. intros H.
  destruct (getitem df col) as [c|] eqn:Hc; [|discriminate H].
  apply getitem_Ok in Hc. change (_ ← Ok c; _) with
    (new ← mapM apply_func (cells c); format_dates (setitem df col (Obj new)) cols) in H.
  destruct (mapM apply_func (cells c)) as [new|] eqn:Hn; [|discriminate H].
  exists c, new. repeat split; assumption.
Qed.

(** A settled column stays what it is through [format_dates]. *)
Lemma format_dates_keeps_settled cols : forall df df' c l,
  format_dates df cols = Ok df' ->
  lookup_col c (columns df) = Some (Obj l) -> mapM apply_func l = Ok l ->
  lookup_col c (columns df') = Some (Obj l).
Proof.
  induction cols as [|col cols IH]; intros df df' c l H Hc Hl.
  - injection H as <-. exact Hc.
  - apply format_dates_step in H as (c0 & new & Hc0 & Hnew & H).
    apply (IH _ _ c l H); [|exact Hl].
    destruct (String.eqb_spec col c) as [->|Hne].
    + rewrite Hc in Hc0. injection Hc0 as <-. simpl in Hnew. rewrite Hl in Hnew.
      injection Hnew as <-. apply lookup_assign_eq.
    + simpl. rewrite lookup_assign_ne by exact Hne. exact Hc.
Qed.

Lemma format_dates_settles cols : forall df df' c,
  format_dates df cols = Ok df' -> c ∈ cols ->
  exists c', lookup_col c (columns df') = Some c' /\ dates_settled c'.
Proof.
  induction cols as [|col cols IH]; intros df df' c H Hin; [inversion Hin|].
  pose proof H as H0.
  apply format_dates_step in H as (c0 & new & Hc0 & Hnew & H).
  destruct (String.eqb_spec col c) as [->|Hne].
  - exists (Obj new). pose proof (mapM_apply_func_settled _ _ Hnew) as Hs.
    split; [|exists new; split; [reflexivity|exact Hs]].
    apply (format_dates_keeps_settled cols _ _ c new H); [|exact Hs].
    apply lookup_assign_eq.
  - apply elem_of_cons in Hin as [->|Hin]; [congruence|].
    apply (IH _ _ c H Hin).
Qed.

Lemma format_dates_of_settled cols : forall df,
  (forall c, c ∈ cols -> exists c', lookup_col c (columns df) = Some c' /\ dates_settled c') ->
  format_dates df cols = Ok df.
Proof.
  induction cols as [|col cols IH]; intros df H; [reflexivity|].
  destruct (H col) as (c' & Hc & l & -> & Hl); [apply elem_of_cons; left; reflexivity|].
  cbn [format_dates]. rewrite (proj2 (getitem_Ok df col (Obj l)) Hc).
  change (_ ← Ok (Obj l); _) with
    (new ← mapM apply_func l; format_dates (setitem df col (Obj new)) cols).
  rewrite Hl.
  change (_ ← Ok l; _) with (format_dates (setitem df col (Obj l)) cols).
  rewrite (setitem_same df col _ Hc). apply IH.
  intros c Hin. apply H. apply elem_of_cons. right. exact Hin.
Qed.

Lemma format_dates_shape cols : forall df df',
  format_dates df cols = Ok df' ->
  nrows df' = nrows df /\
  map fst (columns df') = map fst (columns df) /\
  (forall c, c ∉ cols -> lookup_col c (columns df') = lookup_col c (columns df)) /\
  (well_formed df -> well_formed df').
Proof.
  induction cols as [|col cols IH]; intros df df' H.
  - injection H as <-. repeat split; auto.
  - apply format_dates_step in H as (c0 & new & Hc0 & Hnew & H).
    apply IH in H as (Hn & Hlab & Hother & Hwf).
    split; [exact Hn|]. split; [|split].
    + rewrite Hlab. simpl. apply assign_col_labels. rewrite Hc0. eexists; reflexivity.
    + intros c Hc. apply not_elem_of_cons in Hc as [Hne Hc].
      rewrite (Hother c Hc). simpl. apply lookup_assign_ne. congruence.
    + intros Hdf. apply Hwf. apply well_formed_setitem; [exact Hdf|].
      simpl. rewrite (mapM_length _ _ _ Hnew), length_cells.
      apply (well_formed_lookup df col c0 Hdf Hc0).
Qed.

(** X12.  When [format_dates] returns, the table has the same rows and
    labels, the columns that were not listed are untouched, every listed
    column existed and is now an object column, a well-formed table stays
    well formed, and formatting the result again changes nothing. *)
Theorem format_dates_frame (df df' : DataFrame) (cols : list string) :
  format_dates df cols = Ok df' ->
  nrows df' = nrows df /\
  map fst (columns df') = map fst (columns df) /\
  (forall c, c ∉ cols -> lookup_col c (columns df') = lookup_col c (columns df)) /\
  (forall c, c ∈ cols ->
     is_Some (lookup_col c (columns df)) /\
     exists l, lookup_col c (columns df') = Some (Obj l)) /\
  (well_formed df -> well_formed df') /\
  format_dates df' cols = Ok df'.
Proof.
  intros H. destruct (format_dates_shape cols df df' H) as (Hn & Hlab & Hother & Hwf).
  split; [exact Hn|]. split; [exact Hlab|]. split; [exact Hother|].
  split; [|split; [exact Hwf|]].
  - intros c Hc. destruct (format_dates_settles cols df df' c H Hc) as (c' & Hc' & l & -> & _).
    split; [|exists l; exact Hc'].
    apply lookup_col_In in Hc'.
    assert (Hin : In c (map fst (columns df))).
    { rewrite <- Hlab. apply (in_map fst _ _ Hc'). }
    clear -Hin. induction (columns df) as [|[k x] cs IH]; [destruct Hin|].
    simpl. destruct (String.eqb_spec k c); [eexists; reflexivity|].
    apply IH. destruct Hin as [Hin|Hin]; [simpl in Hin; congruence|exact Hin].
  - apply format_dates_of_settled. intros c Hc.
    apply (format_dates_settles cols df df' c H Hc).
Qed.

Lemma format_dates_frame_witness :
  format_dates
    (mkDataFrame 2 [("exp_date_ca", Obj [Str "2003-02-01"; PyNone]); ("mfg", Obj [Str "X"; NaN])])
    ["exp_date_ca"]
  = Ok (mkDataFrame 2 [("exp_date_ca", Obj [Str "2003-02-01"; PyNone]); ("mfg", Obj [Str "X"; NaN])]).
Proof.
  apply (format_dates_frame
           (mkDataFrame 2 [("exp_date_ca", Obj [Str "010203"; PyNone]); ("mfg", Obj [Str "X"; NaN])])
           _ ["exp_date_ca"]).
  vm_compute. reflexivity.
Defined.

(** ** Weights: the sentinel *)

Lemma digit_value_nonneg c : is_digit c = true -> 0 <= digit_value c.
Proof. unfold is_digit, digit_value. lia. Qed.

Lemma decimal_digits_nonneg l : forall seen mant frac any m f,
  decimal_digits seen mant frac any l = Some (m, f) -> 0 <= mant -> 0 <= m.
Proof.
  induction l as [|c l IH]; intros seen mant frac any m f H Hm; simpl in H.
  - destruct any; [|discriminate H]. injection H as <- _. exact Hm.
  - destruct (is_digit c) eqn:Hd.
    + apply IH in H; [exact H|]. pose proof (digit_value_nonneg c Hd). lia.
    + destruct (Ascii.eqb c "." && negb seen); [|discriminate H].
      apply IH in H; [exact H|exact Hm].
Qed.

Lemma wgt_cell_text_nonneg s q : wgt_cell (Str s) = Ok q -> (0 <= q)%Q.
Proof.
  unfold wgt_cell, float_of_decimal.
  destruct (decimal_digits false 0 0 false _) as [[m f]|] eqn:H; [|discriminate].
  intros [= <-]. apply decimal_digits_nonneg in H; [|lia].
  unfold Qle. simpl. lia.
Qed.

(** X13.  When [wgt_convert] returns, the column has its length, a text cell
    has become a number that is not negative, and every other cell has become
    -1: the sentinel marks exactly the cells that were not text. *)
Theorem wgt_convert_sentinel (col : list cell) (out : list Q) :
  wgt_convert col = Ok out ->
  length out = length col /\
  Forall2 (fun x q => match x with
                      | Str _ => (0 <= q)%Q
                      | _ => q = -1 # 1
                      end) col out.
Proof.
  intros H. split; [exact (mapM_length _ _ _ H)|].
  apply mapM_Ok in H. induction H as [|x q col out Hx _ IH]; constructor; [|exact IH].
  destruct x as [| | |s|b]; try (injection Hx as <-; reflexivity).
  exact (wgt_cell_text_nonneg s q Hx).
Qed.

Lemma wgt_convert_sentinel_witness :
  length [5700 # 1; -1 # 1] = length [Str " 5700 KG"; NaN] /\
  Forall2 (fun x q => match x with
                      | Str _ => (0 <= q)%Q
                      | _ => q = -1 # 1
                      end) [Str " 5700 KG"; NaN] [5700 # 1; -1 # 1].
Proof.
  apply (wgt_convert_sentinel [Str " 5700 KG"; NaN] [5700 # 1; -1 # 1]).
  vm_compute. reflexivity.
Defined.

(** ** The age of the aircraft *)

Lemma zip_with_map_map {A B C D} (f : B -> C -> D) (g : A -> B) (h : A -> C) (l : list A) :
  zip_with f (map g l) (map h l) = map (fun x => f (g x) (h x)) l.
Proof. induction l as [|x l IH]; simpl; [|rewrite IH]; reflexivity. Qed.

Lemma zip_with_map_self {A B C} (f : B -> A -> C) (g : A -> B) (l : list A) :
  zip_with f (map g l) l = map (fun x => f (g x) x) l.
Proof. induction l as [|x l IH]; simpl; [|rewrite IH]; reflexivity. Qed.

Lemma age_mask_rows (year_mfg : list (option Z)) :
  age_mask year_mfg
  = map (fun v => Some (match v with Some y => y <? 1910 | None => false end)) year_mfg.
Proof.
  unfold age_mask. rewrite zip_with_map_map. apply map_ext.
  intros [y|]; reflexivity.
Qed.

Lemma aircraft_age_rows (today_year : Z) (year_mfg : list (option Z)) :
  aircraft_age today_year year_mfg
  = (map plausible_year year_mfg,
     map (fun v => match plausible_year v with
                   | Some y => Some (today_year - y)
                   | None => None
                   end) year_mfg).
Proof.
  unfold aircraft_age. rewrite age_mask_rows, zip_with_map_self.
  assert (H : map (fun x : option Z =>
                if bool_decide (Some (match x with Some y => y <? 1910 | None => false end)
                                = Some true) then None else x) year_mfg
              = map plausible_year year_mfg).
  { apply map_ext. intros [y|]; [|reflexivity]. simpl.
    destruct (y <? 1910); reflexivity. }
  rewrite H, map_map. reflexivity.
Qed.

(** X14.  [aircraft_age] never meets a null in its mask.  A year below 1910
    becomes null and any other year is kept; the age of a kept year is the
    current year minus that year, so at most the current year minus 1910, and
    is null exactly where the year is null.  Running it again on its own
    year column changes nothing. *)
Theorem aircraft_age_spec (today_year : Z) (year_mfg : list (option Z)) :
  let years := fst (aircraft_age today_year year_mfg) in
  let ages := snd (aircraft_age today_year year_mfg) in
  Forall (fun m => m <> None) (age_mask year_mfg) /\
  years = map plausible_year year_mfg /\
  Forall2 (fun y a => match y with
                      | Some y => 1910 <= y /\ a = Some (today_year - y)
                                  /\ today_year - y <= today_year - 1910
                      | None => a = None
                      end) years ages /\
  aircraft_age today_year years = (years, ages).
Proof.
  cbv zeta. rewrite aircraft_age_rows. cbn [fst snd]. split; [|split; [|split]].
  - rewrite age_mask_rows. apply List.Forall_map, List.Forall_forall.
    intros v _. discriminate.
  - reflexivity.
  - induction year_mfg as [|v l IH]; simpl; constructor; [|exact IH].
    destruct v as [y|]; simpl; [|reflexivity].
    destruct (Z.ltb_spec y 1910); simpl; [reflexivity|]. repeat split; lia.
  - rewrite aircraft_age_rows, !map_map. f_equal; apply map_ext; intros [y|]; simpl;
      try reflexivity; destruct (Z.ltb_spec y 1910); simpl; try reflexivity;
      destruct (Z.ltb_spec y 1910); try reflexivity; lia.
Qed.

(** ** Tax identifiers, row by row *)

Lemma mapM_map {A B} (f : A -> res B) (g : A -> B) (l : list A) :
  Forall (fun x => f x = Ok (g x)) l -> mapM f l = Ok (map g l).
Proof.
  intros H. apply mapM_Ok. induction H as [|x l Hx _ IH]; simpl; constructor; assumption.
Qed.

Lemma py_int_digit (c : ascii) :
  is_digit c = true -> py_int (String c "") = Ok (digit_value c).
Proof.
  intros H. change (String c "") with (join [c]).
  rewrite py_int_digits; [|repeat constructor; exact H|discriminate].
  unfold digits_value. rewrite filter_cons, decide_True by exact H. reflexivity.
Qed.

(** The sum of the digits of a readable identifier, 0 for a missing one. *)
Lemma digit_sum_readable (x : cell) :
  readable_id x ->
  exists v, digit_sum (if isna x then Str "0" else x) = Ok v /\
            (v =? 0) = isna (id_cleared x).
Proof.
  intros [Hna|(s & -> & Hd)].
  - rewrite Hna. exists 0. split; [reflexivity|].
    destruct x; try discriminate Hna; reflexivity.
  - simpl isna. cbv iota. unfold digit_sum, id_cleared, all_zero.
    rewrite (mapM_map _ digit_value) by
      (eapply List.Forall_impl; [|exact Hd]; intros c; apply py_int_digit).
    eexists. split; [reflexivity|].
    induction Hd as [|c l Hc Hl IH]; [reflexivity|].
    simpl map. simpl foldr. simpl forallb.
    assert (Hsum : 0 <= foldr Z.add 0 (map digit_value l)).
    { clear IH. induction Hl as [|a k Ha _ IHk]; simpl; [lia|].
      pose proof (digit_value_nonneg a Ha). lia. }
    pose proof (digit_value_nonneg c Hc) as Hc0.
    destruct (Ascii.eqb_spec c "0") as [->|Hne].
    + simpl andb. change (digit_value "0") with 0. rewrite Z.add_0_l. exact IH.
    + simpl andb. cbv iota. simpl isna.
      apply Z.eqb_neq. intros Hz.
      assert (Hv : digit_value c = 0) by lia.
      apply Hne. rewrite <- (digit_char_value c Hc), Hv. reflexivity.
Qed.

Lemma append_ne (a b : string) : b <> "" -> a <> a +:+ b.
Proof.
  intros Hb. induction a as [|c a IH]; simpl.
  - intros H. apply Hb. symmetry. exact H.
  - intros H. injection H as H. exact (IH H).
Qed.

Lemma append_inj_l (a b c : string) : a +:+ b = a +:+ c -> b = c.
Proof. induction a as [|x a IH]; simpl; [auto|]. intros H. injection H as H. auto. Qed.

Lemma tax_id_column_names (entity : string) :
  let id_col := entity +:+ "_tax_id" in
  let type_col := id_col +:+ "_type" in
  let print_col := id_col +:+ "_print" in
  id_col <> type_col /\ id_col <> print_col /\ type_col <> print_col.
Proof.
  cbv zeta. split; [|split].
  - apply append_ne. discriminate.
  - apply append_ne. discriminate.
  - intros H. apply append_inj_l in H. discriminate H.
Qed.

Lemma setitem_setitem df c v w : setitem (setitem df c v) c w = setitem df c w.
Proof. unfold setitem. simpl. rewrite assign_assign. reflexivity. Qed.

Lemma accepts_Ok (valid : cell -> res bool) (x : cell) :
  (exists b, valid x = Ok b) -> valid x = Ok (accepts valid x).
Proof. intros [b H]. unfold accepts. rewrite H. reflexivity. Qed.

Lemma accepts_exclusive (x : cell) :
  accepts valid_cnpj x = true -> accepts valid_cpf x = false.
Proof.
  unfold accepts. intros H.
  destruct (valid_cnpj x) as [[]|] eqn:H1; try discriminate H.
  destruct (valid_cpf x) as [[]|] eqn:H2; try reflexivity.
  destruct x as [| | |s|[]]; try discriminate H1.
  apply valid_cnpj_true_length in H1. apply valid_cpf_true_length in H2. congruence.
Qed.

Lemma accepts_missing (x : cell) :
  isna x = true -> accepts valid_cnpj x = false /\ accepts valid_cpf x = false.
Proof. destruct x; try discriminate; intros _; split; reflexivity. Qed.

Lemma id_cleared_put (x : cell) :
  (if isna (id_cleared x) then NA else x) = id_cleared x.
Proof.
  destruct x as [| | |s|b]; try reflexivity. unfold id_cleared.
  destruct (all_zero s); reflexivity.
Qed.

Lemma replicate_map {A B} (v : B) (l : list A) :
  replicate (length l) v = map (fun _ => v) l.
Proof. induction l as [|x l IH]; simpl; [|rewrite IH]; reflexivity. Qed.

Lemma zip_map_self {A B} (f : A -> B) (l : list A) :
  zip (map f l) l = map (fun x => (f x, x)) l.
Proof. induction l as [|x l IH]; simpl; [|rewrite IH]; reflexivity. Qed.

(** The type that the four masked assignments leave, and the printable form
    made from it, are those of the row. *)
Lemma row_type_assignments (x : cell) :
  let id := id_cleared x in
  (if accepts valid_cpf id then Str "CPF"
   else if accepts valid_cnpj id then Str "CNPJ"
   else if isna id then Str "EMPTY" else Str "INVALID") = row_type x
  /\ tax_id_print (row_type x) id = Ok (row_print x).
Proof.
  cbv zeta. unfold row_type, row_print, tax_id_row.
  destruct (isna (id_cleared x)) eqn:Hna.
  - destruct (accepts_missing _ Hna) as [-> ->]. split; reflexivity.
  - destruct (accepts valid_cnpj (id_cleared x)) eqn:Hc.
    + rewrite (accepts_exclusive _ Hc). split; reflexivity.
    + destruct (accepts valid_cpf (id_cleared x)); split; reflexivity.
Qed.

(** On a column of readable identifiers the enrichment of an entity returns,
    and its three columns are those of the rows. *)
Lemma tax_id_entity_rows (df : DataFrame) (entity : string) (ids : list cell) :
  lookup_col (entity +:+ "_tax_id") (columns df) = Some (Obj ids) ->
  length ids = nrows df -> Forall readable_id ids ->
  tax_id_entity df entity = Ok (tax_id_table df entity ids).
Proof.
  intros Hids Hlen Hread.
  destruct (tax_id_column_names entity) as (Hit & Hip & Htp). cbv zeta in Hit, Hip, Htp.
  unfold tax_id_entity, tax_id_table. cbv zeta.
  set (id_col := entity +:+ "_tax_id") in *.
  set (type_col := id_col +:+ "_type") in *.
  set (print_col := id_col +:+ "_print") in *.
  rewrite (proj2 (getitem_Ok df id_col _) Hids). cbn [mbind res_bind cells].
  set (total := fun y => match digit_sum y with Ok v => v | Raise _ => 0 end).
  assert (Hsums : mapM digit_sum (fillna (Str "0") ids)
                  = Ok (map total (fillna (Str "0") ids))).
  { apply mapM_map. unfold fillna. apply List.Forall_map.
    eapply List.Forall_impl; [|exact Hread]. intros x Hx. cbv beta.
    destruct (digit_sum_readable x Hx) as (v & Hv & _). unfold total. rewrite Hv.
    reflexivity. }
  rewrite Hsums. cbn [mbind res_bind].
  assert (Hmask : map (fun v => v =? 0) (map total (fillna (Str "0") ids))
                  = map (fun x => isna (id_cleared x)) ids).
  { unfold fillna. rewrite !map_map. clear -Hread.
    induction Hread as [|x l Hx _ IH]; [reflexivity|]. simpl. rewrite IH. f_equal.
    destruct (digit_sum_readable x Hx) as (v & Hv & Hz). unfold total. rewrite Hv.
    exact Hz. }
  rewrite Hmask.
  assert (Hloc : loc_set df (map (fun x => isna (id_cleared x)) ids) id_col NA
                 = setitem df id_col (Obj (map row_id ids))).
  { unfold loc_set. rewrite Hids. rewrite zip_with_map_self. do 2 f_equal.
    apply map_ext. intros x. rewrite id_cleared_put.
    unfold row_id, tax_id_row. cbv zeta.
    destruct (isna (id_cleared x)); [reflexivity|].
    destruct (accepts valid_cnpj _); [reflexivity|].
    destruct (accepts valid_cpf _); reflexivity. }
  rewrite Hloc.
  assert (Hrow_id : map row_id ids = map id_cleared ids).
  { apply map_ext. intros x. unfold row_id, tax_id_row. cbv zeta.
    destruct (isna (id_cleared x)); [reflexivity|].
    destruct (accepts valid_cnpj _); [reflexivity|].
    destruct (accepts valid_cpf _); reflexivity. }
  set (ids' := map row_id ids) in *.
  assert (Hlen' : length ids' = nrows df) by (subst ids'; rewrite length_map; exact Hlen).
  set (df0 := setitem df id_col (Obj ids')).
  change (nrows df0) with (nrows df). rewrite <- Hlen', replicate_map.
  set (df1 := setitem df0 type_col _).
  assert (H1id : lookup_col id_col (columns df1) = Some (Obj ids')).
  { subst df1 df0. cbn [setitem columns]. rewrite lookup_assign_ne by congruence.
    apply lookup_assign_eq. }
  rewrite (proj2 (getitem_Ok df1 id_col _) H1id). cbn [mbind res_bind cells].
  assert (Hl2 : loc_set df1 (map isna ids') type_col (Str "EMPTY")
                = setitem df0 type_col
                    (Obj (map (fun y => if isna y then Str "EMPTY" else Str "INVALID") ids'))).
  { unfold loc_set. subst df1. cbn [setitem columns]. rewrite lookup_assign_eq.
    rewrite zip_with_map_map. unfold setitem. cbn [columns nrows].
    rewrite assign_assign. reflexivity. }
  rewrite Hl2. set (df2 := setitem df0 type_col _).
  assert (H2id : lookup_col id_col (columns df2) = Some (Obj ids')).
  { subst df2 df0. cbn [setitem columns]. rewrite lookup_assign_ne by congruence.
    apply lookup_assign_eq. }
  rewrite (proj2 (getitem_Ok df2 id_col _) H2id). cbn [mbind res_bind cells].
  rewrite (mapM_map valid_cnpj (accepts valid_cnpj))
    by (apply List.Forall_forall; intros y _; apply accepts_Ok, valid_cnpj_total).
  cbn [mbind res_bind].
  rewrite (mapM_map valid_cpf (accepts valid_cpf))
    by (apply List.Forall_forall; intros y _; apply accepts_Ok, valid_cpf_total).
  cbn [mbind res_bind].
  assert (Hl4 : loc_set (loc_set df2 (map (accepts valid_cnpj) ids') type_col (Str "CNPJ"))
                        (map (accepts valid_cpf) ids') type_col (Str "CPF")
                = setitem df0 type_col (Obj (map row_type ids))).
  { unfold loc_set at 2. subst df2. cbn [setitem columns]. rewrite lookup_assign_eq.
    rewrite zip_with_map_map.
    unfold loc_set. cbn [setitem columns]. rewrite lookup_assign_eq.
    rewrite zip_with_map_map. unfold setitem. cbn [columns nrows].
    rewrite !assign_assign. do 3 f_equal.
    subst ids'. rewrite Hrow_id, map_map. apply map_ext. intros x.
    apply (proj1 (row_type_assignments x)). }
  rewrite Hl4. set (df4 := setitem df0 type_col _).
  assert (H4t : lookup_col type_col (columns df4) = Some (Obj (map row_type ids))).
  { subst df4. cbn [setitem columns]. apply lookup_assign_eq. }
  assert (H4id : lookup_col id_col (columns df4) = Some (Obj ids')).
  { subst df4 df0. cbn [setitem columns]. rewrite lookup_assign_ne by congruence.
    apply lookup_assign_eq. }
  rewrite (proj2 (getitem_Ok df4 type_col _) H4t). cbn [mbind res_bind cells].
  rewrite (proj2 (getitem_Ok df4 id_col _) H4id). cbn [mbind res_bind cells].
  assert (Hprints : mapM (fun x : cell * cell => tax_id_print (fst x) (snd x))
                         (zip (map row_type ids) ids')
                    = Ok (map row_print ids)).
  { subst ids'. rewrite Hrow_id. apply mapM_Ok. clear.
    induction ids as [|x l IH]; simpl; constructor; [|exact IH].
    apply (proj2 (row_type_assignments x)). }
  rewrite Hprints. reflexivity.
Qed.



Lemma id_cleared_cases (x : cell) :
  (id_cleared x = NA /\ (isna x = true \/ (exists s, x = Str s /\ all_zero s = true)
                         \/ exists b, x = Bool b))
  \/ (id_cleared x = x /\ exists s, x = Str s /\ all_zero s = false).
Proof.
  destruct x as [| | |s|b]; simpl.
  - left. split; [reflexivity|left; reflexivity].
  - left. split; [reflexivity|left; reflexivity].
  - left. split; [reflexivity|left; reflexivity].
  - destruct (all_zero s) eqn:Hz.
    + left. split; [reflexivity|]. right. left. exists s. split; [reflexivity|exact Hz].
    + right. split; [reflexivity|]. exists s. split; [reflexivity|exact Hz].
  - left. split; [reflexivity|]. right. right. exists b. reflexivity.
Qed.

Lemma accepts_true (valid : cell -> res bool) (x : cell) :
  accepts valid x = true <-> valid x = Ok true.
Proof.
  unfold accepts. destruct (valid x) as [[]|]; split; congruence.
Qed.

(** X16.  The row of a readable identifier: its type is one of the four
    values and is EMPTY exactly when the identifier is missing or a text of
    zeros only (the empty text too), in which case the identifier and its
    printable form become [pandas.NA]; otherwise the identifier is kept, the
    type is CNPJ or CPF exactly when the respective validator accepts it,
    with the printable form in the respective format, and INVALID when
    neither does, with the identifier itself as printable form. *)
Theorem tax_id_row_spec (x : cell) :
  readable_id x ->
  tax_id_type_value (row_type x) /\
  (row_type x = Str "EMPTY" <->
   isna x = true \/ exists s, x = Str s /\ all_zero s = true) /\
  (row_type x = Str "EMPTY" -> row_id x = NA /\ row_print x = NA) /\
  (row_type x <> Str "EMPTY" -> row_id x = x) /\
  (row_type x = Str "CNPJ" <-> row_type x <> Str "EMPTY" /\ valid_cnpj x = Ok true) /\
  (row_type x = Str "CPF" <-> row_type x <> Str "EMPTY" /\ valid_cpf x = Ok true) /\
  (row_type x = Str "CNPJ" -> row_print x = Str (format_cnpj (py_str x))) /\
  (row_type x = Str "CPF" -> row_print x = Str (format_cpf (py_str x))) /\
  (row_type x = Str "INVALID" -> row_print x = x).
Proof.
  intros Hread. unfold row_type, row_id, row_print, tax_id_row. cbv zeta.
  destruct (id_cleared_cases x) as [[Hid Hx]|[Hid (s & -> & Hz)]].
  - rewrite Hid. simpl.
    assert (Hx' : isna x = true \/ exists s, x = Str s /\ all_zero s = true).
    { destruct Hx as [Hx|[Hx|[b ->]]]; [left; exact Hx|right; exact Hx|].
      destruct Hread as [Hr|(s & Hr & _)]; discriminate Hr. }
    unfold tax_id_type_value.
    repeat split; try (intros; congruence); auto; intros [H _]; congruence.
  - rewrite Hid. simpl isna. cbv iota.
    assert (Hne : ~ (isna (Str s) = true \/ exists t, Str s = Str t /\ all_zero t = true)).
    { intros [H|(t & [= <-] & H)]; [discriminate H|congruence]. }
    pose proof (accepts_true valid_cnpj (Str s)) as Hc.
    pose proof (accepts_true valid_cpf (Str s)) as Hp.
    pose proof (accepts_exclusive (Str s)) as Hex.
    unfold tax_id_type_value.
    destruct (accepts valid_cnpj (Str s)).
    + rewrite (Hex eq_refl) in Hp. simpl.
      repeat split; try (intros; congruence); try tauto; auto.
    + destruct (accepts valid_cpf (Str s)); simpl.
      * repeat split; try (intros; congruence); try tauto; auto.
      * repeat split; try (intros; congruence); try tauto; auto.
Qed.

Lemma tax_id_row_spec_witness :
  row_type (Str "11444777000161") = Str "CNPJ" /\
  row_print (Str "11444777000161") = Str (format_cnpj "11444777000161").
Proof.
  assert (Hr : readable_id (Str "11444777000161")).
  { right. eexists. split; [reflexivity|repeat constructor]. }
  split.
  - apply (proj1 (proj2 (proj2 (proj2 (proj2 (tax_id_row_spec _ Hr)))))).
    split; [vm_compute; discriminate|vm_compute; reflexivity].
  - apply (proj1 (proj2 (proj2 (proj2 (proj2 (proj2 (proj2 (tax_id_row_spec _ Hr)))))))).
    vm_compute. reflexivity.
Defined.

(** A text of fourteen zeros passes [valid_cnpj], and one of eleven zeros
    [valid_cpf]; their rows are EMPTY all the same. *)
Example tax_id_row_zeros :
  valid_cnpj (Str "00000000000000") = Ok true /\
  valid_cpf (Str "00000000000") = Ok true /\
  tax_id_row (Str "00000000000000") = (NA, Str "EMPTY", NA) /\
  tax_id_row (Str "00000000000") = (NA, Str "EMPTY", NA).
Proof. repeat split; vm_compute; reflexivity. Qed.

(** ** Owner and operator *)

Lemma row_id_cases (x : cell) :
  (row_id x = NA /\ ~ (exists s, x = Str s /\ all_zero s = false))
  \/ (exists s, x = Str s /\ all_zero s = false /\ row_id x = Str s).
Proof.
  unfold row_id, tax_id_row. cbv zeta.
  destruct (id_cleared_cases x) as [[Hid Hx]|[Hid (s & -> & Hz)]].
  - left. rewrite Hid. split; [reflexivity|]. intros (s & -> & Hz).
    simpl in Hid. rewrite Hz in Hid. discriminate Hid.
  - right. exists s. rewrite Hid. simpl isna. cbv iota. repeat split; [exact Hz|].
    destruct (accepts valid_cnpj _); [reflexivity|].
    destruct (accepts valid_cpf _); reflexivity.
Qed.

(** X17.  [owned_and_operated] gives a boolean in every row and does not
    depend on which of the two columns comes first.  After [tax_id] has
    cleaned both identifier columns, it is true in a row exactly when the two
    identifiers of that row are the same text and not zeros only: two missing
    identifiers do not make an aircraft owner-operated. *)
Theorem owned_and_operated_spec (owner operator : list cell) :
  Forall (fun o => exists b, o = Bool b) (owned_and_operated owner operator) /\
  owned_and_operated owner operator = owned_and_operated operator owner /\
  forall i x y, owner !! i = Some x -> operator !! i = Some y ->
    exists b,
      owned_and_operated (map row_id owner) (map row_id operator) !! i = Some (Bool b) /\
      (b = true <-> exists s, x = Str s /\ y = Str s /\ all_zero s = false).
Proof.
  split; [|split].
  - unfold owned_and_operated, fillna. apply List.Forall_map.
    revert operator. induction owner as [|x l IH]; intros [|y k]; simpl; constructor;
      [|apply IH].
    destruct x as [| | |s|[]], y as [| | |t|[]]; simpl; eexists; reflexivity.
  - unfold owned_and_operated. f_equal.
    revert operator. induction owner as [|x l IH]; intros [|y k]; simpl; try reflexivity.
    rewrite IH. f_equal.
    destruct x as [| | |s|[]], y as [| | |t|[]]; simpl; try reflexivity.
    rewrite String.eqb_sym. reflexivity.
  - intros i x y Hx Hy. unfold owned_and_operated, fillna.
    rewrite lookup_map.
    rewrite lookup_zip_with, !lookup_map, Hx, Hy. simpl.
    destruct (row_id_cases x) as [[Hix Hnx]|(s & -> & Hzs & Hix)];
      destruct (row_id_cases y) as [[Hiy Hny]|(t & -> & Hzt & Hiy)];
      rewrite Hix, Hiy; simpl.
    + exists false. split; [reflexivity|]. split; [discriminate|].
      intros (s & -> & _ & Hz). exfalso. apply Hnx. exists s. split; [reflexivity|exact Hz].
    + exists false. split; [reflexivity|]. split; [discriminate|].
      intros (s & -> & _ & Hz). exfalso. apply Hnx. exists s. split; [reflexivity|exact Hz].
    + exists false. split; [reflexivity|]. split; [discriminate|].
      intros (u & _ & -> & Hz). exfalso. apply Hny. exists u. split; [reflexivity|exact Hz].
    + exists (String.eqb s t). split; [reflexivity|].
      destruct (String.eqb_spec s t) as [->|Hne].
      * split; [|reflexivity]. intros _. exists t. repeat split. exact Hzt.
      * split; [discriminate|]. intros (u & [= ->] & [= ->] & _). congruence.
Qed.

Lemma owned_and_operated_spec_witness :
  exists b,
    owned_and_operated (map row_id [Str "52998224725"; NaN])
                       (map row_id [Str "52998224725"; NaN]) !! 1%nat = Some (Bool b) /\
    (b = true <-> exists s, NaN = Str s /\ NaN = Str s /\ all_zero s = false).
Proof.
  apply (proj2 (proj2 (owned_and_operated_spec [Str "52998224725"; NaN]
                                               [Str "52998224725"; NaN])) 1%nat);
    reflexivity.
Defined.

(** ** The engine type, row by row *)

Lemma turbine_spec (g l : cell) : turbine g l = true <-> turbine_row g l.
Proof.
  unfold turbine, turbine_row. rewrite orb_true_iff, andb_true_iff, negb_true_iff.
  rewrite !bool_decide_eq_true. split.
  - intros [[-> H]|H]; [left|right; exact H]. split; [reflexivity|].
    apply andb_false_iff in H as [H|H]; [discriminate H|exact H].
  - intros [[-> H]|H]; [left|right; exact H]. split; [reflexivity|].
    rewrite H. apply andb_false_r.
Qed.

(** [icao_engine] returns on a table with object columns [mfg], [model] and
    [icao_type_desc] and a boolean column [agaircraft], and its result is the
    table with [icao_type_desc] set row by row. *)
Lemma icao_engine_rows (df : DataFrame) (G L I : list cell) (A : list bool) :
  lookup_col "mfg" (columns df) = Some (Obj G) ->
  lookup_col "model" (columns df) = Some (Obj L) ->
  lookup_col "agaircraft" (columns df) = Some (Boolean A) ->
  lookup_col "icao_type_desc" (columns df) = Some (Obj I) ->
  exists I',
    icao_engine df = Ok (setitem df "icao_type_desc" (Obj I')) /\
    length I' = Nat.min (Nat.min (length G) (length L)) (Nat.min (length A) (length I)) /\
    forall i g l a x,
      G !! i = Some g -> L !! i = Some l -> A !! i = Some a -> I !! i = Some x ->
      I' !! i = Some (icao_row g l a x).
Proof.
  intros HG HL HA HI. unfold icao_engine.
  unfold bool_df, search_df, getitem. cbn [mapM fst snd].
  rewrite HG, HL. simpl.
  unfold loc_set at 2. rewrite HI.
  cbn [setitem columns]. rewrite lookup_assign_ne by discriminate.
  rewrite HA. simpl.
  unfold loc_set. cbn [setitem columns]. rewrite lookup_assign_eq.
  unfold setitem. cbn [columns nrows]. rewrite assign_assign.
  eexists. split; [reflexivity|]. split.
  - unfold series_eq. cbn [cells].
    repeat rewrite ?length_zip_with, ?length_map.
    repeat match goal with
           | |- context [Nat.min ?a ?b] =>
             destruct (Nat.min_spec a b) as [[? ->]|[? ->]]
           end; lia.
  - intros i g l a x Hg Hl Ha Hx.
    set (turbine_col := zip_with orb _ _).
    assert (Ht : turbine_col !! i = Some (turbine g l)).
    { subst turbine_col. unfold series_eq. cbn [cells].
      erewrite lookup_zip_with_both;
        [|erewrite lookup_zip_with_both;
           [reflexivity
           |apply lookup_map_Some, Hg
           |apply lookup_map_Some; erewrite lookup_zip_with_both;
              [reflexivity|apply lookup_map_Some, Hg|apply lookup_map_Some, Hl]]
         |apply lookup_map_Some, Hg].
      reflexivity. }
    pose proof (lookup_zip_with_both andb _ _ i _ _
                  (lookup_map_Some negb _ _ _ Ht) Ha) as Hp.
    rewrite lookup_zip_with, Hp. simpl.
    rewrite lookup_zip_with, Ht. simpl. rewrite Hx. simpl.
    unfold icao_row. destruct (turbine g l), a; reflexivity.
Qed.

Lemma zip_with_put_twice {A} (v1 v2 : A) (T P : list bool) (l : list A) :
  let put := fun (v : A) (m : bool) (x : A) => if m then v else x in
  zip_with (put v2) P (zip_with (put v1) T (zip_with (put v2) P (zip_with (put v1) T l)))
  = zip_with (put v2) P (zip_with (put v1) T l).
Proof.
  cbv zeta. revert T P. induction l as [|x l IH]; intros [|t T] [|p P]; try reflexivity.
  simpl. rewrite IH. destruct t, p; reflexivity.
Qed.

Lemma zip_with_put_none {A} (v : A) (T : list bool) (l : list A) :
  existsb id T = false -> (length l <= length T)%nat ->
  zip_with (fun (m : bool) (x : A) => if m then v else x) T l = l.
Proof.
  revert l. induction T as [|t T IH]; intros [|x l]; simpl; try reflexivity; try lia.
  destruct t; [discriminate|]. simpl. intros H Hl. rewrite IH; [reflexivity|exact H|lia].
Qed.

Lemma map_put_replicate {A} (v x : A) (T : list bool) :
  map (fun m : bool => if m then v else x) T
  = zip_with (fun (m : bool) (y : A) => if m then v else y) T (replicate (length T) x).
Proof. induction T as [|t T IH]; simpl; [|rewrite IH]; reflexivity. Qed.

(** Two assignments of texts through masks, made twice, are the two
    assignments made once. *)
Lemma loc_set_twice (df : DataFrame) (T P : list bool) (c s1 s2 : string) :
  (length P <= length T)%nat ->
  let pass := fun d => loc_set (loc_set d T c (Str s1)) P c (Str s2) in
  pass (pass df) = pass df.
Proof.
  intros Hlen. cbv zeta.
  unfold loc_set, setitem. cbn [columns nrows].
  destruct (lookup_col c (columns df)) as [[l|l]|].
  - repeat (rewrite ?lookup_assign_eq, ?assign_assign; cbn [columns nrows]).
    do 3 f_equal. apply (zip_with_put_twice (Str s1) (Str s2)).
  - destruct (existsb id T) eqn:HT.
    + repeat (rewrite ?lookup_assign_eq, ?assign_assign; cbn [columns nrows]).
      do 3 f_equal. apply (zip_with_put_twice (Str s1) (Str s2)).
    + destruct (existsb id P) eqn:HP.
      * repeat (rewrite ?lookup_assign_eq, ?assign_assign, ?HT, ?HP; cbn [columns nrows]).
        do 3 f_equal.
        rewrite (zip_with_put_none (Str s1) T) by
          (try exact HT; rewrite length_zip_with, length_map; lia).
        set (put := fun (m : bool) (x : cell) => if m then Str s2 else x).
        generalize (map Bool l). clear. intros k. revert k.
        induction P as [|p P IH]; intros [|x k]; try reflexivity.
        simpl. rewrite IH. destruct p; reflexivity.
      * repeat (rewrite ?lookup_assign_eq, ?assign_assign, ?HT, ?HP; cbn [columns nrows]).
        reflexivity.
  - repeat (rewrite ?lookup_assign_eq, ?assign_assign; cbn [columns nrows]).
    do 3 f_equal. rewrite map_put_replicate.
    apply (zip_with_put_twice (Str s1) (Str s2)).
Qed.

(** X18.  On a table with object columns [mfg], [model] and
    [icao_type_desc] and a boolean column [agaircraft], [icao_engine]
    returns and changes [icao_type_desc] only: a turbine row (manufacturer
    exactly AIR TRACTOR with a model other than the 401 variant, or exactly
    THRUSH AIRCRAFT) gets L1T whether it is flagged or not, any other flagged
    row gets L1P, and every other row keeps what it had. *)
Theorem icao_engine_row_by_row (df : DataFrame) (G L I : list cell) (A : list bool) :
  lookup_col "mfg" (columns df) = Some (Obj G) ->
  lookup_col "model" (columns df) = Some (Obj L) ->
  lookup_col "agaircraft" (columns df) = Some (Boolean A) ->
  lookup_col "icao_type_desc" (columns df) = Some (Obj I) ->
  exists I',
    icao_engine df = Ok (setitem df "icao_type_desc" (Obj I')) /\
    forall i g l a x,
      G !! i = Some g -> L !! i = Some l -> A !! i = Some a -> I !! i = Some x ->
      (turbine_row g l -> I' !! i = Some (Str "L1T")) /\
      (~ turbine_row g l -> a = true -> I' !! i = Some (Str "L1P")) /\
      (~ turbine_row g l -> a = false -> I' !! i = Some x).
Proof.
  intros HG HL HA HI.
  destruct (icao_engine_rows df G L I A HG HL HA HI) as (I' & Heq & _ & Hrows).
  exists I'. split; [exact Heq|].
  intros i g l a x Hg Hl Ha Hx. rewrite (Hrows i g l a x Hg Hl Ha Hx).
  unfold icao_row. pose proof (turbine_spec g l) as Ht.
  destruct (turbine g l).
  - split; [reflexivity|].
    split; intros Hn; exfalso; apply Hn, Ht; reflexivity.
  - assert (Hn : ~ turbine_row g l) by (intros H; apply Ht in H; discriminate H).
    split; [intros H; contradiction|].
    split; intros _ ->; reflexivity.
Qed.

Lemma icao_engine_row_by_row_witness :
  exists I',
    icao_engine (mkDataFrame 3
                   [ ("mfg", Obj [Str "AIR TRACTOR"; Str "AIR TRACTOR"; Str "EMBRAER"]);
                     ("model", Obj [Str "AT-502B"; Str "AT-401"; Str "ERJ 190"]);
                     ("agaircraft", Boolean [true; true; false]);
                     ("icao_type_desc", Obj [Str "L1P"; NaN; Str "L2J"]) ])
    = Ok (setitem
            (mkDataFrame 3
               [ ("mfg", Obj [Str "AIR TRACTOR"; Str "AIR TRACTOR"; Str "EMBRAER"]);
                 ("model", Obj [Str "AT-502B"; Str "AT-401"; Str "ERJ 190"]);
                 ("agaircraft", Boolean [true; true; false]);
                 ("icao_type_desc", Obj [Str "L1P"; NaN; Str "L2J"]) ])
            "icao_type_desc" (Obj I')) /\
    forall i g l a x,
      [Str "AIR TRACTOR"; Str "AIR TRACTOR"; Str "EMBRAER"] !! i = Some g ->
      [Str "AT-502B"; Str "AT-401"; Str "ERJ 190"] !! i = Some l ->
      [true; true; false] !! i = Some a ->
      [Str "L1P"; NaN; Str "L2J"] !! i = Some x ->
      (turbine_row g l -> I' !! i = Some (Str "L1T")) /\
      (~ turbine_row g l -> a = true -> I' !! i = Some (Str "L1P")) /\
      (~ turbine_row g l -> a = false -> I' !! i = Some x).
Proof. apply icao_engine_row_by_row; reflexivity. Defined.

(** X19.  Applying [icao_engine] to its own result returns that result,
    whatever the types of the columns of the table are. *)
Theorem icao_engine_idempotent (df df' : DataFrame) :
  icao_engine df = Ok df' -> icao_engine df' = Ok df'.
Proof.
  intros H.
  assert (Hfr : forall c, c <> "icao_type_desc" ->
                          lookup_col c (columns df') = lookup_col c (columns df))
    by (intros c Hc; exact (icao_engine_frame df df' c H Hc)).
  unfold icao_engine in *.
  unfold bool_df, search_df, getitem in *. cbn [mapM fst snd] in *.
  rewrite !(Hfr "mfg"), !(Hfr "model") by discriminate.
  destruct (lookup_col "mfg" (columns df)) as [[G|G]|]; try discriminate H.
  cbn [mbind res_bind mret res_ret] in *.
  destruct (lookup_col "model" (columns df)) as [[L|L]|]; try discriminate H.
  cbn [mbind res_bind mret res_ret] in *.
  set (T := zip_with orb _ _) in *.
  rewrite loc_set_frame in H by discriminate.
  rewrite loc_set_frame, (Hfr "agaircraft") by discriminate.
  destruct (lookup_col "agaircraft" (columns df)) as [ag|]; [|discriminate H].
  cbn [mbind res_bind] in *.
  destruct (as_mask ag) as [A|]; [|discriminate H].
  cbn [mbind res_bind] in *.
  injection H as H.
  set (P := zip_with andb (map negb T) A) in *.
  assert (Hlen : (length P <= length T)%nat).
  { subst P. rewrite length_zip_with, length_map. lia. }
  pose proof (loc_set_twice df T P "icao_type_desc" "L1T" "L1P" Hlen) as Htw.
  cbv beta zeta in Htw. rewrite H in Htw. rewrite Htw. reflexivity.
Qed.

Lemma icao_engine_idempotent_witness :
  icao_engine (mkDataFrame 2
                 [ ("mfg", Obj [Str "THRUSH AIRCRAFT"; Str "CESSNA AIRCRAFT"]);
                   ("model", Obj [Str "S2R-T34"; Str "A188B"]);
                   ("agaircraft", Boolean [true; true]);
                   ("icao_type_desc", Obj [Str "L1T"; Str "L1P"]) ])
  = Ok (mkDataFrame 2
          [ ("mfg", Obj [Str "THRUSH AIRCRAFT"; Str "CESSNA AIRCRAFT"]);
            ("model", Obj [Str "S2R-T34"; Str "A188B"]);
            ("agaircraft", Boolean [true; true]);
            ("icao_type_desc", Obj [Str "L1T"; Str "L1P"]) ]).
Proof.
  apply (icao_engine_idempotent
           (mkDataFrame 2
              [ ("mfg", Obj [Str "THRUSH AIRCRAFT"; Str "CESSNA AIRCRAFT"]);
                ("model", Obj [Str "S2R-T34"; Str "A188B"]);
                ("agaircraft", Boolean [true; true]);
                ("icao_type_desc", Obj [Str "L2J"; NaN]) ])).
  vm_compute. reflexivity.
Defined.

(** ** The two passes together *)

(** After the rules have run, a turbine row is a flagged row. *)
Lemma turbine_flagged (g l : cell) :
  turbine (fst (row_run aircraft (g, l))) (snd (row_run aircraft (g, l))) = true ->
  row_flag aircraft (g, l) = true.
Proof.
  classify; intros H; try reflexivity;
    apply turbine_spec in H; destruct H as [[-> _]| ->];
    repeat match goal with
           | H : str_contains _ (Str _) = false |- _ => vm_compute in H; discriminate H
           end.
Qed.

(** X20.  The two classification passes in the order of the pipeline: on a
    well-formed table with object columns [mfg], [model] and
    [icao_type_desc], [ag_aircraft] and then [icao_engine] return; in the
    result every row flagged [agaircraft] has the engine type L1T or L1P, and
    every row that is not flagged keeps the [icao_type_desc] it had. *)
Theorem ag_aircraft_then_icao_engine (df : DataFrame) (G L I : list cell) :
  well_formed df ->
  lookup_col "mfg" (columns df) = Some (Obj G) ->
  lookup_col "model" (columns df) = Some (Obj L) ->
  lookup_col "icao_type_desc" (columns df) = Some (Obj I) ->
  exists df1 df2 F I',
    ag_aircraft df = Ok df1 /\ icao_engine df1 = Ok df2 /\
    lookup_col "agaircraft" (columns df2) = Some (Boolean F) /\
    lookup_col "icao_type_desc" (columns df2) = Some (Obj I') /\
    length F = nrows df /\ length I' = nrows df /\
    forall (i : nat) (a : bool), F !! i = Some a ->
      if a then I' !! i = Some (Str "L1T") \/ I' !! i = Some (Str "L1P")
      else I' !! i = I !! i.
Proof.
  intros Hwf HG HL HI.
  pose proof (well_formed_lookup _ _ _ Hwf HG) as HnG.
  pose proof (well_formed_lookup _ _ _ Hwf HL) as HnL.
  pose proof (well_formed_lookup _ _ _ Hwf HI) as HnI. simpl in HnG, HnL, HnI.
  assert (Hlen : length G = length L) by congruence.
  assert (Hn : nrows df = length (zip G L)).
  { rewrite <- HnG, <- (map_fst_zip G L Hlen) at 1. apply length_map. }
  set (G' := map (fun r : row => fst (row_run aircraft r)) (zip G L)).
  set (F := map (row_flag aircraft) (zip G L)).
  set (df1 := setitem (setitem df "mfg" (Obj G')) "agaircraft" (Boolean F)).
  assert (H1 : ag_aircraft df = Ok df1).
  { unfold ag_aircraft. apply (ag_aircraft_rows aircraft df (zip G L)).
    - rewrite map_fst_zip by exact Hlen. exact HG.
    - rewrite map_snd_zip by exact Hlen. exact HL.
    - exact Hn.
    - discriminate.
    - exact aircraft_ok. }
  assert (HG1 : lookup_col "mfg" (columns df1) = Some (Obj G')).
  { subst df1. cbn [setitem columns]. rewrite lookup_assign_ne by discriminate.
    apply lookup_assign_eq. }
  assert (HL1 : lookup_col "model" (columns df1) = Some (Obj L)).
  { subst df1. cbn [setitem columns]. rewrite !lookup_assign_ne by discriminate.
    exact HL. }
  assert (HA1 : lookup_col "agaircraft" (columns df1) = Some (Boolean F)).
  { subst df1. cbn [setitem columns]. apply lookup_assign_eq. }
  assert (HI1 : lookup_col "icao_type_desc" (columns df1) = Some (Obj I)).
  { subst df1. cbn [setitem columns]. rewrite !lookup_assign_ne by discriminate.
    exact HI. }
  destruct (icao_engine_rows df1 G' L I F HG1 HL1 HA1 HI1) as (I' & H2 & HlI' & Hrows).
  assert (HlF : length F = nrows df) by (unfold F; rewrite length_map; symmetry; exact Hn).
  assert (HlG' : length G' = nrows df) by (unfold G'; rewrite length_map; symmetry; exact Hn).
  exists df1, (setitem df1 "icao_type_desc" (Obj I')), F, I'.
  split; [exact H1|]. split; [exact H2|]. split; [|split; [|split; [|split]]].
  - cbn [setitem columns]. rewrite lookup_assign_ne by discriminate. exact HA1.
  - cbn [setitem columns]. apply lookup_assign_eq.
  - exact HlF.
  - rewrite HlI', HlG', HlF, HnL, HnI. rewrite !Nat.min_id. reflexivity.
  - intros i a Ha.
    assert (Hi : (i < nrows df)%nat) by (rewrite <- HlF; eapply lookup_lt_Some, Ha).
    destruct (lookup_lt_is_Some_2 G i ltac:(lia)) as [g Hg].
    destruct (lookup_lt_is_Some_2 L i ltac:(lia)) as [l Hl].
    destruct (lookup_lt_is_Some_2 I i ltac:(lia)) as [x Hx].
    assert (Hr : zip G L !! i = Some (g, l)) by (apply lookup_zip_with_both; assumption).
    assert (Ha' : a = row_flag aircraft (g, l)).
    { unfold F in Ha. rewrite (lookup_map_Some (row_flag aircraft) _ _ _ Hr) in Ha. congruence. }
    assert (Hg' : G' !! i = Some (fst (row_run aircraft (g, l)))).
    { unfold G'. exact (lookup_map_Some (fun r : row => fst (row_run aircraft r)) _ _ _ Hr). }
    rewrite (Hrows i _ l a x Hg' Hl Ha Hx), Hx. unfold icao_row.
    pose proof (turbine_flagged g l) as Htf. rewrite row_run_snd in Htf.
    cbn [snd] in Htf. rewrite <- Ha' in Htf.
    destruct (turbine _ l).
    + rewrite (Htf eq_refl). left. reflexivity.
    + destruct a; [right|]; reflexivity.
Qed.

Lemma ag_aircraft_then_icao_engine_witness :
  exists df1 df2 F I',
    ag_aircraft (aircraft_table [("NEIVA", "EMB-201A"); ("EMBRAER", "ERJ 190")]) = Ok df1 /\
    icao_engine df1 = Ok df2 /\
    lookup_col "agaircraft" (columns df2) = Some (Boolean F) /\
    lookup_col "icao_type_desc" (columns df2) = Some (Obj I') /\
    length F = 2%nat /\ length I' = 2%nat /\
    forall (i : nat) (a : bool), F !! i = Some a ->
      if a then I' !! i = Some (Str "L1T") \/ I' !! i = Some (Str "L1P")
      else I' !! i = [Str "L2J"; Str "L2J"] !! i.
Proof.
  apply (ag_aircraft_then_icao_engine
           (aircraft_table [("NEIVA", "EMB-201A"); ("EMBRAER", "ERJ 190")])
           [Str "NEIVA"; Str "EMBRAER"] [Str "EMB-201A"; Str "ERJ 190"]
           [Str "L2J"; Str "L2J"]);
    [repeat constructor|reflexivity..].
Defined.

(** ** Flags and names *)

(** On one row: the flag is raised exactly when some rule selects the row as
    it entered; a row that is not flagged keeps its manufacturer; and the
    manufacturer a row ends with is its own or the name of a normalising
    rule. *)
Lemma row_flag_and_name (g l : cell) :
  row_flag aircraft (g, l) = existsb (fun m => row_selection m (g, l)) aircraft /\
  (row_flag aircraft (g, l) = false -> fst (row_run aircraft (g, l)) = g) /\
  (fst (row_run aircraft (g, l)) = g \/
   exists m, In m aircraft /\ normalize m = true /\
             fst (row_run aircraft (g, l)) = Str (name m)).
Proof.
  assert (Hn : forall k m, aircraft !! k = Some m -> normalize m = true ->
                           exists m', In m' aircraft /\ normalize m' = true /\
                                      Str (name m) = Str (name m')).
  { intros k m Hk Hm. exists m. repeat split; [|exact Hm].
    apply list_elem_of_In. eapply list_elem_of_lookup_2, Hk. }
  pose proof (Hn 0%nat _ eq_refl eq_refl) as H0.
  pose proof (Hn 1%nat _ eq_refl eq_refl) as H1.
  pose proof (Hn 2%nat _ eq_refl eq_refl) as H2.
  pose proof (Hn 4%nat _ eq_refl eq_refl) as H4.
  pose proof (Hn 5%nat _ eq_refl eq_refl) as H5.
  cbn [name] in H0, H1, H2, H4, H5. clear Hn.
  unfold existsb.
  classify; (split; [reflexivity|]); (split; [first [discriminate|reflexivity]|]);
    first [left; reflexivity|right; assumption].
Qed.

(** X21.  When [ag_aircraft] returns on a well-formed table, a row is flagged
    [agaircraft] exactly when some rule selects it in the table as it entered
    the stage; a row that is not flagged keeps its manufacturer; and the
    manufacturer of any row is afterwards what it was or the name of a
    normalising rule. *)
Theorem ag_aircraft_flag_and_name (df df' : DataFrame) :
  well_formed df -> ag_aircraft df = Ok df' ->
  exists G G' F,
    lookup_col "mfg" (columns df) = Some (Obj G) /\
    lookup_col "mfg" (columns df') = Some (Obj G') /\
    lookup_col "agaircraft" (columns df') = Some (Boolean F) /\
    length G' = nrows df /\ length F = nrows df /\
    forall (i : nat) (g g' : cell) (a : bool),
      G !! i = Some g -> G' !! i = Some g' -> F !! i = Some a ->
      (a = true <-> exists m sel, In m aircraft /\ rule_selection df m = Ok sel
                                  /\ sel !! i = Some true) /\
      (a = false -> g' = g) /\
      (g' = g \/ exists m, In m aircraft /\ normalize m = true /\ g' = Str (name m)).
Proof.
  intros Hwf H.
  destruct (ag_aircraft_table _ _ Hwf H) as (rows & Hmfg & Hmodel & Hn & ->).
  exists (map fst rows), (map (fun r => fst (row_run aircraft r)) rows),
         (map (row_flag aircraft) rows).
  split; [exact Hmfg|]. split; [|split; [|split; [|split]]].
  - cbn [setitem columns]. rewrite lookup_assign_ne by discriminate.
    apply lookup_assign_eq.
  - cbn [setitem columns]. apply lookup_assign_eq.
  - rewrite length_map. symmetry. exact Hn.
  - rewrite length_map. symmetry. exact Hn.
  - intros i g g' a Hg Hg' Ha.
    rewrite lookup_map in Hg. apply fmap_Some in Hg as ([g0 l] & Hr & ->).
    pose proof (lookup_map_Some (fun r : row => fst (row_run aircraft r)) rows i _ Hr) as E1.
    pose proof (lookup_map_Some (row_flag aircraft) rows i _ Hr) as E2.
    assert (Eg : g' = fst (row_run aircraft (g0, l))) by congruence.
    assert (Ea : a = row_flag aircraft (g0, l)) by congruence.
    subst g' a. cbn [fst].
    destruct (row_flag_and_name g0 l) as (Hflag & Hkeep & Hname).
    split; [|split; [exact Hkeep|exact Hname]].
    rewrite Hflag, existsb_exists. split.
    + intros (m & Hm & Hsel). exists m, (map (row_selection m) rows).
      split; [exact Hm|]. split.
      * apply (rule_selection_rows df rows Hmfg Hmodel).
        pose proof aircraft_ok as Hok. rewrite List.Forall_forall in Hok. apply Hok, Hm.
      * rewrite (lookup_map_Some (row_selection m) rows i _ Hr), Hsel. reflexivity.
    + intros (m & sel & Hm & Hs & Hi). exists m. split; [exact Hm|].
      rewrite (rule_selection_rows df rows Hmfg Hmodel) in Hs.
      * injection Hs as <-.
        rewrite (lookup_map_Some (row_selection m) rows i _ Hr) in Hi. congruence.
      * pose proof aircraft_ok as Hok. rewrite List.Forall_forall in Hok. apply Hok, Hm.
Qed.

Lemma ag_aircraft_flag_and_name_witness :
  exists G G' F,
    lookup_col "mfg" (columns (aircraft_table [("NEIVA", "EMB-201A"); ("EMBRAER", "ERJ 190")]))
    = Some (Obj G) /\
    lookup_col "mfg"
      (columns (mkDataFrame 2
                  [ ("mfg", Obj [Str "EMBRAER"; Str "EMBRAER"]);
                    ("model", Obj [Str "EMB-201A"; Str "ERJ 190"]);
                    ("icao_type_desc", Obj [Str "L2J"; Str "L2J"]);
                    ("agaircraft", Boolean [true; false]) ])) = Some (Obj G') /\
    lookup_col "agaircraft"
      (columns (mkDataFrame 2
                  [ ("mfg", Obj [Str "EMBRAER"; Str "EMBRAER"]);
                    ("model", Obj [Str "EMB-201A"; Str "ERJ 190"]);
                    ("icao_type_desc", Obj [Str "L2J"; Str "L2J"]);
                    ("agaircraft", Boolean [true; false]) ])) = Some (Boolean F) /\
    length G' = 2%nat /\ length F = 2%nat /\
    forall (i : nat) (g g' : cell) (a : bool),
      G !! i = Some g -> G' !! i = Some g' -> F !! i = Some a ->
      (a = true <->
       exists m sel,
         In m aircraft /\
         rule_selection (aircraft_table [("NEIVA", "EMB-201A"); ("EMBRAER", "ERJ 190")]) m
         = Ok sel /\ sel !! i = Some true) /\
      (a = false -> g' = g) /\
      (g' = g \/ exists m, In m aircraft /\ normalize m = true /\ g' = Str (name m)).
Proof.
  apply (ag_aircraft_flag_and_name
           (aircraft_table [("NEIVA", "EMB-201A"); ("EMBRAER", "ERJ 190")])).
  - repeat constructor.
  - vm_compute. reflexivity.
Defined.

(** ** The matcher: letter case and context *)

Lemma lower_facts (x : ascii) : lower (lower x) = lower x /\ is_sep (lower x) = is_sep x.
Proof.
  destruct x as [b0 b1 b2 b3 b4 b5 b6 b7].
  destruct b0, b1, b2, b3, b4, b5, b6, b7; split; vm_compute; reflexivity.
Qed.

Lemma deriv_lower (x : ascii) (r : regex) : deriv (lower x) r = deriv x r.
Proof.
  induction r as [| |c| |r1 IH1 r2 IH2|r1 IH1 r2 IH2|r IH|r IH]; simpl;
    rewrite ?IH1, ?IH2, ?IH; try reflexivity.
  - rewrite (proj1 (lower_facts x)). reflexivity.
  - rewrite (proj2 (lower_facts x)). reflexivity.
Qed.

Lemma match_prefix_lower (s : list ascii) :
  forall r, match_prefix (map lower s) r = match_prefix s r.
Proof.
  induction s as [|x s IH]; intros r; simpl; [reflexivity|].
  rewrite deriv_lower, IH. reflexivity.
Qed.

Lemma search_lower (r : regex) (s : list ascii) : search r (map lower s) = search r s.
Proof.
  induction s as [|x s IH]; [reflexivity|].
  change (map lower (x :: s)) with (lower x :: map lower s). cbn [search].
  rewrite IH. f_equal. apply (match_prefix_lower (x :: s)).
Qed.

(** X22.  The matcher behind [search_df] ignores the case of the ASCII
    letters of the text: two texts that differ in letter case only match the
    same patterns.  A match is not lost when text is added before or after,
    and a cell that is not a text never matches. *)
Theorem str_contains_case_and_context (r : regex) (x : cell) (s t pre post : list ascii) :
  (map lower s = map lower t -> search r s = search r t) /\
  (search r s = true -> search r (pre ++ s ++ post) = true) /\
  ((forall u, x <> Str u) -> str_contains r x = false).
Proof.
  split; [|split].
  - intros H. rewrite <- (search_lower r s), <- (search_lower r t), H. reflexivity.
  - intros H. apply search_spec in H as (a & p & b & -> & Hm). apply search_spec.
    exists (pre ++ a), p, (b ++ post). split; [|exact Hm].
    rewrite <- !app_assoc. reflexivity.
  - intros H. destruct x as [| | |u|b]; try reflexivity. exfalso. apply (H u). reflexivity.
Qed.

Lemma str_contains_case_and_context_witness :
  search re_air_tractor (chars "Air Tractor") = search re_air_tractor (chars "AIR TRACTOR") /\
  search re_emb2 (chars "NEIVA " ++ chars "EMB-2" ++ chars "01A") = true /\
  str_contains re_thrush NaN = false.
Proof.
  split; [|split].
  - apply (proj1 (str_contains_case_and_context re_air_tractor NaN
                    (chars "Air Tractor") (chars "AIR TRACTOR") [] [])).
    vm_compute. reflexivity.
  - apply (proj1 (proj2 (str_contains_case_and_context re_emb2 NaN
                           (chars "EMB-2") [] (chars "NEIVA ") (chars "01A")))).
    vm_compute. reflexivity.
  - apply (proj2 (proj2 (str_contains_case_and_context re_thrush NaN [] [] [] []))).
    discriminate.
Defined.

(** ** Deduplication *)

Lemma duplicated_from_length (l : list cell) : forall seen,
  length (duplicated_from seen l) = length l.
Proof. induction l as [|x l IH]; intros seen; simpl; [|rewrite IH]; reflexivity. Qed.

Lemma keep_rows_all {A} (mask : list bool) (l : list A) :
  Forall (fun m => m = true) mask -> (length l <= length mask)%nat ->
  keep_rows mask l = l.
Proof.
  intros H. revert l. induction H as [|m mask -> _ IH]; intros [|x l]; simpl;
    try reflexivity; try lia.
  intros Hl. rewrite IH by lia. reflexivity.
Qed.

Lemma keep_rows_length {A} (mask : list bool) (l : list A) :
  length l = length mask ->
  length (keep_rows mask l) = length (filter (fun m => m = true) mask).
Proof.
  revert l. induction mask as [|m mask IH]; intros [|x l]; simpl; try reflexivity;
    try discriminate.
  intros [= Hl]. rewrite filter_cons. destruct m.
  - rewrite decide_True by reflexivity. simpl. rewrite IH by exact Hl. reflexivity.
  - rewrite decide_False by discriminate. apply IH, Hl.
Qed.

Lemma keep_rows_map {A B} (f : A -> B) (mask : list bool) (l : list A) :
  keep_rows mask (map f l) = map f (keep_rows mask l).
Proof.
  revert l. induction mask as [|m mask IH]; intros [|x l]; simpl; try reflexivity.
  destruct m; simpl; rewrite IH; reflexivity.
Qed.

Lemma keep_rows_sublist {A} (mask : list bool) (l : list A) :
  keep_rows mask l `sublist_of` l.
Proof.
  revert l. induction mask as [|m mask IH]; intros [|x l]; simpl;
    try apply sublist_nil_l.
  destruct m; [apply sublist_skip, IH|apply sublist_cons, IH].
Qed.

(** The cells kept are those that are new, each once. *)
Lemma keep_rows_first (l : list cell) : forall seen,
  let kept := keep_rows (map negb (duplicated_from seen l)) l in
  NoDup kept /\ (forall x, x ∈ kept <-> x ∈ l /\ x ∉ seen).
Proof.
  induction l as [|x l IH]; intros seen; cbv zeta; simpl.
  - split; [constructor|]. intros y. split; [inversion 1|intros [H _]; inversion H].
  - destruct (IH (x :: seen)) as [Hnd Hin]. cbv zeta in Hnd, Hin.
    case_bool_decide as Hx; simpl.
    + split; [exact Hnd|]. intros y. rewrite Hin, not_elem_of_cons, elem_of_cons.
      split; [tauto|]. intros [[->|Hy] Hs]; [contradiction|]. split; [exact Hy|].
      split; [|exact Hs]. intros ->. contradiction.
    + split.
      * constructor; [|exact Hnd]. rewrite Hin, not_elem_of_cons. tauto.
      * intros y. rewrite !elem_of_cons, Hin, not_elem_of_cons.
        destruct (decide (y = x)) as [->|Hy]; tauto.
Qed.

(** Nothing is marked in a list without repetitions that avoids [seen]. *)
Lemma duplicated_from_NoDup (l : list cell) : forall seen,
  NoDup l -> (forall x, x ∈ l -> x ∉ seen) ->
  Forall (fun m => m = true) (map negb (duplicated_from seen l)).
Proof.
  induction l as [|x l IH]; intros seen Hnd Hs; simpl; constructor.
  - rewrite bool_decide_eq_false_2; [reflexivity|]. apply Hs, elem_of_cons. left. reflexivity.
  - inversion_clear Hnd as [|? ? Hx Hl]. apply IH; [exact Hl|].
    intros y Hy. rewrite not_elem_of_cons. split.
    + intros ->. contradiction.
    + apply Hs, elem_of_cons. right. exact Hy.
Qed.

(** Where a kept row lands: after the kept rows before it. *)
Lemma keep_rows_lookup {A} (mask : list bool) : forall (l : list A) (i : nat) (x : A),
  mask !! i = Some true -> l !! i = Some x ->
  keep_rows mask l !! length (filter (fun m => m = true) (take i mask)) = Some x.
Proof.
  induction mask as [|m mask IH]; intros [|y l] [|i] x Hm Hl; try discriminate.
  - simpl in Hm, Hl. injection Hm as ->. exact Hl.
  - simpl in Hm, Hl. simpl. rewrite filter_cons. destruct m.
    + rewrite decide_True by reflexivity. simpl. apply IH; assumption.
    + rewrite decide_False by discriminate. apply IH; assumption.
Qed.

Lemma duplicated_from_lookup (l : list cell) : forall seen i x,
  l !! i = Some x ->
  duplicated_from seen l !! i = Some (bool_decide (x ∈ seen ∨ x ∈ take i l)).
Proof.
  induction l as [|y l IH]; intros seen [|i] x Hx; try discriminate; simpl in *.
  - injection Hx as ->. f_equal. apply bool_decide_ext. split; [auto|].
    intros [H|H]; [exact H|inversion H].
  - rewrite (IH _ _ _ Hx). f_equal. apply bool_decide_ext.
    rewrite !elem_of_cons. tauto.
Qed.

Lemma lookup_col_map (f : column -> column) (lbl : string) (cs : list (string * column)) :
  lookup_col lbl (map (fun kc => (fst kc, f (snd kc))) cs) = f <$> lookup_col lbl cs.
Proof.
  induction cs as [|[k c] cs IH]; simpl; [reflexivity|].
  destruct (String.eqb k lbl); [reflexivity|exact IH].
Qed.

Lemma cells_column_rows (mask : list bool) (c : column) :
  cells (column_rows mask c) = keep_rows mask (cells c).
Proof. destruct c as [l|l]; simpl; [reflexivity|]. symmetry. apply keep_rows_map. Qed.

Lemma col_length_column_rows (mask : list bool) (c : column) :
  col_length c = length mask ->
  col_length (column_rows mask c) = length (filter (fun m => m = true) mask).
Proof. destruct c as [l|l]; simpl; apply keep_rows_length. Qed.

Lemma column_rows_all (mask : list bool) (c : column) :
  Forall (fun m => m = true) mask -> (col_length c <= length mask)%nat ->
  column_rows mask c = c.
Proof.
  intros Hm Hl. destruct c as [l|l]; simpl in *; rewrite keep_rows_all; auto.
Qed.

Lemma filter_all_true (mask : list bool) :
  Forall (fun m => m = true) mask -> filter (fun m => m = true) mask = mask.
Proof.
  induction 1 as [|m mask Hm _ IH]; [reflexivity|].
  rewrite filter_cons, decide_True by exact Hm. rewrite IH. reflexivity.
Qed.

(** [drop_duplicates] on a table whose key column is given. *)
Lemma drop_duplicates_table (df : DataFrame) (col : string) (key : column) :
  lookup_col col (columns df) = Some key ->
  let mask := map negb (duplicated (cells key)) in
  drop_duplicates df col
  = Ok (mkDataFrame (length (filter (fun m => m = true) mask))
                    (map (fun kc => (fst kc, column_rows mask (snd kc))) (columns df))).
Proof.
  intros H. unfold drop_duplicates. rewrite (proj2 (getitem_Ok df col key) H). reflexivity.
Qed.

(** A table without repeated keys is left as it is. *)
Lemma drop_duplicates_NoDup (df : DataFrame) (col : string) (key : column) :
  well_formed df -> lookup_col col (columns df) = Some key -> NoDup (cells key) ->
  drop_duplicates df col = Ok df.
Proof.
  intros Hwf Hkey Hnd. rewrite (drop_duplicates_table df col key Hkey). cbv zeta.
  pose proof (duplicated_from_NoDup (cells key) [] Hnd
                ltac:(intros x _ H; inversion H)) as Hall.
  fold (duplicated (cells key)) in Hall.
  assert (Hlen : length (map negb (duplicated (cells key))) = nrows df).
  { rewrite length_map. unfold duplicated. rewrite duplicated_from_length.
    rewrite length_cells. apply (well_formed_lookup df col key Hwf Hkey). }
  rewrite (filter_all_true _ Hall), Hlen.
  assert (Hmap : forall cs : list (string * column),
            Forall (fun kc => col_length (snd kc) = nrows df) cs ->
            map (fun kc => (fst kc, column_rows (map negb (duplicated (cells key))) (snd kc))) cs
            = cs).
  { intros cs Hcs. induction Hcs as [|[k c] cs Hc _ IH]; [reflexivity|].
    simpl. rewrite IH, column_rows_all; [reflexivity|exact Hall|].
    simpl in Hc. lia. }
  rewrite (Hmap _ Hwf). destruct df; reflexivity.
Qed.



(** ** The columns of the pipeline *)

(** X24.  On a table that [check_raw_data] accepts, every column that a
    stage of [Rab.cleaning_pipeline] reads is there after [rename_columns], so
    that no stage fails for a missing column, and no column that a stage adds
    replaces one of the renamed columns. *)
Theorem pipeline_columns_available (cols : list string) :
  check_raw_data cols = true ->
  Forall (fun c => c ∈ rename_columns cols) pipeline_columns /\
  Forall (fun c => c ∉ rename_columns cols) derived_columns.
Proof.
  intros H. unfold check_raw_data in H.
  rewrite bool_decide_eq_true, Counter_eq_iff in H.
  assert (Hp : rename_columns cols ≡ₚ values COLUMN_MAP_CSV).
  { unfold rename_columns. rewrite <- H. reflexivity. }
  split.
  - apply List.Forall_forall. intros c Hc. rewrite Hp.
    revert c Hc. apply List.Forall_forall.
    apply (bool_decide_unpack _). vm_compute. exact I.
  - apply List.Forall_forall. intros c Hc. rewrite Hp.
    revert c Hc. apply List.Forall_forall.
    apply (bool_decide_unpack _). vm_compute. exact I.
Qed.

Lemma pipeline_columns_available_witness :
  Forall (fun c => c ∈ rename_columns (rev (keys COLUMN_MAP_CSV))) pipeline_columns /\
  Forall (fun c => c ∉ rename_columns (rev (keys COLUMN_MAP_CSV))) derived_columns.
Proof.
  apply (pipeline_columns_available (rev (keys COLUMN_MAP_CSV))).
  vm_compute. reflexivity.
Defined.

(** ** The customer view *)

Lemma lookup_col_relabel (f : string -> string) (c c0 : string) (cs : list (string * column)) :
  (forall k, k ∈ map fst cs -> f k = c <-> k = c0) ->
  lookup_col c (map (fun kc => (f (fst kc), snd kc)) cs) = lookup_col c0 cs.
Proof.
  induction cs as [|[k v] cs IH]; intros H; [reflexivity|]. simpl.
  pose proof (H k ltac:(simpl; apply elem_of_cons; left; reflexivity)) as Hk.
  rewrite IH by (intros k' Hk'; apply H; simpl; apply elem_of_cons; right; exact Hk').
  destruct (String.eqb_spec (f k) c) as [E|E], (String.eqb_spec k c0) as [E0|E0];
    try reflexivity; tauto.
Qed.

Lemma lookup_col_relabel_None (f : string -> string) (c : string) (cs : list (string * column)) :
  (forall k, k ∈ map fst cs -> f k <> c) ->
  lookup_col c (map (fun kc => (f (fst kc), snd kc)) cs) = None.
Proof.
  induction cs as [|[k v] cs IH]; intros H; [reflexivity|]. simpl.
  pose proof (H k ltac:(simpl; apply elem_of_cons; left; reflexivity)) as Hk.
  destruct (String.eqb_spec (f k) c); [contradiction|].
  apply IH. intros k' Hk'. apply H. simpl. apply elem_of_cons. right. exact Hk'.
Qed.

Lemma lookup_col_filter (D : list string) (c : string) (cs : list (string * column)) :
  lookup_col c (filter (fun kc => fst kc ∉ D) cs)
  = if bool_decide (c ∈ D) then None else lookup_col c cs.
Proof.
  induction cs as [|[k v] cs IH]; simpl; [destruct (bool_decide _); reflexivity|].
  rewrite filter_cons. simpl. destruct (decide (k ∉ D)) as [Hk|Hk]; simpl.
  - rewrite IH. destruct (String.eqb_spec k c) as [->|]; [|reflexivity].
    rewrite bool_decide_eq_false_2 by exact Hk. reflexivity.
  - rewrite IH. destruct (String.eqb_spec k c) as [->|]; [|reflexivity].
    rewrite bool_decide_eq_true_2; [reflexivity|]. destruct (decide (c ∈ D)); tauto.
Qed.

Lemma lookup_col_None (c : string) (cs : list (string * column)) :
  lookup_col c cs = None <-> c ∉ map fst cs.
Proof.
  induction cs as [|[k v] cs IH]; simpl.
  - split; [intros _ H; inversion H|reflexivity].
  - rewrite not_elem_of_cons. destruct (String.eqb_spec k c) as [->|Hk].
    + split; [discriminate|tauto].
    + rewrite IH. split; [intros H; split; [congruence|exact H]|tauto].
Qed.

Lemma pd_drop_Ok (D : list string) (df : DataFrame) :
  (forall k, k ∈ D -> k ∈ map fst (columns df)) ->
  pd.drop D df
  = Ok (mkDataFrame (nrows df) (filter (fun kc => fst kc ∉ D) (columns df))).
Proof.
  intros H. unfold pd.drop.
  assert (E : forallb (fun k => bool_decide (k ∈ map fst (columns df))) D = true).
  { apply forallb_forall. intros k Hk. apply bool_decide_eq_true, H, list_elem_of_In, Hk. }
  rewrite E. reflexivity.
Qed.

Lemma pd_drop_KeyError (D : list string) (df : DataFrame) (k : string) :
  k ∈ D -> k ∉ map fst (columns df) -> pd.drop D df = Raise KeyError.
Proof.
  intros Hk Hn. unfold pd.drop.
  destruct (forallb _ D) eqn:E; [|reflexivity].
  rewrite forallb_forall in E. specialize (E k (proj1 (list_elem_of_In _ _) Hk)).
  apply bool_decide_eq_true in E. contradiction.
Qed.

Lemma rename_label_cases (m : list (string * string)) (k : string) :
  (exists v, In (k, v) m /\ rename_label m k = v)
  \/ ((k ∉ keys m) /\ rename_label m k = k).
Proof.
  unfold rename_label. induction m as [|[k' v] m IH]; simpl.
  - right. split; [intros H; inversion H|reflexivity].
  - destruct (String.eqb_spec k' k) as [->|Hk].
    + left. exists v. split; [left; reflexivity|reflexivity].
    + destruct IH as [(w & Hin & Hw)|[Hn Hw]].
      * left. exists w. split; [right; exact Hin|exact Hw].
      * right. split; [|exact Hw]. apply not_elem_of_cons. split; [congruence|exact Hn].
Qed.

Lemma customer_column_map_In (t k v : string) :
  In (k, v) (customer_column_map t) <-> In v info_columns /\ k = t +:+ "_" +:+ v.
Proof.
  unfold customer_column_map. rewrite in_map_iff. split.
  - intros (col & [= <- <-] & Hc). split; [exact Hc|reflexivity].
  - intros [Hv ->]. exists v. split; [reflexivity|exact Hv].
Qed.

Lemma customer_column_map_keys (t k : string) :
  k ∈ keys (customer_column_map t) <-> exists X, In X info_columns /\ k = t +:+ "_" +:+ X.
Proof.
  unfold keys. rewrite list_elem_of_In, in_map_iff. split.
  - intros ([k' v] & <- & H). apply customer_column_map_In in H as [Hv ->].
    exists v. split; [exact Hv|reflexivity].
  - intros (X & HX & ->). exists (t +:+ "_" +:+ X, X). split; [reflexivity|].
    apply customer_column_map_In. split; [exact HX|reflexivity].
Qed.

(** The labels of the two customer types and the generic labels are pairwise
    apart. *)
Lemma customer_labels_apart (t o : string) :
  (t = "owner" /\ o = "operator") \/ (t = "operator" /\ o = "owner") ->
  Forall (fun X => (X ∉ keys (customer_column_map t)) /\ (X ∉ keys (customer_column_map o)))
         ("customer_type" :: info_columns) /\
  Forall (fun k => k ∉ keys (customer_column_map t)) (keys (customer_column_map o)) /\
  "customer_type" ∉ info_columns.
Proof.
  intros [[-> ->]|[-> ->]]; (split; [|split]);
    apply (bool_decide_unpack _); vm_compute; exact I.
Qed.

(** What [rename_label] does with the map of a customer type. *)
Lemma customer_rename_label (t o : string) (k : string) :
  (t = "owner" /\ o = "operator") \/ (t = "operator" /\ o = "owner") ->
  let f := rename_label (customer_column_map t) in
  (exists X, In X info_columns /\ k = t +:+ "_" +:+ X /\ f k = X)
  \/ ((k ∉ keys (customer_column_map t)) /\ f k = k).
Proof.
  intros Hto. cbv zeta.
  destruct (rename_label_cases (customer_column_map t) k) as [(v & Hin & Hv)|H];
    [left|right; exact H].
  apply customer_column_map_In in Hin as [Hv' ->]. exists v. repeat split; assumption.
Qed.

(** X25.  [create_customer_df] returns the table as it is for a customer type
    other than owner and operator.  For owner or operator it raises a
    [KeyError] when one of the five columns of the other customer is not in
    the table; otherwise it returns a table with the same rows in which
    [customer_type] holds the customer type in every row, no column of
    either customer is left under its prefixed label, each of the five
    generic labels that the table did not have names the column of this
    customer, and every other column is untouched. *)
Theorem create_customer_df_spec (df : DataFrame) :
  (forall t, t <> "owner" -> t <> "operator" -> create_customer_df df t = Ok df) /\
  forall t o,
    (t = "owner" /\ o = "operator") \/ (t = "operator" /\ o = "owner") ->
    (forall k, k ∈ keys (customer_column_map o) -> k ∉ map fst (columns df) ->
               create_customer_df df t = Raise KeyError) /\
    ((forall k, k ∈ keys (customer_column_map o) -> k ∈ map fst (columns df)) ->
     exists df',
       create_customer_df df t = Ok df' /\
       nrows df' = nrows df /\
       (well_formed df -> well_formed df') /\
       lookup_col "customer_type" (columns df')
       = Some (Obj (replicate (nrows df) (Str t))) /\
       (forall k, k ∈ keys (customer_column_map o) \/ k ∈ keys (customer_column_map t) ->
                  lookup_col k (columns df') = None) /\
       (forall X, In X info_columns -> X ∉ map fst (columns df) ->
                  lookup_col X (columns df') = lookup_col (t +:+ "_" +:+ X) (columns df)) /\
       (forall c, c ∉ keys (customer_column_map t) -> c ∉ keys (customer_column_map o) ->
                  ~ In c info_columns -> c <> "customer_type" ->
                  lookup_col c (columns df') = lookup_col c (columns df))).
Proof.
  split.
  { intros t Ho Hp. unfold create_customer_df.
    destruct (String.eqb_spec t "owner"); [contradiction|].
    destruct (String.eqb_spec t "operator"); [contradiction|]. reflexivity. }
  intros t o Hto.
  destruct (customer_labels_apart t o Hto) as (Hgen & Hdis & Htype).
  rewrite List.Forall_forall in Hdis.
  inversion_clear Hgen as [|? ? [Hct Hco] Hinfo]. rewrite List.Forall_forall in Hinfo.
  set (m := customer_column_map t) in *.
  set (D := keys (customer_column_map o)) in *.
  set (f := rename_label m).
  assert (Hf : forall k, (exists X, In X info_columns /\ k = t +:+ "_" +:+ X /\ f k = X)
                         \/ ((k ∉ keys m) /\ f k = k))
    by (intros k; apply (customer_rename_label t o k Hto)).
  assert (Hunfold : create_customer_df df t
                    = (df1 ← pd.drop D (pd.rename m df);
                       Ok (setitem df1 "customer_type"
                                   (Obj (replicate (nrows df1) (Str t)))))).
  { unfold create_customer_df. destruct Hto as [[-> ->]|[-> ->]]; reflexivity. }
  assert (Hlabels : map fst (columns (pd.rename m df)) = map f (map fst (columns df))).
  { unfold pd.rename. simpl. rewrite !map_map. reflexivity. }
  assert (HfD : forall k, k ∈ D -> f k = k).
  { intros k Hk. destruct (Hf k) as [(X & HX & -> & _)|[_ H]]; [|exact H].
    exfalso. apply (Hdis _ (proj1 (list_elem_of_In _ _) Hk)).
    apply customer_column_map_keys. exists X. split; [exact HX|reflexivity]. }
  assert (Hback : forall k, k ∈ D -> k ∈ map f (map fst (columns df)) ->
                            k ∈ map fst (columns df)).
  { intros k Hk Hin. apply list_elem_of_In, in_map_iff in Hin as (k' & Hk' & Hin').
    destruct (Hf k') as [(X & HX & -> & HfX)|[_ H]].
    - exfalso. rewrite HfX in Hk'. subst k.
      apply (proj2 (Hinfo X HX)). exact Hk.
    - rewrite H in Hk'. subst k'. apply list_elem_of_In, Hin'. }
  split.
  - intros k Hk Hn. rewrite Hunfold.
    rewrite (pd_drop_KeyError D _ k Hk); [reflexivity|].
    rewrite Hlabels. intros Hin. apply Hn, Hback; assumption.
  - intros Hall. rewrite Hunfold. rewrite pd_drop_Ok.
    2:{ intros k Hk. rewrite Hlabels. rewrite <- (HfD k Hk).
        apply list_elem_of_In, in_map, list_elem_of_In, Hall, Hk. }
    cbn [mbind res_bind nrows].
    eexists. split; [reflexivity|]. split; [reflexivity|].
    assert (Hlook : forall c, c <> "customer_type" ->
              lookup_col c (columns (setitem
                 (mkDataFrame (nrows (pd.rename m df))
                    (filter (fun kc => fst kc ∉ D) (columns (pd.rename m df))))
                 "customer_type" (Obj (replicate (nrows (pd.rename m df)) (Str t)))))
              = if bool_decide (c ∈ D) then None
                else lookup_col c (map (fun kc => (f (fst kc), snd kc)) (columns df))).
    { intros c Hc. cbn [setitem columns]. rewrite lookup_assign_ne by congruence.
      apply lookup_col_filter. }
    split; [|split; [|split; [|split]]].
    + intros Hwf. apply well_formed_setitem.
      * unfold well_formed. cbn [columns nrows pd.rename].
        apply List.Forall_forall. intros [k c] Hin.
        apply list_elem_of_In, list_elem_of_filter in Hin as [_ Hin].
        apply list_elem_of_In, in_map_iff in Hin as ([k0 c0] & [= <- <-] & Hin0).
        unfold well_formed in Hwf. rewrite List.Forall_forall in Hwf.
        apply (Hwf _ Hin0).
      * simpl. apply length_replicate.
    + cbn [setitem columns]. apply lookup_assign_eq.
    + intros k Hk.
      assert (Hne : k <> "customer_type").
      { intros ->. destruct Hk as [Hk|Hk]; [exact (Hco Hk)|exact (Hct Hk)]. }
      rewrite (Hlook k Hne). case_bool_decide as HkD; [reflexivity|].
      destruct Hk as [Hk|Hk]; [exfalso; exact (HkD Hk)|].
      apply lookup_col_relabel_None. intros k' _ Hk'.
      destruct (Hf k') as [(X & HX & -> & HfX)|[Hn H]].
      * rewrite HfX in Hk'. subst k. apply (proj1 (Hinfo X HX)). exact Hk.
      * rewrite H in Hk'. subst k'. exact (Hn Hk).
    + intros X HX Hn.
      assert (Hne : X <> "customer_type") by (intros ->; apply Htype, list_elem_of_In, HX).
      rewrite (Hlook X Hne).
      rewrite bool_decide_eq_false_2 by (apply (proj2 (Hinfo X HX))).
      apply lookup_col_relabel. intros k' Hk'.
      destruct (Hf k') as [(Y & HY & -> & HfY)|[Hk H]].
      * rewrite HfY. split; [intros ->; reflexivity|].
        intros E. apply append_inj_l, append_inj_l in E. exact E.
      * rewrite H. split.
        -- intros ->. exfalso. exact (Hn Hk').
        -- intros ->. exfalso. apply Hk, customer_column_map_keys.
           exists X. split; [exact HX|reflexivity].
    + intros c Hct' Hco' Hci Hne. rewrite (Hlook c Hne).
      rewrite bool_decide_eq_false_2 by exact Hco'.
      apply lookup_col_relabel. intros k' _.
      destruct (Hf k') as [(Y & HY & -> & HfY)|[Hk H]].
      * rewrite HfY. split; [intros ->; exfalso; exact (Hci HY)|].
        intros <-. exfalso. apply Hct', customer_column_map_keys.
        exists Y. split; [exact HY|reflexivity].
      * rewrite H. reflexivity.
Qed.

Lemma create_customer_df_spec_witness :
  create_customer_df (mkDataFrame 1 [("owner_customer_name", Obj [Str "A"])]) "pilot"
  = Ok (mkDataFrame 1 [("owner_customer_name", Obj [Str "A"])]) /\
  create_customer_df (mkDataFrame 1 [("owner_customer_name", Obj [Str "A"])]) "owner"
  = Raise KeyError.
Proof.
  split.
  - apply (proj1 (create_customer_df_spec _)); discriminate.
  - apply (proj1 (proj2 (create_customer_df_spec _) "owner" "operator"
                        ltac:(left; split; reflexivity))
                 "operator_tax_id").
    + apply (bool_decide_unpack _). vm_compute. exact I.
    + apply (bool_decide_unpack _). vm_compute. exact I.
Defined.

Lemma assign_col_new_labels c v cs :
  lookup_col c cs = None -> map fst (assign_col c v cs) = map fst cs ++ [c].
Proof.
  induction cs as [|[k x] cs IH]; simpl; [reflexivity|].
  destruct (String.eqb_spec k c); [discriminate|]. intros H. simpl. rewrite (IH H).
  reflexivity.
Qed.

Lemma filter_none {A} (P : A -> Prop) `{forall x, Decision (P x)} (l : list A) :
  Forall (fun x => ~ P x) l -> filter P l = [].
Proof.
  induction 1 as [|x l Hx _ IH]; [reflexivity|].
  rewrite filter_cons, decide_False by exact Hx. exact IH.
Qed.

(** The labels of a customer view: the generic labels for the columns of the
    customer, the columns of neither customer, and [customer_type]. *)
Lemma customer_view_labels (df df' : DataFrame) (t o : string) :
  (t = "owner" /\ o = "operator") \/ (t = "operator" /\ o = "owner") ->
  NoDup (map fst (columns df)) ->
  (forall k, k ∈ keys (customer_column_map t) -> k ∈ map fst (columns df)) ->
  (forall k, k ∈ keys (customer_column_map o) -> k ∈ map fst (columns df)) ->
  create_customer_df df t = Ok df' ->
  let others := filter (fun k => k ∉ keys (customer_column_map t)
                                      ++ keys (customer_column_map o))
                       (map fst (columns df)) in
  map fst (columns df')
  ≡ₚ info_columns ++ others
     ++ (if bool_decide ("customer_type" ∈ info_columns ++ others) then []
         else ["customer_type"]).
Proof.
  intros Hto Hnd Ht Ho H. cbv zeta.
  destruct (customer_labels_apart t o Hto) as (Hgen & Hdis & Htype).
  rewrite List.Forall_forall in Hdis.
  inversion_clear Hgen as [|? ? [Hct Hco] Hinfo]. rewrite List.Forall_forall in Hinfo.
  set (Kt := keys (customer_column_map t)) in *.
  set (Ko := keys (customer_column_map o)) in *.
  set (f := rename_label (customer_column_map t)).
  set (L := map fst (columns df)) in *.
  set (others := filter (fun k => k ∉ Kt ++ Ko) L).
  assert (Hf : forall k, (exists X, In X info_columns /\ k = t +:+ "_" +:+ X /\ f k = X)
                         \/ ((k ∉ Kt) /\ f k = k))
    by (intros k; apply (customer_rename_label t o k Hto)).
  assert (HKt : NoDup Kt /\ NoDup Ko /\ map f Kt = info_columns).
  { destruct Hto as [[-> ->]|[-> ->]]; (split; [|split]);
      first [reflexivity | apply (bool_decide_unpack _); vm_compute; exact I]. }
  destruct HKt as (HndT & HndO & HfT).
  assert (HL : L ≡ₚ Kt ++ Ko ++ others).
  { apply NoDup_Permutation; [exact Hnd| |].
    - apply list.NoDup_app. split; [exact HndT|]. split.
      + intros k Hk Hin. apply elem_of_app in Hin as [Hin|Hin].
        * apply (Hdis k (proj1 (list_elem_of_In _ _) Hin) Hk).
        * apply list_elem_of_filter in Hin as [Hin _]. apply Hin, elem_of_app. left. exact Hk.
      + apply list.NoDup_app. split; [exact HndO|]. split; [|apply list.NoDup_filter, Hnd].
        intros k Hk Hin. apply list_elem_of_filter in Hin as [Hin _].
        apply Hin, elem_of_app. right. exact Hk.
    - intros k. rewrite !elem_of_app. unfold others. rewrite list_elem_of_filter.
      rewrite elem_of_app. split.
      + intros Hk. destruct (decide (k ∈ Kt)); [tauto|].
        destruct (decide (k ∈ Ko)); tauto.
      + intros [Hk|[Hk|[_ Hk]]]; auto. }
  assert (HfO : forall l, Forall (fun k => k ∉ Kt) l -> map f l = l).
  { intros l Hl. induction Hl as [|k l Hk _ IH]; [reflexivity|]. simpl. rewrite IH.
    destruct (Hf k) as [(X & HX & -> & _)|[_ ->]]; [|reflexivity].
    exfalso. apply Hk, customer_column_map_keys. exists X. split; [exact HX|reflexivity]. }
  assert (Hview : filter (fun k => k ∉ Ko) (map f L) ≡ₚ info_columns ++ others).
  { assert (HmL : map f L ≡ₚ map f (Kt ++ Ko ++ others)) by (apply Permutation_map, HL).
    rewrite HmL, !map_app, !list.filter_app, HfT.
    rewrite (HfO Ko) by (apply List.Forall_forall; exact Hdis).
    rewrite (HfO others).
    2:{ apply List.Forall_forall. intros k Hk.
        apply list_elem_of_In, list_elem_of_filter in Hk as [Hk _].
        intros Hin. apply Hk, elem_of_app. left. exact Hin. }
    rewrite (filter_all (fun k => k ∉ Ko) info_columns)
      by (apply List.Forall_forall; intros X HX; apply (proj2 (Hinfo X HX))).
    rewrite (filter_all (fun k => k ∉ Ko) others).
    2:{ apply List.Forall_forall. intros k Hk.
        apply list_elem_of_In, list_elem_of_filter in Hk as [Hk _].
        intros Hin. apply Hk, elem_of_app. right. exact Hin. }
    rewrite (filter_none (fun k => k ∉ Ko) Ko)
      by (apply List.Forall_forall; intros k Hk Hn; apply Hn, list_elem_of_In, Hk).
    reflexivity. }
  assert (Hunfold : create_customer_df df t
                    = (df1 ← pd.drop Ko (pd.rename (customer_column_map t) df);
                       Ok (setitem df1 "customer_type"
                                   (Obj (replicate (nrows df1) (Str t)))))).
  { unfold create_customer_df, Ko. destruct Hto as [[-> ->]|[-> ->]]; reflexivity. }
  rewrite Hunfold in H. unfold pd.drop in H.
  destruct (forallb _ Ko); [|discriminate H]. cbn [mbind res_bind] in H.
  injection H as <-. cbn [setitem columns nrows pd.rename].
  set (cs := filter _ _).
  assert (Hcs : map fst cs = filter (fun k => k ∉ Ko) (map f L)).
  { unfold cs, L, f. clear. induction (columns df) as [|[k c] l IH]; [reflexivity|].
    simpl. rewrite !filter_cons. simpl.
    destruct (decide (rename_label (customer_column_map t) k ∉ Ko)); simpl;
      rewrite IH; reflexivity. }
  destruct (lookup_col "customer_type" cs) as [c|] eqn:Hc.
  - assert (Hin : "customer_type" ∈ info_columns ++ others).
    { rewrite <- Hview, <- Hcs. apply lookup_col_In in Hc.
      apply list_elem_of_In. apply (in_map fst _ _ Hc). }
    rewrite bool_decide_eq_true_2 by exact Hin.
    rewrite assign_col_labels by (rewrite Hc; eexists; reflexivity).
    rewrite Hcs, Hview, !app_nil_r. reflexivity.
  - assert (Hin : "customer_type" ∉ info_columns ++ others).
    { rewrite <- Hview, <- Hcs. apply lookup_col_None, Hc. }
    rewrite bool_decide_eq_false_2 by exact Hin.
    rewrite assign_col_new_labels by exact Hc.
    rewrite Hcs, Hview, <- app_assoc. reflexivity.
Qed.

(** A customer view exists when the columns of the other customer do. *)
Lemma create_customer_df_returns (df : DataFrame) (t o : string) :
  (t = "owner" /\ o = "operator") \/ (t = "operator" /\ o = "owner") ->
  (forall k, k ∈ keys (customer_column_map o) -> k ∈ map fst (columns df)) ->
  exists df', create_customer_df df t = Ok df'.
Proof.
  intros Hto Hall.
  destruct (customer_labels_apart t o Hto) as (_ & Hdis & _).
  rewrite List.Forall_forall in Hdis.
  assert (Hunfold : create_customer_df df t
                    = (df1 ← pd.drop (keys (customer_column_map o))
                                     (pd.rename (customer_column_map t) df);
                       Ok (setitem df1 "customer_type"
                                   (Obj (replicate (nrows df1) (Str t)))))).
  { unfold create_customer_df. destruct Hto as [[-> ->]|[-> ->]]; reflexivity. }
  rewrite Hunfold, pd_drop_Ok; [eexists; reflexivity|].
  intros k Hk. unfold pd.rename. cbn [columns]. rewrite map_map. cbn [fst].
  apply list_elem_of_In, in_map_iff.
  specialize (Hall k Hk). apply list_elem_of_In, in_map_iff in Hall as ([k' c] & <- & Hin).
  exists (k', c). split; [|exact Hin]. cbn [fst].
  destruct (customer_rename_label t o k' Hto) as [(X & HX & -> & _)|[_ H]]; [|exact H].
  exfalso. apply (Hdis _ (proj1 (list_elem_of_In _ _) Hk)).
  apply customer_column_map_keys. exists X. split; [exact HX|reflexivity].
Qed.

(** X26.  On a table whose labels are distinct and include the five columns
    of the owner and the five of the operator, the owner view and the
    operator view both exist and have the same labels up to order: the two
    tables that [melt_rab_by_customer] puts together have the same
    columns. *)
Theorem customer_views_same_labels (df : DataFrame) :
  NoDup (map fst (columns df)) ->
  (forall k, k ∈ keys (customer_column_map "owner") ++ keys (customer_column_map "operator") ->
             k ∈ map fst (columns df)) ->
  exists df1 df2,
    create_customer_df df "owner" = Ok df1 /\
    create_customer_df df "operator" = Ok df2 /\
    (map fst (columns df1) ≡ₚ map fst (columns df2)).
Proof.
  intros Hnd Hall.
  assert (Ho : forall k, k ∈ keys (customer_column_map "owner") -> k ∈ map fst (columns df))
    by (intros k Hk; apply Hall, elem_of_app; left; exact Hk).
  assert (Hp : forall k, k ∈ keys (customer_column_map "operator") -> k ∈ map fst (columns df))
    by (intros k Hk; apply Hall, elem_of_app; right; exact Hk).
  destruct (create_customer_df_returns df "owner" "operator"
              ltac:(left; split; reflexivity) Hp) as (df1 & H1).
  destruct (create_customer_df_returns df "operator" "owner"
              ltac:(right; split; reflexivity) Ho) as (df2 & H2).
  exists df1, df2. split; [exact H1|]. split; [exact H2|].
  rewrite (customer_view_labels df df1 "owner" "operator"
             ltac:(left; split; reflexivity) Hnd Ho Hp H1).
  rewrite (customer_view_labels df df2 "operator" "owner"
             ltac:(right; split; reflexivity) Hnd Hp Ho H2).
  assert (E : filter (fun k => k ∉ keys (customer_column_map "owner")
                                   ++ keys (customer_column_map "operator"))
                     (map fst (columns df))
              = filter (fun k => k ∉ keys (customer_column_map "operator")
                                     ++ keys (customer_column_map "owner"))
                       (map fst (columns df))).
  { apply list_filter_iff. intros k. rewrite !elem_of_app. tauto. }
  rewrite E. reflexivity.
Qed.

Lemma customer_views_same_labels_witness :
  exists df1 df2,
    create_customer_df
      (mkDataFrame 0 (map (fun k => (k, Obj []))
                          (keys (customer_column_map "owner")
                           ++ keys (customer_column_map "operator"))))
      "owner" = Ok df1 /\
    create_customer_df
      (mkDataFrame 0 (map (fun k => (k, Obj []))
                          (keys (customer_column_map "owner")
                           ++ keys (customer_column_map "operator"))))
      "operator" = Ok df2 /\
    (map fst (columns df1) ≡ₚ map fst (columns df2)).
Proof.
  apply customer_views_same_labels.
  - apply (bool_decide_unpack _). vm_compute. exact I.
  - intros k Hk. cbn [columns]. rewrite map_map. cbn [fst]. rewrite map_id. exact Hk.
Defined.

(** ** When the enrichment returns *)

Lemma py_int_char_digit (c : ascii) (v : Z) :
  py_int (String c "") = Ok v -> is_digit c = true.
Proof.
  destruct c as [b0 b1 b2 b3 b4 b5 b6 b7].
  destruct b0, b1, b2, b3, b4, b5, b6, b7; vm_compute; intros H;
    first [reflexivity | discriminate H].
Qed.

Lemma digit_sum_Ok_readable (x : cell) (v : Z) :
  digit_sum (if isna x then Str "0" else x) = Ok v -> readable_id x.
Proof.
  destruct x as [| | |s|b]; try (intros _; left; reflexivity); simpl; [|discriminate].
  intros H. right. exists s. split; [reflexivity|].
  destruct (mapM _ (chars s)) as [ds|] eqn:Hds; [|discriminate H].
  apply mapM_Ok in Hds. clear H.
  induction Hds as [|c d l ds Hc _ IH]; constructor; [|exact IH].
  exact (py_int_char_digit c d Hc).
Qed.

Lemma mapM_Ok_each {A B} (f : A -> res B) (l : list A) (out : list B) :
  mapM f l = Ok out -> Forall (fun x => exists y, f x = Ok y) l.
Proof.
  intros H. apply mapM_Ok in H.
  induction H as [|x y l out Hx _ IH]; constructor; [exists y; exact Hx|exact IH].
Qed.

Lemma tax_id_entity_Ok_readable (df df' : DataFrame) (entity : string) (ids : list cell) :
  lookup_col (entity +:+ "_tax_id") (columns df) = Some (Obj ids) ->
  tax_id_entity df entity = Ok df' -> Forall readable_id ids.
Proof.
  intros Hids H. unfold tax_id_entity in H.
  rewrite (proj2 (getitem_Ok df _ _) Hids) in H. cbn [mbind res_bind cells] in H.
  destruct (mapM digit_sum (fillna (Str "0") ids)) as [sums|] eqn:Hs; [|discriminate H].
  clear H. apply mapM_Ok_each in Hs. unfold fillna in Hs.
  apply (proj1 (List.Forall_map _ _ _)) in Hs. eapply List.Forall_impl; [|exact Hs].
  intros x [v Hv]. exact (digit_sum_Ok_readable x v Hv).
Qed.


